(** * Medallion analytics pipeline: a shallow embedding and its properties

    The development follows the Python sources of the pipeline:
    - [src/transformer.py]: module [Parser] (the value parser) and module
      [Bronze] (raw persistence),
    - [src/loader.py]: module [Loader],
    - [src/consumer.py]: module [Consumer],
    - [deliverable2_pipeline.py] and [config.py]: module [Pipeline].

    Functions of these files that the orchestrator does not call have
    modules of their own: [Batching] ([delete_messages_batch]), [Listing]
    ([list_bronze_files]) and [Database] ([get_layer_stats]).

    Python text is a [string] whose characters stand for code points
    below 256.  Python integers are [Z].  A [dict] is an association list
    in insertion order.  A raised exception is a value of [Eff.exn]; code
    that can raise, or that reaches the queue, the file system or the
    database, is a computation of the monad [Eff.M] over an explicit
    world.  The queue, the file system and the database themselves are
    the operations of the class [Eff.Env]; module [Sim] implements them
    for concrete runs.

    The models come first, the properties after them. *)

From Stdlib Require Import ZArith NArith List String Ascii Bool Lia.
From Stdlib Require Import DecimalString DecimalZ Sorted Permutation.
Import ListNotations.
Local Open Scope string_scope.
Local Open Scope Z_scope.

(* ===================================================================== *)
(** * Python [str] operations used by the sources *)
(* ===================================================================== *)

Module Text.

(** [str.isspace] on one code point below 256: the characters that
    [str.strip()] removes. *)
Definition is_space (c : ascii) : bool :=
  let n := nat_of_ascii c in
  ((9 <=? n) && (n <=? 13))%nat || ((28 <=? n) && (n <=? 32))%nat
  || (n =? 133)%nat || (n =? 160)%nat.

Definition is_digit (c : ascii) : bool :=
  let n := nat_of_ascii c in ((48 <=? n) && (n <=? 57))%nat.

Definition digit_val (c : ascii) : N := N.of_nat (nat_of_ascii c - 48).

(** [s += char] *)
Definition snoc (s : string) (c : ascii) : string :=
  s ++ String c EmptyString.

(** truth value of a [str]: non-empty *)
Definition nonempty (s : string) : bool :=
  match s with EmptyString => false | String _ _ => true end.

Fixpoint lstrip_by (p : ascii -> bool) (s : string) : string :=
  match s with
  | EmptyString => EmptyString
  | String c r => if p c then lstrip_by p r else s
  end.

Fixpoint rstrip_by (p : ascii -> bool) (s : string) : string :=
  match s with
  | EmptyString => EmptyString
  | String c r =>
      match rstrip_by p r with
      | EmptyString => if p c then EmptyString else String c EmptyString
      | r' => String c r'
      end
  end.

(** [s.strip()] *)
Definition strip (s : string) : string :=
  rstrip_by is_space (lstrip_by is_space s).

(** [s.rstrip(';')] *)
Definition rstrip_char (ch : ascii) (s : string) : string :=
  rstrip_by (Ascii.eqb ch) s.

(** [s.startswith(p)] *)
Definition startswith (p s : string) : bool := prefix p s.

Fixpoint rev (s : string) : string :=
  match s with
  | EmptyString => EmptyString
  | String c r => snoc (rev r) c
  end.

(** [s.endswith(p)] *)
Definition endswith (p s : string) : bool := prefix (rev p) (rev s).

(** [ch in s] for a single character [ch] *)
Fixpoint mem (ch : ascii) (s : string) : bool :=
  match s with
  | EmptyString => false
  | String c r => Ascii.eqb ch c || mem ch r
  end.

(** [s[1:]] *)
Definition tail (s : string) : string :=
  match s with EmptyString => EmptyString | String _ r => r end.

(** [s[:-1]] *)
Fixpoint drop_last (s : string) : string :=
  match s with
  | EmptyString => EmptyString
  | String c EmptyString => EmptyString
  | String c r => String c (drop_last r)
  end.

(** [s[:n]] for [n >= 0] *)
Fixpoint take (n : nat) (s : string) : string :=
  match n, s with
  | S n', String c r => String c (take n' r)
  | _, _ => EmptyString
  end.

Fixpoint drop (n : nat) (s : string) : string :=
  match n, s with
  | S n', String _ r => drop n' r
  | _, _ => s
  end.

(** [s.split(sep)] for a single character [sep]: never the empty list. *)
Fixpoint split_on (sep : ascii) (cur : string) (s : string) : list string :=
  match s with
  | EmptyString => [cur]
  | String c r =>
      if Ascii.eqb c sep then cur :: split_on sep EmptyString r
      else split_on sep (snoc cur c) r
  end.

Definition split (sep : ascii) (s : string) : list string :=
  split_on sep EmptyString s.

(** [sep.join(parts)] *)
Fixpoint join (sep : string) (parts : list string) : string :=
  match parts with
  | [] => EmptyString
  | [p] => p
  | p :: ps => p ++ sep ++ join sep ps
  end.

(** [p in s] for a non-empty pattern [p] *)
Fixpoint contains (p s : string) : bool :=
  prefix p s ||
  match s with
  | EmptyString => false
  | String _ r => contains p r
  end.

(** [s.replace(p, v)] for a non-empty pattern [p]: leftmost,
    non-overlapping occurrences.  [skip] counts the characters of an
    occurrence that was just replaced and are still to be passed over. *)
Fixpoint replace_from (p v : string) (skip : nat) (s : string) : string :=
  match s with
  | EmptyString => EmptyString
  | String c r =>
      match skip with
      | S k => replace_from p v k r
      | O =>
          if prefix p s
          then v ++ replace_from p v (Nat.pred (String.length p)) r
          else String c (replace_from p v O r)
      end
  end.

Definition replace (p v s : string) : string := replace_from p v O s.

Definition lower_char (c : ascii) : ascii :=
  let n := nat_of_ascii c in
  if ((65 <=? n) && (n <=? 90))%nat then ascii_of_nat (n + 32) else c.

Fixpoint lower (s : string) : string :=
  match s with
  | EmptyString => EmptyString
  | String c r => String (lower_char c) (lower r)
  end.

Definition newline : ascii := ascii_of_nat 10.

End Text.

(* ===================================================================== *)
(** * The builtins [int(str)] and [float(str)] *)
(* ===================================================================== *)

Module PyNum.
Import Text.

(** A Python [float] produced from a literal.  [FFinite neg m e] stands
    for the binary64 number nearest to [(-1)^neg * m * 10^e]; the
    rounding to binary64 is not part of the model. *)
Inductive pyfloat : Type :=
| FFinite (neg : bool) (mant : N) (exp10 : Z)
| FInf (neg : bool)
| FNan.

(** [digit (["_"] digit)*], longest match: the digits read (most
    significant first) and the rest of the text. *)
Fixpoint digits_tail (s : string) : list N * string :=
  match s with
  | String c r =>
      if is_digit c then
        let '(ds, rest) := digits_tail r in (digit_val c :: ds, rest)
      else if Ascii.eqb c "_" then
        match r with
        | String c' _ =>
            if is_digit c' then digits_tail r else ([], s)
        | EmptyString => ([], s)
        end
      else ([], s)
  | EmptyString => ([], s)
  end.

Definition digitpart (s : string) : option (list N * string) :=
  match s with
  | String c _ => if is_digit c then Some (digits_tail s) else None
  | EmptyString => None
  end.

Definition of_digits (ds : list N) : N :=
  fold_left (fun acc d => (10 * acc + d)%N) ds 0%N.

(** optional sign: [true] for ["-"] *)
Definition sign (s : string) : bool * string :=
  match s with
  | String c r =>
      if Ascii.eqb c "-" then (true, r)
      else if Ascii.eqb c "+" then (false, r)
      else (false, s)
  | EmptyString => (false, s)
  end.

(** The interpreter's default limit on the number of digits of a decimal
    literal handed to [int] ([sys.int_max_str_digits]). *)
Definition int_max_str_digits : N := 4300.

(** [int(s)] in base 10; [None] is [ValueError].  The digits of the
    literal are counted without the sign and the underscores, leading
    zeros included; a literal with more than [int_max_str_digits] of
    them is refused with a [ValueError], like a malformed one. *)
Definition py_int (s : string) : option Z :=
  let '(neg, r) := sign (strip s) in
  match digitpart r with
  | Some (ds, EmptyString) =>
      if (N.of_nat (List.length ds) <=? int_max_str_digits)%N then
        let n := Z.of_N (of_digits ds) in
        Some (if neg then - n else n)
      else None
  | _ => None
  end.

(** [("e" | "E") [sign] digitpart], or nothing *)
Definition exponent (s : string) : option Z :=
  match s with
  | EmptyString => Some 0
  | String c r =>
      if Ascii.eqb (lower_char c) "e" then
        let '(neg, r') := sign r in
        match digitpart r' with
        | Some (ds, EmptyString) =>
            let n := Z.of_N (of_digits ds) in
            Some (if neg then - n else n)
        | _ => None
        end
      else None
  end.

(** [[digitpart] "." digitpart | digitpart ["."]]: integer digits,
    fraction digits and the rest. *)
Definition number (s : string) : option (list N * list N * string) :=
  match digitpart s with
  | Some (ip, String c r) =>
      if Ascii.eqb c "." then
        match digitpart r with
        | Some (fp, rest) => Some (ip, fp, rest)
        | None => Some (ip, [], r)
        end
      else Some (ip, [], String c r)
  | Some (ip, EmptyString) => Some (ip, [], EmptyString)
  | None =>
      match s with
      | String c r =>
          if Ascii.eqb c "." then
            match digitpart r with
            | Some (fp, rest) => Some ([], fp, rest)
            | None => None
            end
          else None
      | EmptyString => None
      end
  end.

(** [float(s)]; [None] is [ValueError]. *)
Definition py_float (s : string) : option pyfloat :=
  let '(neg, r) := sign (strip s) in
  let lr := lower r in
  if (lr =? "inf")%string || (lr =? "infinity")%string then Some (FInf neg)
  else if (lr =? "nan")%string then Some FNan
  else
    match number r with
    | Some (ip, fp, rest) =>
        match exponent rest with
        | Some e =>
            Some (FFinite neg (of_digits (ip ++ fp))
                          (e - Z.of_nat (List.length fp)))
        | None => None
        end
    | None => None
    end.

End PyNum.


(* ===================================================================== *)
(** * The value parser of [src/transformer.py] *)
(* ===================================================================== *)

Module Parser.
Import Text PyNum.

(** What the parser builds: [None], [int], [float], [str], [list] and
    [dict] (keys in insertion order). *)
#[local] Set Warnings "-register-all".
Inductive value : Type :=
| VNull
| VInt (n : Z)
| VFloat (f : pyfloat)
| VStr (s : string)
| VList (l : list value)
| VMap (m : list (string * value)).

Definition dict : Type := list (string * value).

(** [result[k] = v]: an existing key keeps its place, a new key goes
    last. *)
Fixpoint dict_set (k : string) (v : value) (m : dict) : dict :=
  match m with
  | [] => [(k, v)]
  | (k', v') :: r =>
      if (k' =? k)%string then (k, v) :: r else (k', v') :: dict_set k v r
  end.

Fixpoint dict_get (k : string) (m : dict) : option value :=
  match m with
  | [] => None
  | (k', v') :: r => if (k' =? k)%string then Some v' else dict_get k r
  end.

(** [parse_value]: scalar coercion. *)
Definition parse_value (val : string) : value :=
  let val := strip val in
  if (val =? "null")%string || (val =? "(not set)")%string then VNull
  else if mem "." val then
    match py_float val with
    | Some f => VFloat f
    | None => VStr val
    end
  else
    match py_int val with
    | Some n => VInt n
    | None => VStr val
    end.

(** The [while] loop of [parse_object] over the remaining characters;
    [nested] is the call [parse_nested], [None] an exception raised by
    it. *)
Fixpoint object_loop (nested : string -> option value) (s : string)
    (result : dict) (depth : Z) (current_key current_val : string)
    (in_key : bool) : option dict :=
  match s with
  | EmptyString =>
      if nonempty current_key then
        match nested (strip current_val) with
        | Some v => Some (dict_set (strip current_key) v result)
        | None => None
        end
      else Some result
  | String char rest =>
      if mem char "[{" then
        object_loop nested rest result (depth + 1) current_key
          (if negb in_key then snoc current_val char else current_val)
          in_key
      else if mem char "]}" then
        object_loop nested rest result (depth - 1) current_key
          (if negb in_key then snoc current_val char else current_val)
          in_key
      else if Ascii.eqb char "=" && (depth =? 0) && in_key then
        object_loop nested rest result depth current_key current_val false
      else if Ascii.eqb char "," && (depth =? 0) then
        if nonempty current_key then
          match nested (strip current_val) with
          | Some v =>
              object_loop nested rest
                (dict_set (strip current_key) v result) depth "" "" true
          | None => None
          end
        else object_loop nested rest result depth "" "" true
      else if in_key then
        object_loop nested rest result depth (snoc current_key char)
          current_val in_key
      else
        object_loop nested rest result depth current_key
          (snoc current_val char) in_key
  end.

(** The [while] loop of [parse_array]; [object] is the call
    [parse_object]. *)
Fixpoint array_loop (object : string -> option dict) (s : string)
    (result : list value) (depth : Z) (current : string)
    (in_object : bool) : option (list value) :=
  match s with
  | EmptyString => Some result
  | String char rest =>
      if Ascii.eqb char "[" && negb in_object then
        array_loop object rest result (depth + 1) current in_object
      else if Ascii.eqb char "]" && negb in_object then
        array_loop object rest result (depth - 1) current in_object
      else if Ascii.eqb char "{" then
        array_loop object rest result (depth + 1)
          (if in_object then snoc current char else current) true
      else if Ascii.eqb char "}" then
        if (depth - 1 =? 1) then
          if nonempty current then
            match object current with
            | Some d =>
                array_loop object rest (result ++ [VMap d]) (depth - 1)
                  "" false
            | None => None
            end
          else array_loop object rest result (depth - 1) current false
        else
          array_loop object rest result (depth - 1) (snoc current char)
            in_object
      else if in_object then
        array_loop object rest result depth (snoc current char) in_object
      else
        array_loop object rest result depth current in_object
  end.

(** The three mutually recursive closures.  [frames] is the number of
    Python frames still available to the interpreter: every call of a
    Python function takes one, and a call made with none left raises
    [RecursionError] ([None]). *)
Fixpoint parse_nested (frames : nat) (s : string) : option value :=
  match frames with
  | O => None
  | S k =>
      let s := strip s in
      if startswith "[" s then option_map VList (parse_array k s)
      else if startswith "{" s then
        option_map VMap
          (parse_object k (if endswith "}" s then drop_last (tail s)
                           else tail s))
      else
        match k with
        | O => None
        | S _ => Some (parse_value s)
        end
  end
with parse_array (frames : nat) (s : string) : option (list value) :=
  match frames with
  | O => None
  | S k => array_loop (parse_object k) s [] 0 "" false
  end
with parse_object (frames : nat) (s : string) : option dict :=
  match frames with
  | O => None
  | S k => object_loop (parse_nested k) s [] 0 "" "" true
  end.

(** [BronzeTransformer._parse_items_firebase_format] *)
Definition parse_items_firebase_format (frames : nat) (text : string)
  : option value :=
  match frames with
  | O => None
  | S k => parse_nested k text
  end.

End Parser.

(* ===================================================================== *)
(** * Effects: exceptions, the world outside the process, logging *)
(* ===================================================================== *)

Module Eff.
Import Text Parser.

(** A raised exception: its class name and its text. *)
Record exn : Type := Exn { exn_class : string; exn_msg : string }.

Definition is_class (cls : string) (e : exn) : bool :=
  (exn_class e =? cls)%string.

Inductive result (A : Type) : Type :=
| Ok (a : A)
| Raise (e : exn).
Arguments Ok {A} a.
Arguments Raise {A} e.

(** ** Messages *)

(** The [items] entry of an event body: text still to be decoded, or
    structured data (native JSON, or what the parser returned). *)
Inductive items_field : Type :=
| ItemsText (s : string)
| ItemsData (v : value).

(** A decoded JSON object used as message body.  [items] and
    [errors_parsing_items] are [None] while the key is absent. *)
Record event_body : Type := {
  items : option items_field;
  errors_parsing_items : option bool;
  fields : list (string * value)
}.

(** [message["body"]]: a [dict], or anything else (the raw text of a body
    that is not JSON, or decoded JSON that is not an object). *)
Inductive body : Type :=
| BodyDict (b : event_body)
| BodyOther (text : string).

(** An entry of [response["Messages"]]. *)
Record sqs_message : Type := {
  MessageId : string;
  ReceiptHandle : string;
  Body : string;
  Attributes : option (list (string * string));
  MessageAttributes : option (list (string * string))
}.

(** A message as [receive_messages] returns it. *)
Record message : Type := {
  message_id : string;
  receipt_handle : string;
  msg_body : body;
  attributes : option (list (string * string));
  message_attributes : option (list (string * string));
  parse_error : option string
}.

Definition set_body (m : message) (b : body) : message :=
  {| message_id := message_id m; receipt_handle := receipt_handle m;
     msg_body := b; attributes := attributes m;
     message_attributes := message_attributes m;
     parse_error := parse_error m |}.

(** ** Calls that leave the process, in the order they are made *)
Inductive call : Type :=
| SqsReceive (max_number visibility_timeout wait_time : Z)
| SqsDelete (handle : string)
| FsNewPath (m : message)
| FsWriteJson (path : string) (m : message)
| FsRglobJson (dir : string)
| FsReadText (path : string)
| FsMkdir (path : string)
| DbConnect
| DbExecute (sql : string).

(** ** Log records of level WARNING and ERROR, one constructor per
    logging statement of the sources (DEBUG and INFO records are not
    modelled). *)
Inductive log_record : Type :=
| ErrReceiving (e : exn)
| WarnBodyNotJson (id : string) (e : exn)
| ErrDelete (e : exn)
| ErrParsingItems
| ErrSavingRaw (e : exn)
| ErrSavingMessage (e : exn)
| ErrStatement (index : Z) (e : exn)
| ErrStatementText (excerpt : string)
| WarnPlaceholderNotFound (placeholder model : string)
| WarnUnreplaced (model : string) (remaining : list string)
| WarnPartitionedExport (e : exn)
| WarnNoBronzeFiles
| ErrJsonProbe (e : exn)
| ErrModel (model : string) (e : exn)
| ErrBatch (e : exn)
| ErrPipeline (e : exn).

(** ** The external collaborators

    [Queue] is the state of the SQS queue.  [Store] is everything the
    process reaches on its host: the data directory (raw JSON files, SQL
    model files, snapshots), the DuckDB database and its connection, and
    the clock read when files are named.  The operations are those the
    sources call; each returns the next state. *)
Class Env : Type := {
  Queue : Type;
  Store : Type;
  Cursor : Type;
  (** [sqs_client.receive_message(MaxNumberOfMessages, VisibilityTimeout,
      WaitTimeSeconds)]: the [Messages] of the response *)
  sqs_receive_message :
    Z -> Z -> Z -> Queue -> Queue * result (list sqs_message);
  (** [sqs_client.delete_message(ReceiptHandle)] *)
  sqs_delete_message : string -> Queue -> Queue * option exn;
  (** [json.loads] *)
  json_loads : string -> result body;
  (** frames the interpreter has left when [save_raw_message] calls the
      parser *)
  frames_left : nat;
  (** transformer.py lines 180-186: message id, partition directory
      (created on demand), time-stamped file name *)
  fs_new_path : message -> Store -> Store * result string;
  (** [open(path, "w")] and [json.dump] *)
  fs_write_json : string -> message -> Store -> Store * option exn;
  (** [list(dir.rglob("*.json"))] *)
  fs_rglob_json : string -> Store -> list string;
  (** the text of a file, [None] when it does not exist *)
  fs_read_text : string -> Store -> option string;
  (** [dir.mkdir(parents=True, exist_ok=True)] *)
  fs_mkdir : string -> Store -> Store * option exn;
  (** [datetime.utcnow().strftime("%Y%m%d_%H%M%S_%f")] *)
  utcnow_stamp : Store -> string;
  (** [DuckDBLoader.connect]: opens the connection on first use *)
  db_connect : Store -> Store * option exn;
  (** [conn.execute(sql)] *)
  conn_execute : string -> Store -> Store * result Cursor;
  (** [cursor.fetchone()[0]] as an integer, [None] when that raises *)
  fetchone_0 : Cursor -> option Z;
  (** config.py, read from the process environment *)
  SAVE_PARQUET : bool;
  DATA_PATH : string
}.

(** config.py, constants *)
Definition MAX_MESSAGES_PER_BATCH : Z := 20.
Definition VISIBILITY_TIMEOUT : Z := 30.
Definition WAIT_TIME_SECONDS : Z := 20.

Section Monad.
Context {E : Env}.

Record world : Type := {
  w_queue : Queue;
  w_store : Store;
  w_log : list log_record;
  w_calls : list call
}.

(** A computation: may raise, and changes the world either way. *)
Definition M (A : Type) : Type := world -> result A * world.

Definition ret {A} (a : A) : M A := fun w => (Ok a, w).

Definition raise {A} (e : exn) : M A := fun w => (Raise e, w).

Definition bind {A B} (c : M A) (k : A -> M B) : M B :=
  fun w =>
    match c w with
    | (Ok a, w') => k a w'
    | (Raise e, w') => (Raise e, w')
    end.

(** [try: c  except Exception as e: h e] *)
Definition try_except {A} (c : M A) (h : exn -> M A) : M A :=
  fun w =>
    match c w with
    | (Ok a, w') => (Ok a, w')
    | (Raise e, w') => h e w'
    end.

(** World updates. *)
Definition put_queue (q : Queue) (w : world) : world :=
  {| w_queue := q; w_store := w_store w; w_log := w_log w;
     w_calls := w_calls w |}.

Definition put_store (s : Store) (w : world) : world :=
  {| w_queue := w_queue w; w_store := s; w_log := w_log w;
     w_calls := w_calls w |}.

Definition add_log (r : log_record) (w : world) : world :=
  {| w_queue := w_queue w; w_store := w_store w; w_log := w_log w ++ [r];
     w_calls := w_calls w |}.

Definition add_call (c : call) (w : world) : world :=
  {| w_queue := w_queue w; w_store := w_store w; w_log := w_log w;
     w_calls := w_calls w ++ [c] |}.

Definition log (r : log_record) : M unit :=
  fun w => (Ok tt, add_log r w).

(** A call on the queue, recorded. *)
Definition on_queue {A} (c : call) (f : Queue -> Queue * A) : M A :=
  fun w =>
    let '(q, a) := f (w_queue w) in (Ok a, add_call c (put_queue q w)).

(** A call on the store, recorded. *)
Definition on_store {A} (c : call) (f : Store -> Store * A) : M A :=
  fun w =>
    let '(s, a) := f (w_store w) in (Ok a, add_call c (put_store s w)).

Definition of_result {A} (r : result A) : M A :=
  match r with Ok a => ret a | Raise e => raise e end.

Definition of_status (r : option exn) : M unit :=
  match r with None => ret tt | Some e => raise e end.

End Monad.

Declare Scope eff_scope.
Delimit Scope eff_scope with eff.
Notation "x <- c ;; k" := (bind c (fun x => k))
  (at level 61, c at next level, right associativity) : eff_scope.
Notation "' pat <- c ;; k" :=
  (bind c (fun x => match x with pat => k end))
  (at level 61, pat pattern, c at next level, right associativity)
  : eff_scope.
Notation "c ;;; k" := (bind c (fun _ => k))
  (at level 61, right associativity) : eff_scope.

End Eff.

(* ===================================================================== *)
(** * [src/consumer.py]: class [SQSConsumer] *)
(* ===================================================================== *)

Module Consumer.
Import Text Parser Eff.
Local Open Scope eff_scope.

Section Consumer.
Context {E : Env}.

(** [x or default] for an optional integer argument *)
Definition or_default (x : option Z) (default : Z) : Z :=
  match x with
  | Some n => if n =? 0 then default else n
  | None => default
  end.

(** The body of the [for msg in messages] loop. *)
Definition parse_message (msg : sqs_message) : M message :=
  match json_loads (Body msg) with
  | Ok b =>
      ret {| message_id := MessageId msg;
             receipt_handle := ReceiptHandle msg;
             msg_body := b;
             attributes := Some (match Attributes msg with
                                 | Some a => a | None => [] end);
             message_attributes :=
               Some (match MessageAttributes msg with
                     | Some a => a | None => [] end);
             parse_error := None |}
  | Raise e =>
      if is_class "JSONDecodeError" e then
        log (WarnBodyNotJson (MessageId msg) e) ;;;
        ret {| message_id := MessageId msg;
               receipt_handle := ReceiptHandle msg;
               msg_body := BodyOther (Body msg);
               attributes := None;
               message_attributes := None;
               parse_error := Some (exn_msg e) |}
      else raise e
  end.

Fixpoint parse_messages (messages : list sqs_message)
    (parsed_messages : list message) : M (list message) :=
  match messages with
  | [] => ret parsed_messages
  | msg :: rest =>
      parsed_msg <- parse_message msg ;;
      parse_messages rest (parsed_messages ++ [parsed_msg])
  end.

(** [SQSConsumer.receive_messages] *)
Definition receive_messages
    (max_messages visibility_timeout wait_time_seconds : option Z)
  : M (list message) :=
  let max_messages := or_default max_messages MAX_MESSAGES_PER_BATCH in
  let visibility_timeout :=
    or_default visibility_timeout VISIBILITY_TIMEOUT in
  let wait_time_seconds :=
    or_default wait_time_seconds WAIT_TIME_SECONDS in
  try_except
    (response <-
       on_queue (SqsReceive (Z.min max_messages 10) visibility_timeout
                            wait_time_seconds)
         (sqs_receive_message (Z.min max_messages 10) visibility_timeout
                              wait_time_seconds) ;;
     messages <- of_result response ;;
     parse_messages messages [])
    (fun e =>
       if is_class "ClientError" e
       then log (ErrReceiving e) ;;; raise e
       else raise e).

(** [SQSConsumer.delete_message] *)
Definition delete_message (handle : string) : M bool :=
  r <- on_queue (SqsDelete handle) (sqs_delete_message handle) ;;
  match r with
  | None => ret true
  | Some e =>
      if is_class "ClientError" e
      then log (ErrDelete e) ;;; ret false
      else raise e
  end.

End Consumer.
End Consumer.

(* ===================================================================== *)
(** * [src/transformer.py]: class [BronzeTransformer] *)
(* ===================================================================== *)

Module Bronze.
Import Text Parser Eff.
Local Open Scope eff_scope.

Section Bronze.
Context {E : Env}.

(** Lines 188-196 of [save_raw_message]: the items read from the
    body, decoded when they are text; the flag is set when the parser
    raised. *)
Definition normalize_items (it : items_field) : M (items_field * bool) :=
  match it with
  | ItemsText s =>
      match parse_items_firebase_format frames_left s with
      | Some v => ret (ItemsData v, false)
      | None => log ErrParsingItems ;;; ret (it, true)
      end
  | ItemsData _ => ret (it, false)
  end.

(** [BronzeTransformer.save_raw_message]: the path written ([None]
    when writing failed) and the message as the call leaves it. *)
Definition save_raw_message (msg : message)
  : M (option string * message) :=
  r <- on_store (FsNewPath msg) (fs_new_path msg) ;;
  file_path <- of_result r ;;
  match msg_body msg with
  | BodyOther _ => raise (Exn "TypeError" "body")
  | BodyDict b =>
      match items b with
      | None => raise (Exn "KeyError" "items")
      | Some it =>
          '(it', flag) <- normalize_items it ;;
          let msg' :=
            set_body msg
              (BodyDict {| items := Some it';
                           errors_parsing_items := Some flag;
                           fields := fields b |}) in
          st <- on_store (FsWriteJson file_path msg')
                  (fs_write_json file_path msg') ;;
          match st with
          | None => ret (Some file_path, msg')
          | Some e => log (ErrSavingRaw e) ;;; ret (None, msg')
          end
      end
  end.

(** The body of the [for msg in messages] loop of [save_batch]: the
    paths saved so far, and the message as the pass leaves it. *)
Definition save_one (saved_paths : list string) (msg : message)
  : M (list string * message) :=
  try_except
    ('(path, msg') <- save_raw_message msg ;;
     match path with
     | Some p =>
         ret (if nonempty p then (saved_paths ++ [p])%list
              else saved_paths, msg')
     | None => ret (saved_paths, msg')
     end)
    (fun e => log (ErrSavingMessage e) ;;; ret (saved_paths, msg)).

(** [BronzeTransformer.save_batch]: the saved paths, and the messages
    as the loop leaves them. *)
Fixpoint save_batch_loop (messages : list message)
    (saved_paths : list string) (seen : list message)
  : M (list string * list message) :=
  match messages with
  | [] => ret (saved_paths, seen)
  | msg :: rest =>
      '(saved_paths', msg') <- save_one saved_paths msg ;;
      save_batch_loop rest saved_paths' (seen ++ [msg'])
  end.

Definition save_batch (messages : list message)
  : M (list string * list message) :=
  save_batch_loop messages [] [].

End Bronze.
End Bronze.

(* ===================================================================== *)
(** * [src/loader.py]: class [DuckDBLoader] and the layer transformations *)
(* ===================================================================== *)

Module Loader.
Import Text Parser Eff.
Local Open Scope eff_scope.

(** ** Splitting a script into statements (pure part of
    [execute_statements]) *)

Definition nl : string := String newline EmptyString.

(** Lines 89-95: lines whose first non-blank characters are [--] are
    dropped. *)
Definition remove_comment_lines (sql : string) : string :=
  join nl
    (filter (fun line => negb (startswith "--" (strip line)))
            (split newline sql)).

(** Lines 98-115: the loop over the lines of the cleaned text, then the
    remaining fragment. *)
Fixpoint split_loop (lines current_stmt statements : list string)
  : list string :=
  match lines with
  | [] =>
      match current_stmt with
      | [] => statements
      | _ =>
          let full_stmt := strip (join nl current_stmt) in
          if nonempty full_stmt then (statements ++ [full_stmt])%list
          else statements
      end
  | line :: rest =>
      let current_stmt := (current_stmt ++ [line])%list in
      if endswith ";" (strip line) then
        let full_stmt := strip (join nl current_stmt) in
        split_loop rest []
          (if nonempty full_stmt && negb (full_stmt =? ";")%string
           then (statements ++ [strip (rstrip_char ";" full_stmt)])%list
           else statements)
      else split_loop rest current_stmt statements
  end.

Definition split_statements (sql : string) : list string :=
  split_loop (split newline (remove_comment_lines sql)) [] [].

(** ** Template placeholders (pure part of [run_model]) *)

(** [f"{{{{ {key} }}}}"] *)
Definition placeholder_of (key : string) : string :=
  "{{ " ++ key ++ " }}".

(** Characters before the first ["}}"] that no newline precedes. *)
Fixpoint find_close (s : string) : option nat :=
  match s with
  | EmptyString => None
  | String c r =>
      if prefix "}}" s then Some O
      else if Ascii.eqb c newline then None
      else option_map S (find_close r)
  end.

(** [re.findall(r'\{\{.*?\}\}', sql)] *)
Fixpoint findall_from (skip : nat) (s : string) : list string :=
  match s with
  | EmptyString => []
  | String c r =>
      match skip with
      | S k => findall_from k r
      | O =>
          if prefix "{{" s then
            match find_close (drop 2 s) with
            | Some n => take (n + 4) s :: findall_from (n + 3) r
            | None => findall_from O r
            end
          else findall_from O r
      end
  end.

Definition findall_placeholders (sql : string) : list string :=
  findall_from O sql.

(** ** SQL texts built by the loader *)

Fixpoint spaces (n : nat) : string :=
  match n with O => "" | S k => String " " (spaces k) end.

Definition copy_partitioned_sql (table_name output_dir partition_col : string)
  : string :=
  nl ++ spaces 20 ++ "COPY (SELECT * FROM " ++ table_name ++ ") " ++ nl
     ++ spaces 20 ++ "TO '" ++ output_dir ++ "' " ++ nl
     ++ spaces 20 ++ "(FORMAT PARQUET, PARTITION_BY (" ++ partition_col
     ++ "))" ++ nl ++ spaces 16.

Definition copy_single_sql (table_name file_path : string) : string :=
  "COPY (SELECT * FROM " ++ table_name ++ ") TO '" ++ file_path
    ++ "' (FORMAT PARQUET)".

Definition count_sql (table_name : string) : string :=
  "SELECT COUNT(*) FROM " ++ table_name.

Definition probe_sql (bronze_path_str : string) : string :=
  nl ++ spaces 12 ++ "SELECT COUNT(*) as cnt " ++ nl
     ++ spaces 12 ++ "FROM read_json_auto('" ++ bronze_path_str
     ++ "/**/*.json', maximum_object_size=10485760, ignore_errors=true)"
     ++ nl ++ spaces 8.

Record silver_stats : Type := {
  events_inserted : Z;
  items_inserted : Z;
  total_events : Z;
  total_items : Z
}.

Record gold_stats : Type := {
  fact_events_inserted : Z;
  fact_items_inserted : Z;
  dim_items_inserted : Z;
  dim_users_inserted : Z
}.

Section Loader.
Context {E : Env}.

(** [DuckDBLoader.connect] *)
Definition connect : M unit :=
  r <- on_store DbConnect db_connect ;; of_status r.

(** [conn.execute(sql)] *)
Definition execute_sql (sql : string) : M Cursor :=
  r <- on_store (DbExecute sql) (conn_execute sql) ;; of_result r.

(** Lines 117-125: the loop over [enumerate(statements)]; [i] is the
    index of the first statement of the list. *)
Fixpoint run_statements (statements : list string) (i : Z) : M unit :=
  match statements with
  | [] => ret tt
  | statement :: rest =>
      (if nonempty statement then
         try_except
           (execute_sql statement ;;; ret tt)
           (fun e =>
              log (ErrStatement (i + 1) e) ;;;
              log (ErrStatementText (take 500 statement)) ;;;
              raise e)
       else ret tt) ;;;
      run_statements rest (i + 1)
  end.

(** [DuckDBLoader.execute_statements] *)
Definition execute_statements (sql : string) : M unit :=
  connect ;;;
  run_statements (split_statements sql) 0.

(** Lines 150-156 of [run_model]: the loop over [kwargs.items()]. *)
Fixpoint render (model_name : string) (kwargs : list (string * string))
    (sql : string) : M string :=
  match kwargs with
  | [] => ret sql
  | (key, value) :: rest =>
      let placeholder := placeholder_of key in
      if contains placeholder sql
      then render model_name rest (replace placeholder value sql)
      else
        log (WarnPlaceholderNotFound placeholder model_name) ;;;
        render model_name rest sql
  end.

(** [DuckDBLoader.run_model] *)
Definition run_model (model_name : string)
    (kwargs : list (string * string)) : M unit :=
  let sql_path := "sql/models/" ++ model_name ++ ".sql" in
  file <- on_store (FsReadText sql_path)
            (fun st => (st, fs_read_text sql_path st)) ;;
  match file with
  | None => raise (Exn "FileNotFoundError" sql_path)
  | Some sql =>
      sql <- render model_name kwargs sql ;;
      let remaining := findall_placeholders sql in
      (match remaining with
       | [] => ret tt
       | _ => log (WarnUnreplaced model_name remaining)
       end) ;;;
      execute_statements sql
  end.

(** [DuckDBLoader.export_to_parquet] *)
Definition export_to_parquet (table_name output_dir : string)
    (partition_col : option string) : M unit :=
  connect ;;;
  (r <- on_store (FsMkdir output_dir) (fs_mkdir output_dir) ;;
   of_status r) ;;;
  timestamp <- (fun w => (Ok (utcnow_stamp (w_store w)), w)) ;;
  let file_path := output_dir ++ "/data_" ++ timestamp ++ ".parquet" in
  match partition_col with
  | Some col =>
      if nonempty col then
        try_except
          (execute_sql (copy_partitioned_sql table_name output_dir col) ;;;
           ret tt)
          (fun e =>
             log (WarnPartitionedExport e) ;;;
             execute_sql (copy_single_sql table_name file_path) ;;;
             ret tt)
      else
        execute_sql (copy_single_sql table_name file_path) ;;; ret tt
  | None =>
      execute_sql (copy_single_sql table_name file_path) ;;; ret tt
  end.

(** [DuckDBLoader.table_count] *)
Definition table_count (table_name : string) : M Z :=
  try_except
    (connect ;;;
     cur <- execute_sql (count_sql table_name) ;;
     match fetchone_0 cur with
     | Some n => ret n
     | None => raise (Exn "TypeError" "fetchone")
     end)
    (fun _ => ret 0).

Definition bronze_path : string := DATA_PATH ++ "/bronze".
Definition silver_path : string := DATA_PATH ++ "/silver".
Definition gold_path : string := DATA_PATH ++ "/gold".

(** Lines 275-284 of [transform_to_silver]: the test read of the raw
    files; its result is only logged. *)
Definition probe_bronze_json : M unit :=
  try_except
    (connect ;;; execute_sql (probe_sql bronze_path) ;;; ret tt)
    (fun e => log (ErrJsonProbe e)).

(** A model run wrapped in [try ... except: log; raise]. *)
Definition run_model_logged (model_name : string)
    (kwargs : list (string * string)) : M unit :=
  try_except (run_model model_name kwargs)
             (fun e => log (ErrModel model_name e) ;;; raise e).

(** [transform_to_silver] *)
Definition transform_to_silver : M silver_stats :=
  bronze_files <- on_store (FsRglobJson bronze_path)
                    (fun st => (st, fs_rglob_json bronze_path st)) ;;
  match bronze_files with
  | [] =>
      log WarnNoBronzeFiles ;;;
      ret {| events_inserted := 0; items_inserted := 0;
             total_events := 0; total_items := 0 |}
  | _ =>
      probe_bronze_json ;;;
      events_before <- table_count "silver_events" ;;
      items_before <- table_count "silver_items" ;;
      run_model_logged "silver_events" [("bronze_path", bronze_path)] ;;;
      run_model_logged "silver_items" [("bronze_path", bronze_path)] ;;;
      events_after <- table_count "silver_events" ;;
      items_after <- table_count "silver_items" ;;
      ret {| events_inserted := events_after - events_before;
             items_inserted := items_after - items_before;
             total_events := events_after;
             total_items := items_after |}
  end.

(** [transform_to_gold] *)
Definition transform_to_gold : M gold_stats :=
  facts_before <- table_count "fact_events" ;;
  items_before <- table_count "fact_event_items" ;;
  dim_items_before <- table_count "dim_items" ;;
  dim_users_before <- table_count "dim_users" ;;
  run_model "gold_fact_events" [] ;;;
  run_model "gold_fact_items" [] ;;;
  run_model "gold_dim_items" [] ;;;
  run_model "gold_dim_users" [] ;;;
  facts_after <- table_count "fact_events" ;;
  items_after <- table_count "fact_event_items" ;;
  dim_items_after <- table_count "dim_items" ;;
  dim_users_after <- table_count "dim_users" ;;
  ret {| fact_events_inserted := facts_after - facts_before;
         fact_items_inserted := items_after - items_before;
         dim_items_inserted := dim_items_after - dim_items_before;
         dim_users_inserted := dim_users_after - dim_users_before |}.

(** [export_silver_to_parquet] *)
Definition export_silver_to_parquet : M unit :=
  export_to_parquet "silver_events" (silver_path ++ "/silver_events")
                    (Some "event_timestamp") ;;;
  export_to_parquet "silver_items" (silver_path ++ "/silver_items") None.

(** [export_gold_to_parquet] *)
Definition export_gold_to_parquet : M unit :=
  export_to_parquet "fact_events" (gold_path ++ "/fact_events")
                    (Some "event_date") ;;;
  export_to_parquet "fact_event_items" (gold_path ++ "/fact_event_items")
                    None ;;;
  export_to_parquet "dim_items" (gold_path ++ "/dim_items") None ;;;
  export_to_parquet "dim_users" (gold_path ++ "/dim_users") None.

End Loader.
End Loader.

(* ===================================================================== *)
(** * [deliverable2_pipeline.py]: the orchestrator *)
(* ===================================================================== *)

Module Pipeline.
Import Text Parser Eff Consumer Bronze Loader.
Local Open Scope eff_scope.

(** The [stats] dictionary of [process_batch]. *)
Record stats : Type := {
  messages_received : Z;
  bronze_saved : Z;
  silver_events : Z;
  silver_items : Z;
  gold_events : Z;
  gold_items : Z;
  errors : Z
}.

Definition zero_stats : stats :=
  {| messages_received := 0; bronze_saved := 0; silver_events := 0;
     silver_items := 0; gold_events := 0; gold_items := 0; errors := 0 |}.

(** The [totals] dictionary of [run_pipeline]. *)
Record totals : Type := {
  t_messages : Z;
  t_bronze : Z;
  t_silver : Z;
  t_gold : Z;
  t_batches : Z
}.

Definition zero_totals : totals :=
  {| t_messages := 0; t_bronze := 0; t_silver := 0; t_gold := 0;
     t_batches := 0 |}.

Definition len {A} (l : list A) : Z := Z.of_nat (List.length l).

(** [stats] once [messages_received] is set (line 85). *)
Definition stats_received (n : Z) : stats :=
  {| messages_received := n; bronze_saved := 0; silver_events := 0;
     silver_items := 0; gold_events := 0; gold_items := 0; errors := 0 |}.

Section Pipeline.
Context {E : Env}.

(** Lines 121-123: [for msg in messages: consumer.delete_message(...)] *)
Fixpoint delete_all (messages : list message) : M unit :=
  match messages with
  | [] => ret tt
  | msg :: rest =>
      delete_message (receipt_handle msg) ;;; delete_all rest
  end.

(** Lines 93-123: the body of the [try] block, for a non-empty batch. *)
Definition process_layers (messages : list message) (st : stats)
    (target_layer : string) (delete_after_processing : bool) : M stats :=
  '(bronze_paths, messages) <- save_batch messages ;;
  let st :=
    {| messages_received := messages_received st;
       bronze_saved := len bronze_paths;
       silver_events := silver_events st;
       silver_items := silver_items st;
       gold_events := gold_events st;
       gold_items := gold_items st;
       errors := errors st |} in
  if (target_layer =? "bronze")%string then ret st
  else
    silver_result <- transform_to_silver ;;
    let st :=
      {| messages_received := messages_received st;
         bronze_saved := bronze_saved st;
         silver_events := events_inserted silver_result;
         silver_items := items_inserted silver_result;
         gold_events := gold_events st;
         gold_items := gold_items st;
         errors := errors st |} in
    (if SAVE_PARQUET then export_silver_to_parquet else ret tt) ;;;
    if (target_layer =? "silver")%string then ret st
    else
      gold_result <- transform_to_gold ;;
      let st :=
        {| messages_received := messages_received st;
           bronze_saved := bronze_saved st;
           silver_events := silver_events st;
           silver_items := silver_items st;
           gold_events := fact_events_inserted gold_result;
           gold_items := fact_items_inserted gold_result;
           errors := errors st |} in
      (if SAVE_PARQUET then export_gold_to_parquet else ret tt) ;;;
      (if delete_after_processing then delete_all messages
       else ret tt) ;;;
      ret st.

(** [process_batch]; the increment of [stats["errors"]] in the handler is
    lost with the dictionary when the exception is re-raised. *)
Definition process_batch (target_layer : string)
    (delete_after_processing : bool) : M stats :=
  messages <- receive_messages None None None ;;
  let st := stats_received (len messages) in
  match messages with
  | [] => ret st
  | _ =>
      try_except
        (process_layers messages st target_layer delete_after_processing)
        (fun e => log (ErrBatch e) ;;; raise e)
  end.

(** One pass through the body of [while running] in [run_pipeline];
    [time.sleep] has no effect on the world. *)
Definition pipeline_cycle (target_layer : string) (tot : totals)
  : M totals :=
  try_except
    (st <- process_batch target_layer false ;;
     ret (if 0 <? messages_received st then
            {| t_messages := t_messages tot + messages_received st;
               t_bronze := t_bronze tot + bronze_saved st;
               t_silver := t_silver tot + silver_events st;
               t_gold := t_gold tot + gold_events st;
               t_batches := t_batches tot + 1 |}
          else tot))
    (fun e => log (ErrPipeline e) ;;; ret tot).

(** [run_pipeline], stopped by the shutdown flag after [cycles] passes
    of the loop. *)
Fixpoint run_cycles (cycles : nat) (target_layer : string) (tot : totals)
  : M totals :=
  match cycles with
  | O => ret tot
  | S k =>
      tot' <- pipeline_cycle target_layer tot ;;
      run_cycles k target_layer tot'
  end.

Definition run_pipeline (cycles : nat) (target_layer : string)
  : M totals :=
  run_cycles cycles target_layer zero_totals.

End Pipeline.
End Pipeline.

(* ===================================================================== *)
(** * A small concrete environment, used to run the model *)
(* ===================================================================== *)

Module Sim.
Import Text Parser Eff.

(** What a simulated run is told: which operations fail, and the SQL
    model files that exist. *)
Record setup : Type := {
  fails_write : message -> bool;
  fails_sql : string -> bool;
  fails_delete : string -> option exn;
  decode : string -> result body;
  model_file : string -> option string;
  save_parquet : bool;
  frames : nat
}.

(** The simulated host: raw files written and statements executed, both
    in order. *)
Record store : Type := {
  raw_files : list (string * message);
  executed : list string
}.

Definition empty_store : store := {| raw_files := []; executed := [] |}.

Definition sim_receive (n vt wt : Z) (q : list sqs_message)
  : list sqs_message * result (list sqs_message) :=
  if (1 <=? n) && (n <=? 10)
  then (q, Ok (firstn (Z.to_nat n) q))
  else (q, Raise (Exn "ClientError" "MaxNumberOfMessages")).

Definition sim_delete (cfg : setup) (handle : string)
    (q : list sqs_message) : list sqs_message * option exn :=
  match fails_delete cfg handle with
  | Some e => (q, Some e)
  | None =>
      (filter (fun m => negb (ReceiptHandle m =? handle)%string) q, None)
  end.

Definition sim_write (cfg : setup) (path : string) (m : message)
    (st : store) : store * option exn :=
  if fails_write cfg m then (st, Some (Exn "OSError" path))
  else ({| raw_files := raw_files st ++ [(path, m)];
           executed := executed st |}, None).

(** A statement that does not fail is recorded; its cursor holds the
    number of statements executed before it. *)
Definition sim_execute (cfg : setup) (sql : string) (st : store)
  : store * result nat :=
  if fails_sql cfg sql then (st, Raise (Exn "Error" sql))
  else ({| raw_files := raw_files st;
           executed := executed st ++ [sql] |},
        Ok (List.length (executed st))).

Definition env (cfg : setup) : Env :=
  {| Queue := list sqs_message;
     Store := store;
     Cursor := nat;
     sqs_receive_message := sim_receive;
     sqs_delete_message := sim_delete cfg;
     json_loads := decode cfg;
     frames_left := frames cfg;
     fs_new_path := fun m st =>
       (st, Ok ("data/bronze/" ++ message_id m ++ ".json"));
     fs_write_json := sim_write cfg;
     fs_rglob_json := fun _ st => map fst (raw_files st);
     fs_read_text := fun path _ => model_file cfg path;
     fs_mkdir := fun _ st => (st, None);
     utcnow_stamp := fun _ => "t";
     db_connect := fun st => (st, None);
     conn_execute := sim_execute cfg;
     fetchone_0 := fun c => Some (Z.of_nat c);
     SAVE_PARQUET := save_parquet cfg;
     DATA_PATH := "data" |}.

Definition start (cfg : setup) (q : list sqs_message) : @world (env cfg) :=
  @Build_world (env cfg) q empty_store [] [].

(** An event body with the given items and nothing else. *)
Definition body_with (it : items_field) : body :=
  BodyDict {| items := Some it; errors_parsing_items := None;
              fields := [] |}.

(** A queue entry whose body text is [text]. *)
Definition entry (id text : string) : sqs_message :=
  {| MessageId := id; ReceiptHandle := "rh-" ++ id; Body := text;
     Attributes := None; MessageAttributes := None |}.

(** Decoding used by the runs below: the body text is taken as the
    items text of an otherwise empty event. *)
Definition decode_items (text : string) : result body :=
  Ok (body_with (ItemsText text)).

(** Every model file holds one statement naming the model. *)
Definition one_statement_models (path : string) : option string :=
  Some ("INSERT " ++ path ++ ";").

Definition plain : setup :=
  {| fails_write := fun _ => false;
     fails_sql := fun _ => false;
     fails_delete := fun _ => None;
     decode := decode_items;
     model_file := one_statement_models;
     save_parquet := true;
     frames := 100 |}.

End Sim.

(* ===================================================================== *)
(** * Inputs used in the concrete statements below *)
(* ===================================================================== *)

Module Examples.
Import Text PyNum Parser Eff.

(** The text of the parser example. *)
Definition nested_text : string := "[{a=1, b=[1,2,3], c={x=null, y=2.5}}]".

(** The float literal [2.5]. *)
Definition two_and_a_half : pyfloat := FFinite false 25 (-1).

(** The tree with the inner array kept: [[{a:1, b:[1,2,3], c:{x:None, y:2.5}}]]. *)
Definition nested_tree_with_array : value :=
  VList [VMap [("a", VInt 1);
               ("b", VList [VInt 1; VInt 2; VInt 3]);
               ("c", VMap [("x", VNull); ("y", VFloat two_and_a_half)])]].

(** The tree the parser builds: [[{a:1, b:[], c:{x:None, y:2.5}}]]. *)
Definition nested_tree : value :=
  VList [VMap [("a", VInt 1);
               ("b", VList []);
               ("c", VMap [("x", VNull); ("y", VFloat two_and_a_half)])]].

End Examples.

(* ===================================================================== *)
(** * The input shape the specification expects *)
(* ===================================================================== *)

Module Shape.
Import Text.

(** Every bracket is closed by its partner, innermost first. *)
Fixpoint balanced (s : string) (open : list ascii) : bool :=
  match s with
  | EmptyString => match open with [] => true | _ => false end
  | String c r =>
      if mem c "[{" then balanced r (c :: open)
      else if Ascii.eqb c "}" then
        match open with
        | o :: rest => Ascii.eqb o "{" && balanced r rest
        | [] => false
        end
      else if Ascii.eqb c "]" then
        match open with
        | o :: rest => Ascii.eqb o "[" && balanced r rest
        | [] => false
        end
      else balanced r open
  end.

(** Section 4.1 of the specification: the text begins with a brace or a
    bracket, and its brackets nest.  A text that is not [well_formed] is
    malformed. *)
Definition well_formed (s : string) : bool :=
  (startswith "{" s || startswith "[" s) && balanced s [].

End Shape.


(* ===================================================================== *)
(** * Reading the list of calls *)
(* ===================================================================== *)

Module Trace.
Import Eff.

Definition is_delete (c : call) : bool :=
  match c with SqsDelete _ => true | _ => false end.

Definition is_queue_call (c : call) : bool :=
  match c with SqsReceive _ _ _ | SqsDelete _ => true | _ => false end.

(** A call that is no deletion from the queue. *)
Definition keeps_messages (c : call) : Prop := is_delete c = false.

(** The deletions requested, in order. *)
Definition deletions (t : list call) : list string :=
  flat_map (fun c => match c with SqsDelete h => [h] | _ => [] end) t.

(** The statements sent to the database, in order. *)
Definition statements_sent (t : list call) : list string :=
  flat_map (fun c => match c with DbExecute s => [s] | _ => [] end) t.

(** Every call the computation makes satisfies [P]; the calls made
    before it stay. *)
Definition emits {E : Env} (P : call -> Prop) {A : Type} (c : M A) : Prop :=
  forall w r w', c w = (r, w') ->
    exists t, w_calls w' = (w_calls w ++ t)%list /\ Forall P t.

End Trace.


(* ===================================================================== *)
(** * Simulated runs with failures *)
(* ===================================================================== *)

Module Runs.
Import Text Parser Eff Trace.

(** Was this statement sent to the database? *)
Definition sent (sql : string) (t : list call) : bool :=
  existsb (String.eqb sql) (statements_sent t).

(** An interpreter with only three frames left for the parser. *)
Definition shallow : Sim.setup :=
  {| Sim.fails_write := fun _ => false;
     Sim.fails_sql := fun _ => false;
     Sim.fails_delete := fun _ => None;
     Sim.decode := Sim.decode_items;
     Sim.model_file := Sim.one_statement_models;
     Sim.save_parquet := true;
     Sim.frames := 3 |}.

(** Writing the raw file of message [id] fails. *)
Definition write_fails_for (id : string) : Sim.setup :=
  {| Sim.fails_write := fun m => (message_id m =? id)%string;
     Sim.fails_sql := fun _ => false;
     Sim.fails_delete := fun _ => None;
     Sim.decode := Sim.decode_items;
     Sim.model_file := Sim.one_statement_models;
     Sim.save_parquet := true;
     Sim.frames := 100 |}.

(** Every statement containing [fragment] fails. *)
Definition sql_fails_on (fragment : string) : Sim.setup :=
  {| Sim.fails_write := fun _ => false;
     Sim.fails_sql := fun sql => contains fragment sql;
     Sim.fails_delete := fun _ => None;
     Sim.decode := Sim.decode_items;
     Sim.model_file := Sim.one_statement_models;
     Sim.save_parquet := true;
     Sim.frames := 100 |}.

Definition message_of (id text : string) : message :=
  {| message_id := id; receipt_handle := "rh-" ++ id;
     msg_body := Sim.body_with (ItemsText text);
     attributes := None; message_attributes := None;
     parse_error := None |}.

End Runs.


(* ===================================================================== *)
(** * Reference runs, used to state what the executor leaves behind *)
(* ===================================================================== *)

Module Reference.
Import Text Eff.

(** The store after the statements have been executed one after the
    other, each in the state the previous one left, when none of them
    fails; empty statements are passed over. *)
Fixpoint commit_all {E : Env} (statements : list string) (st : Store)
  : option Store :=
  match statements with
  | [] => Some st
  | s :: rest =>
      if nonempty s then
        match conn_execute s st with
        | (st', Ok _) => commit_all rest st'
        | (_, Raise _) => None
        end
      else commit_all rest st
  end.

(** The script of the executor example: two statements and a comment line
    between them. *)
Definition two_statement_script : string :=
  "CREATE TABLE t (x INT);" ++ String newline
    ("-- fill it" ++ String newline "INSERT INTO t VALUES (1);").

End Reference.


(* ===================================================================== *)
(** * When the row-count query cannot be answered *)
(* ===================================================================== *)

Module Counting.
Import Text Eff Loader.

(** In store [st] the query behind [table_count] raises: the connection
    cannot be opened, the [SELECT COUNT] fails (the table was never
    created, say), or no integer can be fetched. *)
Definition count_raises {E : Env} (table : string) (st : Store) : Prop :=
  match db_connect st with
  | (_, Some _) => True
  | (st0, None) =>
      match conn_execute (count_sql table) st0 with
      | (_, Raise _) => True
      | (_, Ok c) => fetchone_0 c = None
      end
  end.

End Counting.


(* ===================================================================== *)
(** * A queue holding more messages than one request may return *)
(* ===================================================================== *)

Module Backlog.
Import Text Eff.

Definition twelve : list sqs_message :=
  map (fun id => Sim.entry id "[{a=1}]")
      ["1"; "2"; "3"; "4"; "5"; "6"; "7"; "8"; "9"; "10"; "11"; "12"].

End Backlog.


(* ===================================================================== *)
(** * The end of a cycle *)
(* ===================================================================== *)

Module Ending.
Import Text Eff Consumer Pipeline.

(** What [process_batch] still does, when asked to delete after
    processing, once the stages through the modeled layer have returned
    [x]: after a success it requests the deletion of each message and
    returns the statistics; after an exception nothing. *)
Definition then_delete {E : Env} (messages : list message)
    (x : result stats * world) : result stats * world :=
  match x with
  | (Ok st, w1) => bind (delete_all messages) (fun _ => ret st) w1
  | (Raise e, w1) => (Raise e, w1)
  end.

(** Every failed deletion request fails with a [ClientError]. *)
Definition deletions_fail_softly {E : Env} : Prop :=
  forall h q q' e,
    sqs_delete_message h q = (q', Some e) -> is_class "ClientError" e = true.

End Ending.


(* ===================================================================== *)
(** * Messages that could not be persisted *)
(* ===================================================================== *)

Module Persisting.
Import Text Eff.

(** The records by which raw persistence reports a message it could not
    save: the one of [save_raw_message] (the file could not be written)
    and the one of [save_batch] (an exception reached its loop). *)
Definition is_save_failure (r : log_record) : bool :=
  match r with
  | ErrSavingRaw _ | ErrSavingMessage _ => true
  | _ => false
  end.

(** How many of them a log holds. *)
Definition save_failures (l : list log_record) : nat :=
  List.length (filter is_save_failure l).

(** No file is named by the empty text. *)
Definition files_are_named {E : Env} : Prop :=
  forall m st st' p, fs_new_path m st = (st', Ok p) -> nonempty p = true.

End Persisting.


(* ===================================================================== *)
(** * Kinds of parsed values *)
(* ===================================================================== *)

Module Kinds.
Import Text Parser.

(** [isinstance(v, dict)] *)
Definition is_map (v : value) : bool :=
  match v with VMap _ => true | _ => false end.

(** [None], a number or a [str] *)
Definition is_scalar (v : value) : bool :=
  match v with
  | VNull | VInt _ | VFloat _ | VStr _ => true
  | VList _ | VMap _ => false
  end.

End Kinds.


(* ===================================================================== *)
(** * Texts in the documented format: flat objects and arrays of them *)
(* ===================================================================== *)

Module Flat.
Import Text Parser.

(** A character the scanners give no meaning to. *)
Definition plain_char (c : ascii) : bool := negb (mem c "[]{}=,").

Fixpoint plain (s : string) : bool :=
  match s with
  | EmptyString => true
  | String c r => plain_char c && plain r
  end.

(** A key (not empty) and a scalar token, both free of brackets, braces,
    equal signs and commas. *)
Definition flat_pair (kv : string * string) : bool :=
  nonempty (fst kv) && plain (fst kv) && plain (snd kv).

(** At least one pair. *)
Definition flat_object (pairs : list (string * string)) : bool :=
  match pairs with [] => false | _ => forallb flat_pair pairs end.

(** [key=token] *)
Definition pair_text (kv : string * string) : string :=
  fst kv ++ "=" ++ snd kv.

(** [k1=t1,k2=t2,...] *)
Definition object_text (pairs : list (string * string)) : string :=
  join "," (map pair_text pairs).

(** [[{k1=t1,...}, {...}, ...]] *)
Definition array_text (objects : list (list (string * string))) : string :=
  "[" ++ join ", " (map (fun pairs => "{" ++ object_text pairs ++ "}")
                        objects) ++ "]".

(** The dictionary the assignments [d[k.strip()] = parse_value(t)] build,
    made in the order of the pairs. *)
Definition assign (d : dict) (kv : string * string) : dict :=
  dict_set (strip (fst kv)) (parse_value (snd kv)) d.

Definition assign_all (pairs : list (string * string)) : dict :=
  fold_left assign pairs [].

End Flat.


Module Inside.
Import Text.

(** A text without brackets and braces. *)
Fixpoint unbracketed (s : string) : bool :=
  match s with
  | EmptyString => true
  | String c r => negb (mem c "[]{}") && unbracketed r
  end.

End Inside.


(* ===================================================================== *)
(** * What reception makes of a queue entry *)
(* ===================================================================== *)

Module Receiving.
Import Text Parser Eff.

(** [m] is the entry [msg] as [receive_messages] hands it on: same id,
    same receipt handle; the decoded body when the body text is JSON
    (with the attribute maps, empty when absent), and otherwise the body
    text itself with the decoder's message as [parse_error]. *)
Definition received_as {E : Env} (msg : sqs_message) (m : message) : Prop :=
  message_id m = MessageId msg /\
  receipt_handle m = ReceiptHandle msg /\
  match json_loads (Body msg) with
  | Ok b =>
      msg_body m = b /\ parse_error m = None /\
      attributes m = Some (match Attributes msg with
                           | Some a => a | None => [] end) /\
      message_attributes m = Some (match MessageAttributes msg with
                                   | Some a => a | None => [] end)
  | Raise e =>
      msg_body m = BodyOther (Body msg) /\ parse_error m = Some (exn_msg e) /\
      attributes m = None /\ message_attributes m = None
  end.

(** The warnings logged for the entries whose body is not JSON. *)
Definition body_warnings {E : Env} (messages : list sqs_message)
  : list log_record :=
  flat_map (fun msg => match json_loads (Body msg) with
                       | Ok _ => []
                       | Raise e => [WarnBodyNotJson (MessageId msg) e]
                       end) messages.

(** The decoder fails on these entries only by rejecting the text. *)
Definition decodable {E : Env} (messages : list sqs_message) : Prop :=
  forall msg e,
    In msg messages -> json_loads (Body msg) = Raise e ->
    is_class "JSONDecodeError" e = true.

(** A decoder that accepts the texts opening with a brace. *)
Definition braces_only (text : string) : result body :=
  if startswith "{" text then Ok (Sim.body_with (ItemsText text))
  else Raise (Exn "JSONDecodeError" "Expecting value").

Definition strict : Sim.setup :=
  {| Sim.fails_write := fun _ => false;
     Sim.fails_sql := fun _ => false;
     Sim.fails_delete := fun _ => None;
     Sim.decode := braces_only;
     Sim.model_file := Sim.one_statement_models;
     Sim.save_parquet := true;
     Sim.frames := 100 |}.

End Receiving.


(* ===================================================================== *)
(** * [SQSConsumer.delete_messages_batch] *)
(* ===================================================================== *)

Module Batching.
Import Text Eff.

(** An element of [Entries]. *)
Record entry : Type := { Id : string; EntryHandle : string }.

(** [str(i)] for an index *)
Definition str_of_index (i : nat) : string :=
  NilEmpty.string_of_uint (Nat.to_uint i).

(** [[{"Id": str(i), "ReceiptHandle": h} for i, h in enumerate(hs)]],
    counting from [i]. *)
Fixpoint entries_from (i : nat) (handles : list string) : list entry :=
  match handles with
  | [] => []
  | handle :: rest =>
      {| Id := str_of_index i; EntryHandle := handle |}
        :: entries_from (S i) rest
  end.

Section Batching.
Context {E : Env}.

(** An element of the [Successful] and [Failed] lists of a response. *)
Variable Item : Type.

(** [sqs_client.delete_message_batch(QueueUrl, Entries)]: the
    [Successful] and [Failed] entries of the response, each [None] when
    the key is absent. *)
Variable sqs_delete_message_batch :
  list entry -> Queue
  -> Queue * result (option (list Item) * option (list Item)).

(** The WARNING and ERROR records of the function. *)
Inductive batch_log : Type :=
| WarnFailedToDelete (count : Z) (failed : list Item)
| ErrBatchDelete (e : exn).

(** What a call leaves: the queue, the requests made, the records
    logged, and the dictionary returned (its [successful] and [failed]
    lists) or the exception raised. *)
Record outcome : Type := {
  out_queue : Queue;
  out_requests : list (list entry);
  out_log : list batch_log;
  out_result : result (list Item * list Item)
}.

Definition get_or_empty (l : option (list Item)) : list Item :=
  match l with Some x => x | None => [] end.

Definition delete_messages_batch (receipt_handles : list string)
    (q : Queue) : outcome :=
  match receipt_handles with
  | [] =>
      {| out_queue := q; out_requests := []; out_log := [];
         out_result := Ok ([], []) |}
  | _ =>
      let entries := entries_from 0 (firstn 10 receipt_handles) in
      match sqs_delete_message_batch entries q with
      | (q', Ok (s, f)) =>
          let successful := get_or_empty s in
          let failed := get_or_empty f in
          {| out_queue := q'; out_requests := [entries];
             out_log :=
               match failed with
               | [] => []
               | _ => [WarnFailedToDelete (Z.of_nat (List.length failed))
                                          failed]
               end;
             out_result := Ok (successful, failed) |}
      | (q', Raise e) =>
          {| out_queue := q'; out_requests := [entries];
             out_log := if is_class "ClientError" e
                        then [ErrBatchDelete e] else [];
             out_result := Raise e |}
      end
  end.

End Batching.

Arguments out_queue {E Item} o.
Arguments out_requests {E Item} o.
Arguments out_log {E Item} o.
Arguments out_result {E Item} o.
Arguments delete_messages_batch {E Item} sqs_delete_message_batch
  receipt_handles q.

(** The ids of a full request. *)
Definition ten_ids : list string :=
  ["0"; "1"; "2"; "3"; "4"; "5"; "6"; "7"; "8"; "9"].

End Batching.


(* ===================================================================== *)
(** * What raw persistence writes *)
(* ===================================================================== *)

Module Written.
Import Text Parser Eff.

(** The items and the flag of a body agree: structured items with the flag
    false, or items still in text with the flag true. *)
Definition agree (it : items_field) (flag : bool) : bool :=
  match it, flag with
  | ItemsData _, false => true
  | ItemsText _, true => true
  | _, _ => false
  end.

(** A record whose body is a dictionary with both keys set, in
    agreement. *)
Definition flagged (m : message) : bool :=
  match msg_body m with
  | BodyDict b =>
      match items b, errors_parsing_items b with
      | Some it, Some flag => agree it flag
      | _, _ => false
      end
  | BodyOther _ => false
  end.

(** The calls of raw persistence: naming a file, and writing a flagged
    record. *)
Definition raw_call (c : call) : Prop :=
  match c with
  | FsNewPath _ => True
  | FsWriteJson _ m => flagged m = true
  | _ => False
  end.

(** [message["body"]["items"]] raises: the body is no dictionary, or it
    has no such key. *)
Definition lacks_items (m : message) : bool :=
  match msg_body m with
  | BodyOther _ => true
  | BodyDict b => match items b with None => true | Some _ => false end
  end.

(** A message as reception leaves an entry whose body is not JSON. *)
Definition not_json (id text : string) : message :=
  {| message_id := id; receipt_handle := "rh-" ++ id;
     msg_body := BodyOther text;
     attributes := None; message_attributes := None;
     parse_error := Some "Expecting value" |}.

(** Lines 188-196 of [save_raw_message], as a relation between the
    message handed in and the record handed to the writer.  The record is
    the message with two entries of its body set: [items], replaced by
    what the parser returns when it is text the parser reads and left as
    it is otherwise, and [errors_parsing_items], true when the parser
    raised and false in every other case. *)
Definition record_of {E : Env} (msg record : message) : Prop :=
  exists b it,
    msg_body msg = BodyDict b /\ items b = Some it /\
    match it with
    | ItemsData _ =>
        record
        = set_body msg
            (BodyDict {| items := Some it;
                         errors_parsing_items := Some false;
                         fields := fields b |})
    | ItemsText s =>
        match parse_items_firebase_format frames_left s with
        | Some v =>
            record
            = set_body msg
                (BodyDict {| items := Some (ItemsData v);
                             errors_parsing_items := Some false;
                             fields := fields b |})
        | None =>
            record
            = set_body msg
                (BodyDict {| items := Some it;
                             errors_parsing_items := Some true;
                             fields := fields b |})
        end
    end.

(** The calls of raw persistence on a batch: naming the file of one of
    its messages, and writing the record of one of them. *)
Definition persists {E : Env} (messages : list message) (c : call) : Prop :=
  match c with
  | FsNewPath m => In m messages
  | FsWriteJson _ record =>
      exists msg, In msg messages /\ record_of msg record
  | _ => False
  end.

End Written.


(* ===================================================================== *)
(** * Scripts: lines, comments, statements *)
(* ===================================================================== *)

Module Scripts.
Import Text Loader.

(** Every character is one that [strip] removes. *)
Fixpoint all_space (s : string) : bool :=
  match s with
  | EmptyString => true
  | String c r => is_space c && all_space r
  end.

(** The test of line 93: a line that [execute_statements] drops. *)
Definition is_comment_line (line : string) : bool :=
  startswith "--" (strip line).

Definition is_blank_line (line : string) : bool :=
  negb (nonempty (strip line)).

(** A script in which every line is blank or a comment. *)
Definition nothing_to_run (sql : string) : bool :=
  forallb (fun line => is_blank_line line || is_comment_line line)
          (split newline sql).

(** A statement written on one line: not empty, no blank at either end,
    no line break, not opening as a comment, no semicolon at its end. *)
Definition one_line_statement (s : string) : bool :=
  nonempty s && (strip s =? s)%string && negb (mem newline s)
  && negb (startswith "--" s) && negb (endswith ";" s).

(** The script that holds the statements one per line, each closed by a
    semicolon. *)
Definition script_of (statements : list string) : string :=
  join nl (map (fun s => s ++ ";") statements).

(** The lines of a script that are no comments. *)
Definition code_lines (sql : string) : list string :=
  filter (fun line => negb (is_comment_line line)) (split newline sql).

End Scripts.


(* ===================================================================== *)
(** * Calls on the database; [get_layer_stats] *)
(* ===================================================================== *)

Module Database.
Import Text Eff Loader.
Local Open Scope eff_scope.

Definition is_db_call (c : call) : bool :=
  match c with DbConnect | DbExecute _ => true | _ => false end.

(** Opening the connection, or counting the rows of a table. *)
Definition is_count_query (c : call) : Prop :=
  c = DbConnect \/ exists table, c = DbExecute (count_sql table).

(** The file of a SQL model, as [run_model] names it. *)
Definition model_path (model_name : string) : string :=
  "sql/models/" ++ model_name ++ ".sql".

(** Reading the file of the model. *)
Definition reads_model (model_name : string) (c : call) : bool :=
  match c with
  | FsReadText path => (path =? model_path model_name)%string
  | _ => false
  end.

(** The dictionary of [get_layer_stats], in the order its entries are
    computed. *)
Record layer_stats : Type := {
  ls_silver_events : Z;
  ls_silver_items : Z;
  ls_fact_events : Z;
  ls_fact_items : Z;
  ls_dim_items : Z;
  ls_dim_users : Z
}.

(** [get_layer_stats] *)
Definition get_layer_stats {E : Env} : M layer_stats :=
  events <- table_count "silver_events" ;;
  items <- table_count "silver_items" ;;
  fact_events <- table_count "fact_events" ;;
  fact_items <- table_count "fact_event_items" ;;
  dim_items <- table_count "dim_items" ;;
  dim_users <- table_count "dim_users" ;;
  ret {| ls_silver_events := events; ls_silver_items := items;
         ls_fact_events := fact_events; ls_fact_items := fact_items;
         ls_dim_items := dim_items; ls_dim_users := dim_users |}.

(** No count is negative. *)
Definition counts_not_negative (st : layer_stats) : Prop :=
  0 <= ls_silver_events st /\ 0 <= ls_silver_items st /\
  0 <= ls_fact_events st /\ 0 <= ls_fact_items st /\
  0 <= ls_dim_items st /\ 0 <= ls_dim_users st.

End Database.


Module SilverRuns.
Import Text Parser Eff.

(** A host on which one raw file is stored. *)
Definition one_raw_file : Sim.store :=
  {| Sim.raw_files := [("data/bronze/m1.json", Runs.message_of "m1" "[{a=1}]")];
     Sim.executed := [] |}.

Definition stocked (cfg : Sim.setup) : @world (Sim.env cfg) :=
  @Build_world (Sim.env cfg) [] one_raw_file [] [].

End SilverRuns.


(* ===================================================================== *)
(** * The queue's side of the contract *)
(* ===================================================================== *)

Module Contract.
Import Eff Pipeline.

(** The queue returns no more messages than it was asked for. *)
Definition bounded_answers {E : Env} : Prop :=
  forall n vt wt q q' l,
    sqs_receive_message n vt wt q = (q', Ok l) -> len l <= n.

End Contract.


(* ===================================================================== *)
(** * [BronzeTransformer.list_bronze_files] *)
(* ===================================================================== *)

Module Listing.
Import Text PyNum Eff.

(** A [Path], by its parts. *)
Definition path : Type := list string.

(** [p.relative_to(base).parts]; [None] is [ValueError]. *)
Fixpoint relative_to (base p : path) : option path :=
  match base, p with
  | [], _ => Some p
  | b :: base', x :: p' =>
      if (b =? x)%string then relative_to base' p' else None
  | _ :: _, [] => None
  end.

(** A naive [datetime]: the date, and the time of day in microseconds. *)
Record datetime : Type := {
  year : Z;
  month : Z;
  day : Z;
  micros : Z
}.

Definition is_leap (y : Z) : bool :=
  (y mod 4 =? 0) && (negb (y mod 100 =? 0) || (y mod 400 =? 0)).

Definition days_in_month (y m : Z) : Z :=
  if m =? 2 then (if is_leap y then 29 else 28)
  else if (m =? 4) || (m =? 6) || (m =? 9) || (m =? 11) then 30
  else 31.

(** The constructor takes its arguments as C [int]s. *)
Definition fits_c_int (n : Z) : bool :=
  (- 2147483648 <=? n) && (n <=? 2147483647).

(** [datetime(y, m, d)]: midnight of that day.  An argument that is no
    C [int] raises [OverflowError]; a date that does not exist raises
    [ValueError]. *)
Definition make_datetime (y m d : Z) : result datetime :=
  if negb (fits_c_int y && fits_c_int m && fits_c_int d)
  then Raise (Exn "OverflowError" "Python int too large to convert to C int")
  else if (1 <=? y) && (y <=? 9999) && (1 <=? m) && (m <=? 12)
          && (1 <=? d) && (d <=? days_in_month y m)
  then Ok {| year := y; month := m; day := d; micros := 0 |}
  else Raise (Exn "ValueError" "out of range").

(** [a < b] on naive datetimes *)
Definition dt_ltb (a b : datetime) : bool :=
  (year a <? year b)
  || ((year a =? year b)
      && ((month a <? month b)
          || ((month a =? month b)
              && ((day a <? day b)
                  || ((day a =? day b) && (micros a <? micros b)))))).

(** The body of the loop, lines 267-277: [Ok true] when the file is
    appended, [Ok false] when it is passed over; an exception other
    than [ValueError] and [IndexError] leaves the function. *)
Definition keeps (base : path) (start_date end_date : option datetime)
    (json_file : path) : result bool :=
  match relative_to base json_file with
  | None => Ok true
  | Some parts =>
      match parts with
      | p0 :: p1 :: p2 :: _ =>
          match py_int p0 with
          | None => Ok true
          | Some y =>
              match py_int p1 with
              | None => Ok true
              | Some m =>
                  match py_int p2 with
                  | None => Ok true
                  | Some d =>
                      match make_datetime y m d with
                      | Raise e =>
                          if is_class "ValueError" e
                             || is_class "IndexError" e
                          then Ok true else Raise e
                      | Ok file_date =>
                          if match start_date with
                             | Some s => dt_ltb file_date s
                             | None => false
                             end
                          then Ok false
                          else if match end_date with
                                  | Some e => dt_ltb e file_date
                                  | None => false
                                  end
                          then Ok false
                          else Ok true
                      end
                  end
              end
          end
      | _ => Ok true
      end
  end.

(** The loop over the files found by [rglob]. *)
Fixpoint list_loop (base : path) (start_date end_date : option datetime)
    (found files : list path) : result (list path) :=
  match found with
  | [] => Ok files
  | json_file :: rest =>
      match keeps base start_date end_date json_file with
      | Ok true =>
          list_loop base start_date end_date rest (files ++ [json_file])
      | Ok false => list_loop base start_date end_date rest files
      | Raise e => Raise e
      end
  end.

(** [a < b] on paths: the lists of parts are compared as Python compares
    lists of [str], at the first part that differs. *)
Fixpoint path_ltb (a b : path) : bool :=
  match a, b with
  | _, [] => false
  | [], _ :: _ => true
  | x :: a', y :: b' =>
      if (x =? y)%string then path_ltb a' b' else String.ltb x y
  end.

(** [sorted]: a stable sort that only asks for [<]. *)
Fixpoint insert (x : path) (l : list path) : list path :=
  match l with
  | [] => [x]
  | y :: l' => if path_ltb y x then y :: insert x l' else x :: y :: l'
  end.

Fixpoint sorted (l : list path) : list path :=
  match l with
  | [] => []
  | x :: l' => insert x (sorted l')
  end.

(** [list_bronze_files], given what [rglob] finds below [bronze_path]. *)
Definition list_bronze_files (bronze_path : path)
    (start_date end_date : option datetime) (found : list path)
  : result (list path) :=
  match list_loop bronze_path start_date end_date found [] with
  | Ok files => Ok (sorted files)
  | Raise e => Raise e
  end.

(** [a] does not come after [b]. *)
Definition path_le (a b : path) : Prop := path_ltb b a = false.


(** A raw store used in the examples: two dated files and one that lies
    outside the partitions. *)
Definition bronze : path := ["data"; "bronze"].

Definition some_files : list path :=
  [ ["data"; "bronze"; "2024"; "01"; "15"; "b.json"];
    ["data"; "bronze"; "misc"; "c.json"];
    ["data"; "bronze"; "2024"; "01"; "14"; "a.json"] ].

(** Ten o'clock in the morning of 15 January 2024. *)
Definition mid_morning : datetime :=
  {| year := 2024; month := 1; day := 15; micros := 36000000000 |}.

End Listing.


(* ===================================================================== *)
(** * Templates of SQL models *)
(* ===================================================================== *)

Module Templates.
Import Text Loader.

(** A text without an opening brace. *)
Definition brace_free (s : string) : bool := negb (mem "{" s).

(** The template made of the [pieces], with the placeholder of [key]
    between each piece and the next. *)
Definition template (key : string) (pieces : list string) : string :=
  join (placeholder_of key) pieces.

(** A model file that reads the raw files of a directory twice. *)
Definition union_model (path : string) : option string :=
  Some (template "bronze_path"
          ["INSERT INTO t SELECT * FROM read_json('";
           "/a.json') UNION SELECT * FROM read_json('";
           "/b.json');"]).

Definition templated : Sim.setup :=
  {| Sim.fails_write := fun _ => false;
     Sim.fails_sql := fun _ => false;
     Sim.fails_delete := fun _ => None;
     Sim.decode := Sim.decode_items;
     Sim.model_file := union_model;
     Sim.save_parquet := true;
     Sim.frames := 100 |}.

End Templates.


Module Poison.
Import Text Eff.

(** Entries whose body text the decoder rejects. *)
Definition all_rejected {E : Env} (entries : list sqs_message) : Prop :=
  forall msg, In msg entries ->
    exists e, json_loads (Body msg) = Raise e /\
              is_class "JSONDecodeError" e = true.

Definition is_write (c : call) : bool :=
  match c with FsWriteJson _ _ => true | _ => false end.

End Poison.


(* ===================================================================== *)
(** * The builtin [str(int)] *)
(* ===================================================================== *)

Module Printing.

(** [str(n)]: the decimal numeral of [n], with a minus sign when [n] is
    negative and no leading zero. *)
Definition str_of_int (n : Z) : string :=
  NilZero.string_of_int (Z.to_int n).

End Printing.


(* ===================================================================== *)
(** * The model files a stage reads *)
(* ===================================================================== *)

Module Order.
Import Text Eff Database.

(** The files read, in order. *)
Definition reads (t : list call) : list string :=
  flat_map (fun c => match c with FsReadText p => [p] | _ => [] end) t.

(** A call that reads no file. *)
Definition reads_nothing (c : call) : Prop := reads [c] = [].

(** The models of the two stages, in the order of the sources. *)
Definition silver_models : list string := ["silver_events"; "silver_items"].

Definition gold_models : list string :=
  ["gold_fact_events"; "gold_fact_items"; "gold_dim_items"; "gold_dim_users"].

End Order.


(* ===================================================================== *)
(** * The two phases of a batch *)
(* ===================================================================== *)

Module Phases.
Import Eff.

(** A call of raw persistence. *)
Definition is_raw_call (c : call) : bool :=
  match c with FsNewPath _ | FsWriteJson _ _ => true | _ => false end.

(** A call of the later stages: anything but raw persistence. *)
Definition later_call (c : call) : Prop := is_raw_call c = false.

End Phases.


(* ===================================================================== *)
(** * Properties of the value parser *)
(* ===================================================================== *)

Import Text PyNum Parser Eff.

(** A callback that succeeds more often makes the object scanner succeed
    more often, with the same result. *)
Lemma object_loop_mono (f g : string -> option value) :
  (forall s v, f s = Some v -> g s = Some v) ->
  forall s result depth ck cv ik r,
    object_loop f s result depth ck cv ik = Some r ->
    object_loop g s result depth ck cv ik = Some r.
Proof.
  intros Hfg. induction s as [|c s IH]; intros result depth ck cv ik r; simpl.
  - destruct (nonempty ck); auto.
    destruct (f (strip cv)) eqn:Hf; [|discriminate].
    now rewrite (Hfg _ _ Hf).
  - repeat match goal with
           | |- context [if ?b then _ else _] => destruct b
           end;
      try apply IH;
      (destruct (f (strip cv)) eqn:Hf; [|discriminate];
       rewrite (Hfg _ _ Hf); apply IH).
Qed.

Lemma array_loop_mono (f g : string -> option dict) :
  (forall s v, f s = Some v -> g s = Some v) ->
  forall s result depth cur io r,
    array_loop f s result depth cur io = Some r ->
    array_loop g s result depth cur io = Some r.
Proof.
  intros Hfg. induction s as [|c s IH]; intros result depth cur io r; simpl.
  - auto.
  - repeat match goal with
           | |- context [if ?b then _ else _] => destruct b
           end;
      try apply IH;
      (destruct (f cur) eqn:Hf; [|discriminate];
       rewrite (Hfg _ _ Hf); apply IH).
Qed.

Lemma parse_nested_S k s :
  parse_nested (S k) s =
  let s := strip s in
  if startswith "[" s then option_map VList (parse_array k s)
  else if startswith "{" s then
    option_map VMap
      (parse_object k (if endswith "}" s then drop_last (tail s) else tail s))
  else match k with O => None | S _ => Some (parse_value s) end.
Proof. reflexivity. Qed.

Lemma parse_array_S k s :
  parse_array (S k) s = array_loop (parse_object k) s [] 0 "" false.
Proof. reflexivity. Qed.

Lemma parse_object_S k s :
  parse_object (S k) s = object_loop (parse_nested k) s [] 0 "" "" true.
Proof. reflexivity. Qed.

(** One more frame never changes a result already obtained. *)
Lemma parse_mono_step k :
  (forall s v, parse_nested k s = Some v -> parse_nested (S k) s = Some v) /\
  (forall s v, parse_array k s = Some v -> parse_array (S k) s = Some v) /\
  (forall s v, parse_object k s = Some v -> parse_object (S k) s = Some v).
Proof.
  induction k as [|k (IHn & IHa & IHo)].
  - repeat split; intros s v H; destruct s; discriminate H.
  - repeat split; intros s v.
    + rewrite !parse_nested_S. cbv zeta.
      destruct (startswith "[" (strip s)).
      * destruct (parse_array k (strip s)) eqn:Ha; [|discriminate].
        now rewrite (IHa _ _ Ha).
      * destruct (startswith "{" (strip s)).
        -- match goal with
           | |- context [parse_object k ?t] =>
               destruct (parse_object k t) eqn:Ho; [|discriminate];
               now rewrite (IHo _ _ Ho)
           end.
        -- destruct k; [discriminate | auto].
    + rewrite !parse_array_S. apply array_loop_mono, IHo.
    + rewrite !parse_object_S. apply object_loop_mono, IHn.
Qed.

Lemma parse_nested_mono k k' s v :
  (k <= k')%nat -> parse_nested k s = Some v -> parse_nested k' s = Some v.
Proof.
  induction 1 as [|k' _ IH]; auto.
  intros H. now apply parse_mono_step, IH.
Qed.

Lemma parse_object_mono k k' s v :
  (k <= k')%nat -> parse_object k s = Some v -> parse_object k' s = Some v.
Proof.
  induction 1 as [|k' _ IH]; auto.
  intros H. now apply parse_mono_step, IH.
Qed.

Lemma parse_array_mono k k' s v :
  (k <= k')%nat -> parse_array k s = Some v -> parse_array k' s = Some v.
Proof.
  induction 1 as [|k' _ IH]; auto.
  intros H. now apply parse_mono_step, IH.
Qed.

Lemma parse_items_mono k k' s v :
  (k <= k')%nat ->
  parse_items_firebase_format k s = Some v ->
  parse_items_firebase_format k' s = Some v.
Proof.
  intros Hle. destruct k as [|k]; [discriminate|].
  destruct k' as [|k']; [lia|]. simpl.
  apply parse_nested_mono. lia.
Qed.

(** The result does not depend on the number of frames, once there are
    enough of them. *)
Lemma parse_items_deterministic k k' s v v' :
  parse_items_firebase_format k s = Some v ->
  parse_items_firebase_format k' s = Some v' ->
  v = v'.
Proof.
  intros H H'.
  apply (parse_items_mono k (Nat.max k k')) in H; [|lia].
  apply (parse_items_mono k' (Nat.max k k')) in H'; [|lia].
  congruence.
Qed.

(** ** Lengths *)

Lemma length_snoc s c : String.length (snoc s c) = S (String.length s).
Proof. unfold snoc. induction s; simpl; auto. Qed.

Lemma length_lstrip_by p s :
  (String.length (lstrip_by p s) <= String.length s)%nat.
Proof. induction s; simpl; [lia|]. destruct (p a); simpl; lia. Qed.

Lemma length_rstrip_by p s :
  (String.length (rstrip_by p s) <= String.length s)%nat.
Proof.
  induction s; simpl; [lia|].
  destruct (rstrip_by p s); [destruct (p a)|]; simpl in *; lia.
Qed.

Lemma length_strip s : (String.length (strip s) <= String.length s)%nat.
Proof.
  unfold strip.
  etransitivity; [apply length_rstrip_by | apply length_lstrip_by].
Qed.

Lemma length_drop_last s :
  (String.length (drop_last s) <= String.length s)%nat.
Proof. induction s; simpl; [lia|]. destruct s; simpl in *; lia. Qed.

Lemma nonempty_length s : nonempty s = true -> (1 <= String.length s)%nat.
Proof. destruct s; simpl; [discriminate | lia]. Qed.

(** ** The scanners return whenever the calls they make return *)

Lemma object_loop_total (f : string -> option value) (L : nat) :
  (forall t, (String.length t < L)%nat -> f t <> None) ->
  forall s result depth ck cv ik,
    (String.length ck + String.length cv + String.length s <= L)%nat ->
    object_loop f s result depth ck cv ik <> None.
Proof.
  intros Hf. induction s as [|c s IH]; intros result depth ck cv ik Hlen;
    simpl in *.
  - destruct (nonempty ck) eqn:Hck; [|discriminate].
    apply nonempty_length in Hck.
    destruct (f (strip cv)) eqn:Hcall; [discriminate|].
    exfalso. apply (Hf (strip cv)); auto.
    pose proof (length_strip cv). lia.
  - repeat match goal with
           | |- context [if ?b then _ else _] => destruct b eqn:?
           end;
      try (apply IH; simpl; rewrite ?length_snoc; lia).
    destruct (f (strip cv)) eqn:Hcall.
    + apply IH; simpl; lia.
    + exfalso. apply (Hf (strip cv)); auto.
      match goal with
      | H : nonempty ck = true |- _ => apply nonempty_length in H
      end.
      pose proof (length_strip cv). lia.
Qed.

Lemma array_loop_total (f : string -> option dict) (L : nat) :
  (forall t, (String.length t < L)%nat -> f t <> None) ->
  forall s result depth cur io,
    (String.length cur + String.length s <= L)%nat ->
    array_loop f s result depth cur io <> None.
Proof.
  intros Hf. induction s as [|c s IH]; intros result depth cur io Hlen;
    simpl in *; [discriminate|].
  repeat match goal with
         | |- context [if ?b then _ else _] => destruct b eqn:?
         end;
    try (apply IH; simpl; rewrite ?length_snoc; lia).
  destruct (f cur) eqn:Hcall.
  - apply IH; simpl; lia.
  - exfalso. apply (Hf cur); auto. lia.
Qed.

Lemma option_map_not_none {A B} (h : A -> B) (o : option A) :
  o <> None -> option_map h o <> None.
Proof. destruct o; simpl; [discriminate | auto]. Qed.

Lemma not_none_mono {A} (p : nat -> string -> option A) :
  (forall k k' s v, (k <= k')%nat -> p k s = Some v -> p k' s = Some v) ->
  forall k k' s, (k <= k')%nat -> p k s <> None -> p k' s <> None.
Proof.
  intros Hm k k' s Hle Hk. destruct (p k s) eqn:Hp; [|congruence].
  now rewrite (Hm _ _ _ _ Hle Hp).
Qed.

Lemma parse_total_step (L : nat) :
  (forall t, (String.length t < L)%nat -> parse_nested (3 * L) t <> None) ->
  forall s, (String.length s <= L)%nat ->
    parse_object (3 * L + 1) s <> None /\
    parse_array (3 * L + 2) s <> None /\
    parse_nested (3 * L + 3) s <> None.
Proof.
  intros Hprev.
  assert (HO : forall s, (String.length s <= L)%nat ->
                         parse_object (3 * L + 1) s <> None).
  { intros s Hs. replace (3 * L + 1)%nat with (S (3 * L)) by lia.
    rewrite parse_object_S. apply (object_loop_total _ L); auto. }
  assert (HA : forall s, (String.length s <= L)%nat ->
                         parse_array (3 * L + 2) s <> None).
  { intros s Hs. replace (3 * L + 2)%nat with (S (3 * L + 1)) by lia.
    rewrite parse_array_S. apply (array_loop_total _ L).
    - intros t Ht. apply HO. lia.
    - simpl. lia. }
  intros s Hs. repeat split; auto.
  replace (3 * L + 3)%nat with (S (3 * L + 2)) by lia.
  rewrite parse_nested_S. cbv zeta.
  pose proof (length_strip s) as Hstrip.
  destruct (startswith "[" (strip s)).
  - apply option_map_not_none, HA. lia.
  - destruct (startswith "{" (strip s)).
    + apply option_map_not_none.
      apply (not_none_mono parse_object parse_object_mono (3 * L + 1));
        [lia|].
      apply HO.
      destruct (endswith "}" (strip s)).
      * pose proof (length_drop_last (tail (strip s))).
        destruct (strip s); simpl in *; lia.
      * destruct (strip s); simpl in *; lia.
    + replace (3 * L + 2)%nat with (S (3 * L + 1)) by lia. discriminate.
Qed.

Lemma parse_total_upto (L : nat) :
  forall s, (String.length s <= L)%nat ->
    parse_object (3 * L + 1) s <> None /\
    parse_array (3 * L + 2) s <> None /\
    parse_nested (3 * L + 3) s <> None.
Proof.
  induction L as [|L IH].
  - apply parse_total_step. intros t Ht. lia.
  - apply parse_total_step. intros t Ht.
    replace (3 * S L)%nat with (3 * L + 3)%nat by lia.
    apply IH. lia.
Qed.

(** The parser returns a value on every text, whatever its shape, as soon
    as the interpreter has three frames per character (and four more). *)
Lemma parse_items_total (s : string) (frames : nat) :
  (3 * String.length s + 4 <= frames)%nat ->
  exists v, parse_items_firebase_format frames s = Some v.
Proof.
  intros Hfr.
  destruct (parse_total_upto (String.length s) s (le_n _)) as (_ & _ & HN).
  destruct (parse_nested (3 * String.length s + 3) s) as [v|] eqn:Hv;
    [|congruence].
  exists v.
  apply (parse_items_mono (3 * String.length s + 4)); auto.
  replace (3 * String.length s + 4)%nat
    with (S (3 * String.length s + 3)) by lia.
  exact Hv.
Qed.

(** ** The worked example of the specification *)

Import Examples.

Lemma nested_text_parses :
  parse_items_firebase_format 8 nested_text = Some nested_tree.
Proof. vm_compute. reflexivity. Qed.

(** C1, as stated, fails: no number of frames makes the parser return the
    tree in which key [b] holds the list [1, 2, 3]. *)
Lemma C1_array_of_scalars_is_not_kept :
  ~ (exists frames,
        parse_items_firebase_format frames nested_text
        = Some nested_tree_with_array).
Proof.
  intros [frames H].
  pose proof (parse_items_deterministic _ _ _ _ _ H nested_text_parses) as Heq.
  discriminate Heq.
Qed.

(** C1, amended: on the text [[{a=1, b=[1,2,3], c={x=null, y=2.5}}]] the
    parser returns, as soon as eight frames are available, a one-element
    list whose element is a map with, in this order, key [a] mapped to
    Int 1, key [b] mapped to the empty list (the array scanner collects
    only the objects of an array, and this one holds none) and key [c]
    mapped to the map [{x: Null, y: Float 2.5}]. *)
Theorem C1_nested_example (frames : nat) :
  (8 <= frames)%nat ->
  parse_items_firebase_format frames nested_text
  = Some (VList [VMap [("a", VInt 1);
                       ("b", VList []);
                       ("c", VMap [("x", VNull);
                                   ("y", VFloat two_and_a_half)])]]).
Proof.
  intros Hfr. apply (parse_items_mono 8); [exact Hfr|].
  exact nested_text_parses.
Qed.

(** C1, witnessed with exactly eight frames. *)
Lemma C1_nested_example_witness :
  parse_items_firebase_format 8 nested_text
  = Some (VList [VMap [("a", VInt 1);
                       ("b", VList []);
                       ("c", VMap [("x", VNull);
                                   ("y", VFloat two_and_a_half)])]]).
Proof. apply (C1_nested_example 8). lia. Defined.

(** ** Scalar coercion *)

Example parse_value_samples :
  parse_value " null " = VNull /\
  parse_value "(not set)" = VNull /\
  parse_value "12" = VInt 12 /\
  parse_value "-7" = VInt (-7) /\
  parse_value "2.5" = VFloat (FFinite false 25 (-1)) /\
  parse_value "1e5" = VStr "1e5" /\
  parse_value "1.2.3" = VStr "1.2.3" /\
  parse_value "SKU 12" = VStr "SKU 12".
Proof. repeat split. Qed.

Example not_set_value_is_null :
  parse_items_firebase_format 8 "[{item_id=(not set), price=9.99}]"
  = Some (VList [VMap [("item_id", VNull);
                       ("price", VFloat (FFinite false 999 (-2)))]]).
Proof. vm_compute. reflexivity. Qed.

(** C5, as stated, fails: the token [a.b] contains a dot, is no sentinel,
    and stays a string. *)
Lemma C5_dotted_token_may_stay_text :
  ~ (forall tok,
        strip tok <> "null" -> strip tok <> "(not set)" ->
        mem "." (strip tok) = true ->
        exists f, parse_value tok = VFloat f).
Proof.
  intros H.
  destruct (H "a.b") as [f Hf]; try discriminate; try reflexivity.
Qed.

(** C5, amended: for every token, with [t] the token stripped of
    surrounding blanks: [null] and [(not set)] become Null; otherwise, when
    [t] contains a dot, it becomes the Float [float(t)] if [t] is a float
    literal and stays the string [t] if it is not; otherwise it becomes the
    Int [int(t)] if [t] is an integer literal and stays the string [t] if
    it is not. *)
Theorem C5_scalar_coercion (tok : string) :
  (strip tok = "null" \/ strip tok = "(not set)" ->
   parse_value tok = VNull) /\
  (strip tok <> "null" -> strip tok <> "(not set)" ->
   mem "." (strip tok) = true ->
   (forall f, py_float (strip tok) = Some f -> parse_value tok = VFloat f) /\
   (py_float (strip tok) = None -> parse_value tok = VStr (strip tok))) /\
  (strip tok <> "null" -> strip tok <> "(not set)" ->
   mem "." (strip tok) = false ->
   (forall n, py_int (strip tok) = Some n -> parse_value tok = VInt n) /\
   (py_int (strip tok) = None -> parse_value tok = VStr (strip tok))).
Proof.
  unfold parse_value.
  split; [|split].
  - intros [H | H]; rewrite H; reflexivity.
  - intros Hn Hs Hdot.
    apply String.eqb_neq in Hn, Hs. rewrite Hn, Hs, Hdot. simpl.
    split; [intros f Hf | intros Hf]; rewrite Hf; reflexivity.
  - intros Hn Hs Hdot.
    apply String.eqb_neq in Hn, Hs. rewrite Hn, Hs, Hdot. simpl.
    split; [intros f Hf | intros Hf]; rewrite Hf; reflexivity.
Qed.

(* ===================================================================== *)
(** * Reasoning about computations *)
(* ===================================================================== *)

Import Consumer Bronze Loader Pipeline Trace.
Local Open Scope eff_scope.
Local Open Scope list_scope.

Section Steps.
Context {E : Env}.

Lemma bind_ok {A B} (c : M A) (k : A -> M B) w a w1 :
  c w = (Ok a, w1) -> bind c k w = k a w1.
Proof. unfold bind. now intros ->. Qed.

Lemma bind_raise {A B} (c : M A) (k : A -> M B) w e w1 :
  c w = (Raise e, w1) -> bind c k w = (Raise e, w1).
Proof. unfold bind. now intros ->. Qed.

Lemma try_ok {A} (c : M A) h w a w1 :
  c w = (Ok a, w1) -> try_except c h w = (Ok a, w1).
Proof. unfold try_except. now intros ->. Qed.

Lemma try_raise {A} (c : M A) h w e w1 :
  c w = (Raise e, w1) -> try_except c h w = h e w1.
Proof. unfold try_except. now intros ->. Qed.

Lemma on_store_eq {A} c (f : Store -> Store * A) w s a :
  f (w_store w) = (s, a) -> on_store c f w = (Ok a, add_call c (put_store s w)).
Proof. unfold on_store. now intros ->. Qed.

Lemma on_queue_eq {A} c (f : Queue -> Queue * A) w q a :
  f (w_queue w) = (q, a) -> on_queue c f w = (Ok a, add_call c (put_queue q w)).
Proof. unfold on_queue. now intros ->. Qed.

(** ** What a computation may add to the list of calls *)

Variable P : call -> Prop.

Lemma emits_ret {A} (a : A) : emits P (ret a).
Proof.
  intros w r w' H. inversion H; subst. exists []. now rewrite app_nil_r.
Qed.

Lemma emits_raise {A} e : emits P (@raise E A e).
Proof.
  intros w r w' H. inversion H; subst. exists []. now rewrite app_nil_r.
Qed.

Lemma emits_log r : emits P (log r).
Proof.
  intros w r0 w' H. inversion H; subst. exists []. simpl.
  now rewrite app_nil_r.
Qed.

Lemma emits_bind {A B} (c : M A) (k : A -> M B) :
  emits P c -> (forall a, emits P (k a)) -> emits P (bind c k).
Proof.
  intros Hc Hk w r w' H. unfold bind in H.
  destruct (c w) as [[a|e] w1] eqn:Hcw.
  - destruct (Hc _ _ _ Hcw) as (t1 & E1 & F1).
    destruct (Hk a _ _ _ H) as (t2 & E2 & F2).
    exists (t1 ++ t2). rewrite E2, E1, app_assoc. split; auto.
    apply Forall_app; auto.
  - inversion H; subst. eauto.
Qed.

Lemma emits_try {A} (c : M A) (h : exn -> M A) :
  emits P c -> (forall e, emits P (h e)) -> emits P (try_except c h).
Proof.
  intros Hc Hh w r w' H. unfold try_except in H.
  destruct (c w) as [[a|e] w1] eqn:Hcw.
  - inversion H; subst. eauto.
  - destruct (Hc _ _ _ Hcw) as (t1 & E1 & F1).
    destruct (Hh e _ _ _ H) as (t2 & E2 & F2).
    exists (t1 ++ t2). rewrite E2, E1, app_assoc. split; auto.
    apply Forall_app; auto.
Qed.

Lemma emits_on_store {A} c (f : Store -> Store * A) :
  P c -> emits P (on_store c f).
Proof.
  intros Pc w r w' H. unfold on_store in H.
  destruct (f (w_store w)) as [s a]. inversion H; subst.
  exists [c]. simpl. auto.
Qed.

Lemma emits_on_queue {A} c (f : Queue -> Queue * A) :
  P c -> emits P (on_queue c f).
Proof.
  intros Pc w r w' H. unfold on_queue in H.
  destruct (f (w_queue w)) as [q a]. inversion H; subst.
  exists [c]. simpl. auto.
Qed.

Lemma emits_of_result {A} (r : result A) : emits P (of_result r).
Proof. destruct r; [apply emits_ret | apply emits_raise]. Qed.

Lemma emits_of_status r : emits P (of_status r).
Proof. destruct r; [apply emits_raise | apply emits_ret]. Qed.

Lemma emits_read {A} (f : world -> A) : emits P (fun w => (Ok (f w), w)).
Proof.
  intros w r w' H. inversion H; subst. exists []. now rewrite app_nil_r.
Qed.

End Steps.

(** Breaks a computation into the steps above; what remains are the side
    conditions [P c] on the calls made. *)
Ltac emits_steps :=
  repeat first
    [ apply emits_ret | apply emits_raise | apply emits_log
    | apply emits_of_result | apply emits_of_status | apply emits_read
    | apply emits_bind; [| intros ?]
    | apply emits_try; [| intros ?]
    | apply emits_on_store | apply emits_on_queue
    | match goal with
      | |- emits _ (match ?x with _ => _ end) => destruct x
      | |- emits _ (if ?b then _ else _) => destruct b
      | |- emits _ (let '(_, _) := ?x in _) => destruct x
      end ].

(* ===================================================================== *)
(** * Raw persistence ([BronzeTransformer]) *)
(* ===================================================================== *)

Import Shape.

(** C7, as stated, fails: the text [{a=1] never closes its brace, yet it is
    stored as the map the lenient parser makes of it, with the failure flag
    false. *)
Lemma C7_unclosed_brace_is_accepted :
  well_formed "{a=1" = false /\
  exists w',
    @save_raw_message (Sim.env Sim.plain)
      {| message_id := "m"; receipt_handle := "rh";
         msg_body := Sim.body_with (ItemsText "{a=1");
         attributes := None; message_attributes := None;
         parse_error := None |}
      (Sim.start Sim.plain [])
    = (Ok (Some "data/bronze/m.json",
           {| message_id := "m"; receipt_handle := "rh";
              msg_body :=
                BodyDict {| items := Some (ItemsData (VMap [("a", VInt 1)]));
                            errors_parsing_items := Some false;
                            fields := [] |};
              attributes := None; message_attributes := None;
              parse_error := None |}), w').
Proof. split; [reflexivity|]. eexists. vm_compute. reflexivity. Qed.

(** C7, amended: for every message whose items are text, once the file
    path is obtained [save_raw_message] returns without raising and hands
    exactly one record to the writer, which is stored when the write
    succeeds; the flag [errors_parsing_items] of that record is true
    exactly when the parser raised, and then the items are the original
    text, unchanged; when the parser returned a value the flag is false and
    the items are that value.  With three frames per character (and four
    more) the parser returns on every text, malformed or not, so the flag
    is false. *)
Theorem C7_flag_follows_the_parser {E : Env} (msg : message)
    (b : event_body) (s path : string) (w : world) (st1 : Store) :
  msg_body msg = BodyDict b ->
  items b = Some (ItemsText s) ->
  fs_new_path msg (w_store w) = (st1, Ok path) ->
  exists out stored b' w',
    save_raw_message msg w = (Ok (out, stored), w') /\
    msg_body stored = BodyDict b' /\
    w_calls w' = w_calls w ++ [FsNewPath msg; FsWriteJson path stored] /\
    (forall st2, fs_write_json path stored st1 = (st2, None) ->
                 out = Some path) /\
    (parse_items_firebase_format frames_left s = None ->
     errors_parsing_items b' = Some true /\
     items b' = Some (ItemsText s)) /\
    (forall v, parse_items_firebase_format frames_left s = Some v ->
     errors_parsing_items b' = Some false /\
     items b' = Some (ItemsData v)) /\
    ((3 * String.length s + 4 <= frames_left)%nat ->
     errors_parsing_items b' = Some false).
Proof.
  intros Hbody Hitems Hpath.
  unfold save_raw_message.
  rewrite (bind_ok _ _ _ _ _ (on_store_eq _ _ _ _ _ Hpath)).
  cbn [of_result]. unfold ret at 1. rewrite (bind_ok _ _ _ path _ eq_refl).
  rewrite Hbody, Hitems. unfold normalize_items.
  destruct (parse_items_firebase_format frames_left s) as [v|] eqn:Hparse.
  - unfold ret at 1. erewrite bind_ok by reflexivity. cbv beta iota.
    set (stored := set_body msg _).
    destruct (fs_write_json path stored st1) as [st2 r] eqn:Hwrite.
    erewrite bind_ok by (apply on_store_eq; exact Hwrite).
    destruct r as [e|];
      [eexists None, stored, _, _ | eexists (Some path), stored, _, _];
      (split; [reflexivity|]);
      repeat split; try reflexivity; try discriminate;
      try (simpl; now rewrite <- app_assoc);
      try (intros; simpl in *; congruence).
  - erewrite bind_ok by reflexivity. cbv beta iota.
    set (stored := set_body msg _).
    destruct (fs_write_json path stored st1) as [st2 r] eqn:Hwrite.
    assert (Hnot : (3 * String.length s + 4 <= frames_left)%nat -> False).
    { intros Hfr. destruct (parse_items_total s _ Hfr) as [v Hv]. congruence. }
    erewrite bind_ok by (apply on_store_eq; exact Hwrite).
    destruct r as [e|];
      [eexists None, stored, _, _ | eexists (Some path), stored, _, _];
      (split; [reflexivity|]);
      repeat split; try reflexivity; try discriminate;
      try (simpl; now rewrite <- app_assoc);
      try (intros; simpl in *; congruence);
      try (intros Hfr; destruct (Hnot Hfr)).
Qed.

(* ===================================================================== *)
(** * The calls each function makes *)
(* ===================================================================== *)

Import Trace.

Section Emissions.
Context {E : Env}.
Variable P : call -> Prop.
Hypothesis P_store : forall c, is_queue_call c = false -> P c.

Lemma emits_save_raw_message msg : emits P (save_raw_message msg).
Proof.
  unfold save_raw_message, normalize_items.
  emits_steps; apply P_store; reflexivity.
Qed.

Lemma emits_save_one paths msg : emits P (save_one paths msg).
Proof.
  unfold save_one.
  apply emits_try; [|intros e; emits_steps].
  apply emits_bind; [apply emits_save_raw_message|].
  intros [path m']. emits_steps.
Qed.

Lemma emits_save_batch_loop msgs :
  forall paths seen, emits P (save_batch_loop msgs paths seen).
Proof.
  induction msgs as [|m msgs IH]; intros paths seen; simpl.
  - apply emits_ret.
  - apply emits_bind; [apply emits_save_one|].
    intros [paths' m']. apply IH.
Qed.

Lemma emits_save_batch msgs : emits P (save_batch msgs).
Proof. apply emits_save_batch_loop. Qed.

Lemma emits_connect : emits P connect.
Proof. unfold connect. emits_steps. apply P_store; reflexivity. Qed.

Lemma emits_execute_sql sql : emits P (execute_sql sql).
Proof. unfold execute_sql. emits_steps. apply P_store; reflexivity. Qed.

Lemma emits_run_statements stmts : forall i, emits P (run_statements stmts i).
Proof.
  induction stmts as [|s stmts IH]; intros i; simpl.
  - apply emits_ret.
  - apply emits_bind; [|intros _; apply IH].
    destruct (nonempty s); emits_steps; apply P_store; reflexivity.
Qed.

Lemma emits_execute_statements sql : emits P (execute_statements sql).
Proof.
  unfold execute_statements.
  apply emits_bind; [apply emits_connect | intros _; apply emits_run_statements].
Qed.

Lemma emits_render name kwargs : forall sql, emits P (render name kwargs sql).
Proof.
  induction kwargs as [|[k v] kwargs IH]; intros sql; simpl.
  - apply emits_ret.
  - destruct (contains _ _); [apply IH|].
    apply emits_bind; [apply emits_log | intros _; apply IH].
Qed.

Lemma emits_run_model name kwargs : emits P (run_model name kwargs).
Proof.
  unfold run_model.
  apply emits_bind; [apply emits_on_store, P_store; reflexivity|].
  intros [sql|]; [|apply emits_raise].
  apply emits_bind; [apply emits_render|]. intros sql'.
  apply emits_bind; [|intros _; apply emits_execute_statements].
  destruct (findall_placeholders sql'); emits_steps.
Qed.

Lemma emits_export_to_parquet table dir col :
  emits P (export_to_parquet table dir col).
Proof.
  unfold export_to_parquet.
  apply emits_bind; [apply emits_connect | intros _].
  apply emits_bind; [emits_steps; apply P_store; reflexivity | intros _].
  apply emits_bind; [apply emits_read | intros ts].
  destruct col as [col|]; [destruct (nonempty col)|];
    emits_steps; apply P_store; reflexivity.
Qed.

Lemma emits_table_count table : emits P (table_count table).
Proof.
  unfold table_count.
  apply emits_try; [|intros _; apply emits_ret].
  apply emits_bind; [apply emits_connect | intros _].
  apply emits_bind; [apply emits_execute_sql | intros cur].
  destruct (fetchone_0 cur); emits_steps.
Qed.

Lemma emits_probe_bronze_json : emits P probe_bronze_json.
Proof.
  unfold probe_bronze_json.
  apply emits_try; [|intros e; apply emits_log].
  apply emits_bind; [apply emits_connect | intros _].
  apply emits_bind; [apply emits_execute_sql | intros _; apply emits_ret].
Qed.

Lemma emits_run_model_logged name kwargs :
  emits P (run_model_logged name kwargs).
Proof.
  unfold run_model_logged.
  apply emits_try; [apply emits_run_model | intros e; emits_steps].
Qed.

Lemma emits_transform_to_silver : emits P transform_to_silver.
Proof.
  unfold transform_to_silver.
  apply emits_bind; [apply emits_on_store, P_store; reflexivity|].
  intros [|f fs]; [emits_steps|].
  repeat first
    [ apply emits_ret
    | apply emits_bind;
      [ first [ apply emits_probe_bronze_json | apply emits_table_count
              | apply emits_run_model_logged ]
      | intros ? ] ].
Qed.

Lemma emits_transform_to_gold : emits P transform_to_gold.
Proof.
  unfold transform_to_gold.
  repeat first
    [ apply emits_ret
    | apply emits_bind;
      [ first [ apply emits_table_count | apply emits_run_model ]
      | intros ? ] ].
Qed.

Lemma emits_export_silver_to_parquet : emits P export_silver_to_parquet.
Proof.
  unfold export_silver_to_parquet.
  apply emits_bind; [|intros _]; apply emits_export_to_parquet.
Qed.

Lemma emits_export_gold_to_parquet : emits P export_gold_to_parquet.
Proof.
  unfold export_gold_to_parquet.
  repeat (apply emits_bind; [apply emits_export_to_parquet | intros _]).
  apply emits_export_to_parquet.
Qed.

Lemma emits_parse_messages msgs : forall acc, emits P (parse_messages msgs acc).
Proof.
  induction msgs as [|m msgs IH]; intros acc; simpl.
  - apply emits_ret.
  - apply emits_bind; [|intros ?; apply IH].
    unfold parse_message. emits_steps.
Qed.

Hypothesis P_receive : forall n vt wt, P (SqsReceive n vt wt).

Lemma emits_receive_messages a b c : emits P (receive_messages a b c).
Proof.
  unfold receive_messages.
  apply emits_try; [|intros e; emits_steps].
  apply emits_bind; [apply emits_on_queue, P_receive | intros r].
  apply emits_bind; [apply emits_of_result | intros l].
  apply emits_parse_messages.
Qed.

Lemma emits_delete_all msgs :
  (forall h, P (SqsDelete h)) -> emits P (delete_all msgs).
Proof.
  intros Pd. induction msgs as [|m msgs IH]; simpl.
  - apply emits_ret.
  - apply emits_bind; [|intros _; apply IH].
    unfold delete_message. emits_steps. apply Pd.
Qed.

Lemma emits_process_layers msgs st target del :
  (del = true -> forall h, P (SqsDelete h)) ->
  emits P (process_layers msgs st target del).
Proof.
  intros Pd. unfold process_layers.
  apply emits_bind; [apply emits_save_batch | intros [paths msgs']].
  destruct (target =? "bronze")%string; [apply emits_ret|].
  apply emits_bind; [apply emits_transform_to_silver | intros sr].
  apply emits_bind;
    [destruct SAVE_PARQUET;
     [apply emits_export_silver_to_parquet | apply emits_ret] | intros _].
  destruct (target =? "silver")%string; [apply emits_ret|].
  apply emits_bind; [apply emits_transform_to_gold | intros gr].
  apply emits_bind;
    [destruct SAVE_PARQUET;
     [apply emits_export_gold_to_parquet | apply emits_ret] | intros _].
  apply emits_bind; [|intros _; apply emits_ret].
  destruct del; [apply emits_delete_all; auto | apply emits_ret].
Qed.

Lemma emits_process_batch target del :
  (del = true -> forall h, P (SqsDelete h)) ->
  emits P (process_batch target del).
Proof.
  intros Pd. unfold process_batch.
  apply emits_bind; [apply emits_receive_messages | intros msgs].
  destruct msgs as [|m msgs]; [apply emits_ret|].
  apply emits_try; [apply emits_process_layers; auto | intros e; emits_steps].
Qed.

Lemma emits_pipeline_cycle target tot : emits P (pipeline_cycle target tot).
Proof.
  unfold pipeline_cycle.
  apply emits_try; [|intros e; emits_steps].
  apply emits_bind; [|intros st; apply emits_ret].
  apply emits_process_batch. discriminate.
Qed.

Lemma emits_run_cycles cycles target :
  forall tot, emits P (run_cycles cycles target tot).
Proof.
  induction cycles as [|k IH]; intros tot; simpl.
  - apply emits_ret.
  - apply emits_bind; [apply emits_pipeline_cycle | intros tot'; apply IH].
Qed.

End Emissions.

(** ** [save_batch] never raises *)

Lemma save_raw_message_keeps_handle {E : Env} msg w o m' w' :
  save_raw_message msg w = (Ok (o, m'), w') ->
  receipt_handle m' = receipt_handle msg.
Proof.
  unfold save_raw_message, normalize_items, bind, on_store, of_result, ret,
    raise, log.
  destruct (fs_new_path msg (w_store w)) as [st [path|e]]; [|discriminate].
  destruct (msg_body msg) as [b|]; [|discriminate].
  destruct (items b) as [[s|v]|]; [| |discriminate].
  - destruct (parse_items_firebase_format frames_left s);
      match goal with
      | |- context [fs_write_json ?p ?m ?s] =>
          destruct (fs_write_json p m s) as [st' [e|]]
      end; intros H; inversion H; reflexivity.
  - match goal with
    | |- context [fs_write_json ?p ?m ?s] =>
        destruct (fs_write_json p m s) as [st' [e|]]
    end; intros H; inversion H; reflexivity.
Qed.

Lemma save_one_returns {E : Env} paths msg w :
  exists paths' msg' w',
    save_one paths msg w = (Ok (paths', msg'), w') /\
    (List.length paths' <= List.length paths + 1)%nat /\
    receipt_handle msg' = receipt_handle msg.
Proof.
  unfold save_one, try_except, bind at 1.
  destruct (save_raw_message msg w) as [[[o m']|e] w1] eqn:Hsave.
  - pose proof (save_raw_message_keeps_handle _ _ _ _ _ Hsave) as Hh.
    destruct o as [p|]; [destruct (nonempty p)|];
      unfold ret; eexists _, _, _; (split; [reflexivity|]);
      split; auto; rewrite ?length_app; simpl; lia.
  - unfold bind, log, ret. eexists _, _, _. split; [reflexivity|].
    split; [lia | reflexivity].
Qed.

Lemma save_batch_loop_returns {E : Env} msgs :
  forall paths seen w,
  exists paths' seen' w',
    save_batch_loop msgs paths seen w = (Ok (paths', seen'), w') /\
    (List.length paths' <= List.length paths + List.length msgs)%nat /\
    map receipt_handle seen'
    = map receipt_handle seen ++ map receipt_handle msgs.
Proof.
  induction msgs as [|m msgs IH]; intros paths seen w; simpl.
  - eexists _, _, _. split; [reflexivity|].
    rewrite app_nil_r. split; [lia | reflexivity].
  - destruct (save_one_returns paths m w) as (p1 & m1 & w1 & H1 & L1 & R1).
    rewrite (bind_ok _ _ _ _ _ H1).
    destruct (IH p1 (seen ++ [m1]) w1) as (p2 & s2 & w2 & H2 & L2 & R2).
    exists p2, s2, w2. split; [exact H2|]. split; [lia|].
    rewrite R2, map_app, <- app_assoc. simpl. now rewrite R1.
Qed.

Lemma save_batch_returns {E : Env} msgs w :
  exists paths msgs' w',
    save_batch msgs w = (Ok (paths, msgs'), w') /\
    (List.length paths <= List.length msgs)%nat /\
    map receipt_handle msgs' = map receipt_handle msgs.
Proof.
  destruct (save_batch_loop_returns msgs [] [] w)
    as (p & s' & w' & H & L & R).
  exists p, s', w'. auto.
Qed.

(** Solves [emits P c] for the computations of the model, for a [P] that
    holds of every call but, possibly, the deletions. *)
Ltac emits_side :=
  first
    [ exact I
    | intros; exact I
    | intros; reflexivity
    | discriminate
    | intros c Hc; destruct c; first [discriminate Hc | reflexivity]
    | intros Hd; discriminate Hd ].

Ltac emits_auto :=
  repeat first
    [ apply emits_ret | apply emits_raise | apply emits_log
    | apply emits_of_result | apply emits_of_status | apply emits_read
    | apply emits_save_batch; emits_side
    | apply emits_transform_to_silver; emits_side
    | apply emits_transform_to_gold; emits_side
    | apply emits_export_silver_to_parquet; emits_side
    | apply emits_export_gold_to_parquet; emits_side
    | apply emits_probe_bronze_json; emits_side
    | apply emits_table_count; emits_side
    | apply emits_run_model_logged; emits_side
    | apply emits_run_model; emits_side
    | apply emits_export_to_parquet; emits_side
    | apply emits_receive_messages; emits_side
    | apply emits_delete_all; emits_side
    | apply emits_bind; [| intros ?]
    | apply emits_try; [| intros ?]
    | match goal with
      | |- emits _ (match ?x with _ => _ end) => destruct x
      | |- emits _ (if ?b then _ else _) => destruct b
      end ].

Lemma bind_assoc {E : Env} {A B C} (c : M A) (k : A -> M B) (k' : B -> M C) w :
  bind (bind c k) k' w = bind c (fun a => bind (k a) k') w.
Proof. unfold bind. destruct (c w) as [[a|e] w1]; reflexivity. Qed.

(** C7, witnessed: with three frames the text [{a={b=1}}] makes the parser
    raise; the record is written with the flag true and the text kept. *)
Lemma C7_flag_follows_the_parser_witness :
  exists out stored b' w',
    @save_raw_message (Sim.env Runs.shallow)
      (Runs.message_of "m" "{a={b=1}}") (Sim.start Runs.shallow [])
    = (Ok (out, stored), w') /\
    msg_body stored = BodyDict b' /\
    errors_parsing_items b' = Some true /\
    items b' = Some (ItemsText "{a={b=1}}").
Proof.
  destruct (@C7_flag_follows_the_parser (Sim.env Runs.shallow)
              (Runs.message_of "m" "{a={b=1}}")
              {| items := Some (ItemsText "{a={b=1}}");
                 errors_parsing_items := None; fields := [] |}
              "{a={b=1}}" "data/bronze/m.json"
              (Sim.start Runs.shallow []) Sim.empty_store
              eq_refl eq_refl eq_refl)
    as (out & stored & b' & w' & Hrun & Hbody & _ & _ & Hnone & _).
  exists out, stored, b', w'.
  destruct (Hnone eq_refl) as [Hflag Hitems].
  repeat split; assumption.
Defined.

(** C3, as stated, fails: the raw file of the first of two messages cannot
    be written; the batch is not aborted: one file is saved, the
    structuring scripts run, and the call returns its statistics. *)
Lemma C3_partial_persistence_goes_on :
  exists st w',
    @process_batch (Sim.env (Runs.write_fails_for "m1")) "silver" false
      (Sim.start (Runs.write_fails_for "m1")
                 [Sim.entry "m1" "[{a=1}]"; Sim.entry "m2" "[{a=2}]"])
    = (Ok st, w') /\
    messages_received st = 2 /\
    bronze_saved st = 1 /\
    map fst (Sim.raw_files (w_store w')) = ["data/bronze/m2.json"%string] /\
    Runs.sent "INSERT sql/models/silver_events.sql" (w_calls w') = true /\
    Runs.sent "INSERT sql/models/silver_items.sql" (w_calls w') = true.
Proof. eexists _, _. split; [vm_compute; reflexivity|]. repeat split. Qed.

Import Persisting.

(** One pass of the loop of [save_batch], case by case: the file was
    named and written; it was named and the write failed; or an exception
    was raised before the write. *)
Lemma save_one_outcome {E : Env} paths msg w :
  exists paths' msg' w' added,
    save_one paths msg w = (Ok (paths', msg'), w') /\
    w_log w' = w_log w ++ added /\
    ((exists st1 p record,
         fs_new_path msg (w_store w) = (st1, Ok p) /\
         fs_write_json p record st1 = (w_store w', None) /\
         w_calls w' = w_calls w ++ [FsNewPath msg; FsWriteJson p record] /\
         paths' = (if nonempty p then paths ++ [p] else paths) /\
         (added = [] \/ added = [ErrParsingItems])) \/
     (exists st1 p record e,
         fs_new_path msg (w_store w) = (st1, Ok p) /\
         fs_write_json p record st1 = (w_store w', Some e) /\
         w_calls w' = w_calls w ++ [FsNewPath msg; FsWriteJson p record] /\
         paths' = paths /\
         (added = [ErrSavingRaw e] \/
          added = [ErrParsingItems; ErrSavingRaw e])) \/
     (exists e,
         w_calls w' = w_calls w ++ [FsNewPath msg] /\
         paths' = paths /\ msg' = msg /\
         added = [ErrSavingMessage e])).
Proof.
  unfold save_one, try_except, save_raw_message, normalize_items, bind,
    on_store, of_result, ret, raise, log.
  destruct (fs_new_path msg (w_store w)) as [st1 [p|e]] eqn:Hn;
    cbv beta iota.
  2:{ eexists _, _, _, [ErrSavingMessage e]. split; [reflexivity|].
      split; [reflexivity|]. right. right. exists e. repeat split. }
  destruct (msg_body msg) as [b|].
  2:{ eexists _, _, _, [ErrSavingMessage _]. split; [reflexivity|].
      split; [reflexivity|]. right. right. eexists. repeat split. }
  destruct (items b) as [it|].
  2:{ eexists _, _, _, [ErrSavingMessage _]. split; [reflexivity|].
      split; [reflexivity|]. right. right. eexists. repeat split. }
  destruct it as [s|v];
    [destruct (parse_items_firebase_format frames_left s) as [v|]|];
    cbv beta iota; cbn [w_store add_call put_store add_log];
    match goal with
    | |- context [fs_write_json ?p ?m ?s] =>
        destruct (fs_write_json p m s) as [st2 [e|]] eqn:Hw
    end; cbv beta iota.
  - eexists _, _, _, [ErrSavingRaw e]. split; [reflexivity|].
    split; [reflexivity|]. right. left. eexists _, _, _, _.
    split; [reflexivity|]. split; [exact Hw|].
    split; [cbn; now rewrite <- app_assoc|]. split; [reflexivity|now left].
  - eexists _, _, _, []. split; [reflexivity|].
    split; [cbn; now rewrite app_nil_r|]. left. eexists _, _, _.
    split; [reflexivity|]. split; [exact Hw|].
    split; [cbn; now rewrite <- app_assoc|].
    split; [destruct (nonempty p); reflexivity|now left].
  - eexists _, _, _, [ErrParsingItems; ErrSavingRaw e].
    split; [reflexivity|].
    split; [cbn; now rewrite <- app_assoc|]. right. left.
    eexists _, _, _, _.
    split; [reflexivity|]. split; [exact Hw|].
    split; [cbn; now rewrite <- app_assoc|]. split; [reflexivity|now right].
  - eexists _, _, _, [ErrParsingItems]. split; [reflexivity|].
    split; [reflexivity|]. left. eexists _, _, _.
    split; [reflexivity|]. split; [exact Hw|].
    split; [cbn; now rewrite <- app_assoc|].
    split; [destruct (nonempty p); reflexivity|now right].
  - eexists _, _, _, [ErrSavingRaw e]. split; [reflexivity|].
    split; [reflexivity|]. right. left. eexists _, _, _, _.
    split; [reflexivity|]. split; [exact Hw|].
    split; [cbn; now rewrite <- app_assoc|]. split; [reflexivity|now left].
  - eexists _, _, _, []. split; [reflexivity|].
    split; [cbn; now rewrite app_nil_r|]. left. eexists _, _, _.
    split; [reflexivity|]. split; [exact Hw|].
    split; [cbn; now rewrite <- app_assoc|].
    split; [destruct (nonempty p); reflexivity|now left].
Qed.

Lemma save_failures_app l1 l2 :
  save_failures (l1 ++ l2) = (save_failures l1 + save_failures l2)%nat.
Proof. unfold save_failures. now rewrite filter_app, length_app. Qed.

(** One pass accounts for its message: a path or a failure record. *)
Lemma save_one_accounts {E : Env} paths msg w :
  exists new msg' w' t added,
    save_one paths msg w = (Ok (paths ++ new, msg'), w') /\
    w_calls w' = w_calls w ++ t /\
    w_log w' = w_log w ++ added /\
    (forall p, In p new -> exists record, In (FsWriteJson p record) t) /\
    (List.length new + save_failures added <= 1)%nat /\
    (files_are_named -> (List.length new + save_failures added = 1)%nat).
Proof.
  destruct (save_one_outcome paths msg w)
    as (paths' & msg' & w' & added & Hrun & Hlog & Hcase).
  destruct Hcase
    as [(st1 & p & record & Hn & Hw & Hcalls & -> & Hadded)
       |[(st1 & p & record & e & Hn & Hw & Hcalls & -> & Hadded)
        |(e & Hcalls & -> & -> & ->)]].
  - eexists (if nonempty p then [p] else []), msg', w', _, added.
    split; [destruct (nonempty p); [exact Hrun | now rewrite app_nil_r]|].
    split; [exact Hcalls|]. split; [exact Hlog|].
    assert (Hnone : save_failures added = 0%nat)
      by (destruct Hadded as [-> | ->]; reflexivity).
    rewrite Hnone. split; [|split].
    + intros q Hq. exists record.
      destruct (nonempty p); [|destruct Hq].
      destruct Hq as [<-|[]]. right. now left.
    + destruct (nonempty p); simpl; lia.
    + intros Hnamed. rewrite (Hnamed _ _ _ _ Hn). reflexivity.
  - eexists [], msg', w', _, added. rewrite app_nil_r.
    split; [exact Hrun|]. split; [exact Hcalls|]. split; [exact Hlog|].
    assert (Hone : save_failures added = 1%nat)
      by (destruct Hadded as [-> | ->]; reflexivity).
    rewrite Hone. split; [intros q []|]. split; [simpl; lia | reflexivity].
  - eexists [], msg, w', _, [ErrSavingMessage e]. rewrite app_nil_r.
    split; [exact Hrun|]. split; [exact Hcalls|]. split; [exact Hlog|].
    split; [intros q []|]. split; [cbv; lia | reflexivity].
Qed.

(** The loop accounts for every message of the batch. *)
Lemma save_batch_loop_accounts {E : Env} msgs :
  forall paths seen w,
  exists new seen' w' t added,
    save_batch_loop msgs paths seen w = (Ok (paths ++ new, seen'), w') /\
    w_calls w' = w_calls w ++ t /\
    w_log w' = w_log w ++ added /\
    (forall p, In p new -> exists record, In (FsWriteJson p record) t) /\
    (List.length new + save_failures added <= List.length msgs)%nat /\
    (files_are_named ->
     (List.length new + save_failures added = List.length msgs)%nat).
Proof.
  induction msgs as [|m msgs IH]; intros paths seen w; simpl.
  - exists [], seen, w, [], []. rewrite !app_nil_r.
    split; [reflexivity|]. split; [reflexivity|]. split; [reflexivity|].
    split; [intros p []|]. split; [cbv; lia | reflexivity].
  - destruct (save_one_accounts paths m w)
      as (n1 & m1 & w1 & t1 & a1 & H1 & C1 & L1 & W1 & B1 & N1).
    rewrite (bind_ok _ _ _ _ _ H1). cbv beta iota.
    destruct (IH (paths ++ n1) (seen ++ [m1]) w1)
      as (n2 & s2 & w2 & t2 & a2 & H2 & C2 & L2 & W2 & B2 & N2).
    exists (n1 ++ n2), s2, w2, (t1 ++ t2), (a1 ++ a2).
    rewrite app_assoc. split; [exact H2|].
    split; [now rewrite C2, C1, app_assoc|].
    split; [now rewrite L2, L1, app_assoc|].
    rewrite length_app, save_failures_app.
    split; [|split].
    + intros p Hp. apply in_app_or in Hp. destruct Hp as [Hp|Hp].
      * destruct (W1 p Hp) as (record & Hr). exists record.
        apply in_or_app. now left.
      * destruct (W2 p Hp) as (record & Hr). exists record.
        apply in_or_app. now right.
    + lia.
    + intros Hnamed. specialize (N1 Hnamed). specialize (N2 Hnamed). lia.
Qed.

(** Whatever the target layer, the statistics of a batch that was
    processed without raising count the paths [save_batch] returned. *)
Lemma process_layers_bronze_saved {E : Env} msgs st target del w st' w' :
  process_layers msgs st target del w = (Ok st', w') ->
  exists paths msgs' w1,
    save_batch msgs w = (Ok (paths, msgs'), w1) /\
    bronze_saved st' = len paths.
Proof.
  intros H. unfold process_layers in H.
  destruct (save_batch_returns msgs w) as (paths & msgs' & w1 & Hs & _ & _).
  exists paths, msgs', w1. split; [exact Hs|].
  rewrite (bind_ok _ _ _ _ _ Hs) in H. cbv beta iota in H.
  destruct (target =? "bronze")%string.
  { inversion H; subst. reflexivity. }
  unfold bind in H.
  destruct (transform_to_silver w1) as [[sr|e] w2]; [|discriminate H].
  destruct ((if SAVE_PARQUET then export_silver_to_parquet else ret tt) w2)
    as [[u|e] w3]; [|discriminate H].
  destruct (target =? "silver")%string.
  { inversion H; subst. reflexivity. }
  destruct (transform_to_gold w3) as [[gr|e] w4]; [|discriminate H].
  destruct ((if SAVE_PARQUET then export_gold_to_parquet else ret tt) w4)
    as [[u'|e] w5]; [|discriminate H].
  destruct ((if del then delete_all msgs' else ret tt) w5)
    as [[u''|e] w6]; [|discriminate H].
  inversion H; subst. reflexivity.
Qed.

(** C3, amended: [save_batch] never raises.  Each pass of its loop
    handles one message and returns: when the file was named and written
    its path is appended to the saved paths (unless it is the empty
    text) and nothing is logged but, possibly, the error of the parser;
    when the write failed, [ErrSavingRaw] is logged last and no path is
    appended; when an exception was raised before the write (the file
    could not be named, the body has no items), [ErrSavingMessage] is
    logged and no path is appended.  Over the batch, every path returned
    is that of a file handed to the writer, and the paths returned and
    the failures logged are together at most as many as the messages,
    exactly as many when no file is named by the empty text.
    [bronze_saved] is the number of paths returned, in the statistics of
    every call of [process_batch] that returns with a batch that is not
    empty, whatever the target layer.  And unless the target layer is
    bronze, [process_batch] goes on to the structuring stage whatever
    that number is: the listing of the raw files, which opens
    [transform_to_silver], is the next call made. *)
Theorem C3_raw_failures_do_not_stop_the_batch {E : Env} :
  (forall paths msg w,
      exists paths' msg' w' added,
        save_one paths msg w = (Ok (paths', msg'), w') /\
        w_log w' = w_log w ++ added /\
        ((exists st1 p record,
             fs_new_path msg (w_store w) = (st1, Ok p) /\
             fs_write_json p record st1 = (w_store w', None) /\
             w_calls w'
             = w_calls w ++ [FsNewPath msg; FsWriteJson p record] /\
             paths' = (if nonempty p then paths ++ [p] else paths) /\
             (added = [] \/ added = [ErrParsingItems])) \/
         (exists st1 p record e,
             fs_new_path msg (w_store w) = (st1, Ok p) /\
             fs_write_json p record st1 = (w_store w', Some e) /\
             w_calls w'
             = w_calls w ++ [FsNewPath msg; FsWriteJson p record] /\
             paths' = paths /\
             (added = [ErrSavingRaw e] \/
              added = [ErrParsingItems; ErrSavingRaw e])) \/
         (exists e,
             w_calls w' = w_calls w ++ [FsNewPath msg] /\
             paths' = paths /\ msg' = msg /\
             added = [ErrSavingMessage e]))) /\
  (forall messages w,
      exists paths messages' w1 t added,
        save_batch messages w = (Ok (paths, messages'), w1) /\
        w_calls w1 = w_calls w ++ t /\
        w_log w1 = w_log w ++ added /\
        (forall p, In p paths -> exists record, In (FsWriteJson p record) t) /\
        (List.length paths + save_failures added
         <= List.length messages)%nat /\
        (files_are_named ->
         (List.length paths + save_failures added
          = List.length messages)%nat)) /\
  (forall target del w m msgs w0 st' w',
      receive_messages None None None w = (Ok (m :: msgs), w0) ->
      process_batch target del w = (Ok st', w') ->
      exists paths messages' w1,
        save_batch (m :: msgs) w0 = (Ok (paths, messages'), w1) /\
        bronze_saved st' = len paths) /\
  (forall messages st target del w paths messages' w1 r w',
      (target =? "bronze")%string = false ->
      save_batch messages w = (Ok (paths, messages'), w1) ->
      process_layers messages st target del w = (r, w') ->
      exists t, w_calls w' = w_calls w1 ++ FsRglobJson bronze_path :: t).
Proof.
  split; [|split; [|split]].
  - intros paths msg w. apply save_one_outcome.
  - intros messages w.
    destruct (save_batch_loop_accounts messages [] [] w)
      as (new & seen' & w1 & t & added & H).
    exists new, seen', w1, t, added. exact H.
  - intros target del w m msgs w0 st' w' Hrecv Hrun.
    unfold process_batch in Hrun.
    rewrite (bind_ok _ _ _ _ _ Hrecv) in Hrun. cbv beta iota in Hrun.
    unfold try_except in Hrun.
    destruct (process_layers (m :: msgs) (stats_received (len (m :: msgs)))
                target del w0) as [[st1|e] w2] eqn:Hl.
    + inversion Hrun; subst.
      exact (process_layers_bronze_saved _ _ _ _ _ _ _ Hl).
    + unfold bind, log, raise in Hrun. discriminate Hrun.
  - intros messages st target del w paths msgs' w1 r w' Ht Hs.
    unfold process_layers. rewrite (bind_ok _ _ _ _ _ Hs). cbv beta iota.
    rewrite Ht.
    unfold transform_to_silver. rewrite bind_assoc.
    destruct (on_store (FsRglobJson bronze_path)
                (fun st0 => (st0, fs_rglob_json bronze_path st0)) w1)
      as [r0 w1a] eqn:Hls.
    unfold on_store in Hls. inversion Hls; subst r0 w1a; clear Hls.
    erewrite bind_ok by reflexivity.
    intros Hrun.
    match type of Hrun with
    | ?c _ = _ =>
        assert (Hem : emits (fun _ => True) c) by emits_auto
    end.
    destruct (Hem _ _ _ Hrun) as (t & Ht' & _).
    exists t. rewrite Ht'. simpl. now rewrite <- app_assoc.
Qed.

(* ===================================================================== *)
(** * The statement executor ([DuckDBLoader.execute_statements]) *)
(* ===================================================================== *)

Import Reference.

Lemma length_take n s : (String.length (take n s) <= n)%nat.
Proof.
  revert s. induction n as [|n IH]; intros s; simpl; [lia|].
  destruct s; simpl; [lia|]. specialize (IH s). lia.
Qed.

Lemma execute_sql_ok {E : Env} sql w st c :
  conn_execute sql (w_store w) = (st, Ok c) ->
  execute_sql sql w = (Ok c, add_call (DbExecute sql) (put_store st w)).
Proof.
  intros H. unfold execute_sql.
  now rewrite (bind_ok _ _ _ _ _ (on_store_eq _ _ _ _ _ H)).
Qed.

Lemma execute_sql_raise {E : Env} sql w st e :
  conn_execute sql (w_store w) = (st, Raise e) ->
  execute_sql sql w = (Raise e, add_call (DbExecute sql) (put_store st w)).
Proof.
  intros H. unfold execute_sql.
  now rewrite (bind_ok _ _ _ _ _ (on_store_eq _ _ _ _ _ H)).
Qed.

(** The loop stops at the first statement that fails. *)
Lemma run_statements_fails {E : Env} s post e st2 :
  nonempty s = true ->
  forall pre i w st1,
    commit_all pre (w_store w) = Some st1 ->
    conn_execute s st1 = (st2, Raise e) ->
    exists w',
      run_statements (pre ++ s :: post) i w = (Raise e, w') /\
      w_store w' = st2 /\
      w_queue w' = w_queue w /\
      w_calls w'
      = w_calls w ++ map DbExecute (filter nonempty pre) ++ [DbExecute s] /\
      w_log w'
      = w_log w ++ [ErrStatement (i + len pre + 1) e;
                    ErrStatementText (take 500 s)].
Proof.
  intros Hs. induction pre as [|p pre IH]; intros i w st1 Hpre Hfail.
  - simpl in Hpre. inversion Hpre; subst st1. simpl. rewrite Hs.
    erewrite bind_raise.
    2:{ erewrite try_raise.
        2:{ erewrite bind_raise; [reflexivity|].
            apply execute_sql_raise. exact Hfail. }
        reflexivity. }
    eexists. split; [reflexivity|]. simpl. unfold len. simpl.
    repeat split; try reflexivity.
    rewrite <- app_assoc. simpl. do 3 f_equal. lia.
  - simpl in Hpre. simpl.
    destruct (nonempty p) eqn:Hp.
    + destruct (conn_execute p (w_store w)) as [st' [c|e']] eqn:Hexec;
        [|discriminate].
      erewrite bind_ok.
      2:{ erewrite try_ok; [reflexivity|].
          erewrite bind_ok; [reflexivity|].
          apply execute_sql_ok. exact Hexec. }
      destruct (IH (i + 1) (add_call (DbExecute p) (put_store st' w)) st1
                   Hpre Hfail)
        as (w' & Hrun & Hst & Hq & Hc & Hl).
      exists w'. split; [exact Hrun|]. rewrite Hst, Hq, Hc, Hl. simpl.
      repeat split; try reflexivity.
      * now rewrite <- app_assoc.
      * unfold len. simpl List.length. do 3 f_equal. lia.
    + erewrite bind_ok by reflexivity.
      destruct (IH (i + 1) w st1 Hpre Hfail)
        as (w' & Hrun & Hst & Hq & Hc & Hl).
      exists w'. split; [exact Hrun|]. rewrite Hst, Hq, Hc, Hl.
      repeat split; try reflexivity.
      unfold len. simpl List.length. do 3 f_equal. lia.
Qed.

(** When no statement fails, all of them are executed, in order. *)
Lemma run_statements_all {E : Env} :
  forall stmts i w st1,
    commit_all stmts (w_store w) = Some st1 ->
    exists w',
      run_statements stmts i w = (Ok tt, w') /\
      w_store w' = st1 /\
      w_queue w' = w_queue w /\
      w_calls w' = w_calls w ++ map DbExecute (filter nonempty stmts) /\
      w_log w' = w_log w.
Proof.
  induction stmts as [|p stmts IH]; intros i w st1 Hall; simpl in *.
  - inversion Hall; subst. exists w. rewrite app_nil_r. auto.
  - destruct (nonempty p) eqn:Hp.
    + destruct (conn_execute p (w_store w)) as [st' [c|e']] eqn:Hexec;
        [|discriminate].
      erewrite bind_ok.
      2:{ erewrite try_ok; [reflexivity|].
          erewrite bind_ok; [reflexivity|].
          apply execute_sql_ok. exact Hexec. }
      destruct (IH (i + 1) (add_call (DbExecute p) (put_store st' w)) st1 Hall)
        as (w' & Hrun & Hst & Hq & Hc & Hl).
      exists w'. split; [exact Hrun|]. rewrite Hst, Hq, Hc, Hl. simpl.
      repeat split; try reflexivity. now rewrite <- app_assoc.
    + erewrite bind_ok by reflexivity.
      destruct (IH (i + 1) w st1 Hall) as (w' & Hrun & Hst & Hq & Hc & Hl).
      exists w'. auto.
Qed.

(** C6: for every script, once the connection is open: the statements of
    the split script are executed in source order on that connection; if
    statement k (empty statements are passed over but counted) fails, the
    store holds the effects of statements 1..k-1, each executed in the
    state its predecessor left, followed by whatever the failing call
    itself did, nothing is undone, the failure is reported with the
    1-based index k and an excerpt of at most 500 characters of the
    statement, its exception is re-raised, and no later statement is sent;
    if none fails, every statement is sent, in order. *)
Theorem C6_statements_run_in_order {E : Env} (sql : string) (w : world)
    (st0 : Store) :
  db_connect (w_store w) = (st0, None) ->
  (forall pre s post st1 st2 e,
      split_statements sql = pre ++ s :: post ->
      commit_all pre st0 = Some st1 ->
      nonempty s = true ->
      conn_execute s st1 = (st2, Raise e) ->
      exists w',
        execute_statements sql w = (Raise e, w') /\
        w_store w' = st2 /\
        w_calls w'
        = w_calls w ++ DbConnect :: map DbExecute (filter nonempty pre)
                                     ++ [DbExecute s] /\
        w_log w'
        = w_log w ++ [ErrStatement (len pre + 1) e;
                      ErrStatementText (take 500 s)] /\
        (String.length (take 500 s) <= 500)%nat) /\
  (forall st1,
      commit_all (split_statements sql) st0 = Some st1 ->
      exists w',
        execute_statements sql w = (Ok tt, w') /\
        w_store w' = st1 /\
        w_calls w'
        = w_calls w ++ DbConnect
                    :: map DbExecute (filter nonempty (split_statements sql)) /\
        w_log w' = w_log w).
Proof.
  intros Hconn.
  assert (Hc : connect w = (Ok tt, add_call DbConnect (put_store st0 w))).
  { unfold connect.
    now rewrite (bind_ok _ _ _ _ _ (on_store_eq _ _ _ _ _ Hconn)). }
  unfold execute_statements. rewrite (bind_ok _ _ _ _ _ Hc).
  split.
  - intros pre s post st1 st2 e Hsplit Hpre Hs Hfail. rewrite Hsplit.
    destruct (run_statements_fails s post e st2 Hs pre 0
                (add_call DbConnect (put_store st0 w)) st1 Hpre Hfail)
      as (w' & Hrun & Hst & _ & Hcalls & Hlog).
    exists w'. split; [exact Hrun|]. split; [exact Hst|].
    split; [|split; [|apply length_take]].
    + rewrite Hcalls. cbn [w_calls add_call put_store].
      now rewrite <- app_assoc.
    + rewrite Hlog. reflexivity.
  - intros st1 Hall.
    destruct (run_statements_all (split_statements sql) 0
                (add_call DbConnect (put_store st0 w)) st1 Hall)
      as (w' & Hrun & Hst & _ & Hcalls & Hlog).
    exists w'. split; [exact Hrun|]. rewrite Hst, Hcalls, Hlog. simpl.
    repeat split; try reflexivity. now rewrite <- app_assoc.
Qed.

(** C6, witnessed on the script of the executor example: the second of
    its two statements fails; the first one stays executed, and the report
    carries index 2 and the text of the second. *)
Lemma C6_statements_run_in_order_witness :
  exists w',
    @execute_statements (Sim.env (Runs.sql_fails_on "INSERT"))
      two_statement_script (Sim.start (Runs.sql_fails_on "INSERT") [])
    = (Raise (Exn "Error" "INSERT INTO t VALUES (1)"), w') /\
    Sim.executed (w_store w') = ["CREATE TABLE t (x INT)"%string] /\
    w_log w'
    = [ErrStatement 2 (Exn "Error" "INSERT INTO t VALUES (1)");
       ErrStatementText "INSERT INTO t VALUES (1)"].
Proof.
  destruct (@C6_statements_run_in_order (Sim.env (Runs.sql_fails_on "INSERT"))
              two_statement_script
              (Sim.start (Runs.sql_fails_on "INSERT") [])
              Sim.empty_store eq_refl) as [Hfail _].
  destruct (Hfail ["CREATE TABLE t (x INT)"%string]
                  "INSERT INTO t VALUES (1)"%string []
                  {| Sim.raw_files := [];
                     Sim.executed := ["CREATE TABLE t (x INT)"%string] |}
                  {| Sim.raw_files := [];
                     Sim.executed := ["CREATE TABLE t (x INT)"%string] |}
                  (Exn "Error" "INSERT INTO t VALUES (1)")
                  eq_refl eq_refl eq_refl eq_refl)
    as (w' & Hrun & Hst & _ & Hlog & _).
  exists w'. split; [exact Hrun|]. rewrite Hst, Hlog. split; reflexivity.
Defined.

(* ===================================================================== *)
(** * Row counts and stage deltas *)
(* ===================================================================== *)

Import Counting.

Lemma put_store_same {E : Env} (w : world) : put_store (w_store w) w = w.
Proof. destruct w; reflexivity. Qed.

(** [table_count] always returns, and returns 0 when the query raises. *)
Lemma table_count_returns {E : Env} (table : string) (w : world) :
  exists n w',
    table_count table w = (Ok n, w') /\
    (count_raises table (w_store w) -> n = 0) /\
    (n = 0 \/ exists st0 st1 c,
        db_connect (w_store w) = (st0, None) /\
        conn_execute (count_sql table) st0 = (st1, Ok c) /\
        fetchone_0 c = Some n).
Proof.
  unfold table_count, count_raises, try_except, connect, execute_sql, bind,
    on_store, of_status, of_result, ret, raise.
  destruct (db_connect (w_store w)) as [st0 [e|]] eqn:Hc; simpl.
  - eexists _, _. split; [reflexivity|]. auto.
  - destruct (conn_execute (count_sql table) st0) as [st1 [c|e]] eqn:Hq; simpl.
    + destruct (fetchone_0 c) as [n|] eqn:Hf.
      * eexists _, _. split; [reflexivity|]. split; [discriminate|].
        right. exists st0, st1, c. auto.
      * eexists _, _. split; [reflexivity|]. auto.
    + eexists _, _. split; [reflexivity|]. auto.
Qed.

Ltac bind_inv H :=
  unfold bind in H at 1;
  match type of H with
  | match ?c with _ => _ end = _ =>
      let a := fresh "a" in
      let e := fresh "e" in
      let w := fresh "w" in
      let Hc := fresh "Hstep" in
      destruct c as [[a|e] w] eqn:Hc; [| discriminate H]
  end.

(** What [table_count] returns is decided by the store it is run in: 0
    when the query raises, the count fetched when it does not. *)
Lemma table_count_zero {E : Env} table w n w' :
  table_count table w = (Ok n, w') ->
  count_raises table (w_store w) -> n = 0.
Proof.
  intros H Hraises.
  destruct (table_count_returns table w) as (n0 & w0 & H0 & Hz & _).
  rewrite H in H0. inversion H0; subst. exact (Hz Hraises).
Qed.

Lemma table_count_fetched {E : Env} table w n w' st0 st1 c m :
  table_count table w = (Ok n, w') ->
  db_connect (w_store w) = (st0, None) ->
  conn_execute (count_sql table) st0 = (st1, Ok c) ->
  fetchone_0 c = Some m ->
  n = m /\ w_store w' = st1.
Proof.
  unfold table_count, try_except, connect, execute_sql, bind, on_store,
    of_status, of_result, ret, raise.
  intros H Hc Hq Hf. rewrite Hc in H. simpl in H. rewrite Hq in H.
  simpl in H. rewrite Hf in H. inversion H; subst. split; reflexivity.
Qed.

(** Every run of [transform_to_silver] that finds raw files and returns
    is the chain of its steps: the probe, the two counts before, the two
    models, the two counts after; the statistics are computed from these
    four counts. *)
Lemma transform_to_silver_steps {E : Env} w r w' :
  fs_rglob_json bronze_path (w_store w) <> [] ->
  transform_to_silver w = (Ok r, w') ->
  exists w1 events_before w2 items_before w3 w4 w5 events_after w6
         items_after,
    probe_bronze_json (add_call (FsRglobJson bronze_path) w) = (Ok tt, w1) /\
    table_count "silver_events" w1 = (Ok events_before, w2) /\
    table_count "silver_items" w2 = (Ok items_before, w3) /\
    run_model_logged "silver_events" [("bronze_path", bronze_path)] w3
    = (Ok tt, w4) /\
    run_model_logged "silver_items" [("bronze_path", bronze_path)] w4
    = (Ok tt, w5) /\
    table_count "silver_events" w5 = (Ok events_after, w6) /\
    table_count "silver_items" w6 = (Ok items_after, w') /\
    r = {| events_inserted := events_after - events_before;
           items_inserted := items_after - items_before;
           total_events := events_after;
           total_items := items_after |}.
Proof.
  intros Hfiles Hrun.
  unfold transform_to_silver in Hrun.
  erewrite bind_ok in Hrun by (apply on_store_eq; reflexivity).
  rewrite put_store_same in Hrun.
  destruct (fs_rglob_json bronze_path (w_store w)) as [|f fs];
    [congruence|].
  do 7 bind_inv Hrun. inversion Hrun; subst.
  repeat match goal with u : unit |- _ => destruct u end.
  eexists _, _, _, _, _, _, _, _, _, _.
  repeat (split; [first [eassumption | reflexivity]|]). reflexivity.
Qed.

(** So is every run of [transform_to_gold] that returns: four counts
    before, the four models, four counts after. *)
Lemma transform_to_gold_steps {E : Env} w r w' :
  transform_to_gold w = (Ok r, w') ->
  exists facts_before w1 items_before w2 dim_items_before w3
         dim_users_before w4 w5 w6 w7 w8
         facts_after w9 items_after w10 dim_items_after w11 dim_users_after,
    table_count "fact_events" w = (Ok facts_before, w1) /\
    table_count "fact_event_items" w1 = (Ok items_before, w2) /\
    table_count "dim_items" w2 = (Ok dim_items_before, w3) /\
    table_count "dim_users" w3 = (Ok dim_users_before, w4) /\
    run_model "gold_fact_events" [] w4 = (Ok tt, w5) /\
    run_model "gold_fact_items" [] w5 = (Ok tt, w6) /\
    run_model "gold_dim_items" [] w6 = (Ok tt, w7) /\
    run_model "gold_dim_users" [] w7 = (Ok tt, w8) /\
    table_count "fact_events" w8 = (Ok facts_after, w9) /\
    table_count "fact_event_items" w9 = (Ok items_after, w10) /\
    table_count "dim_items" w10 = (Ok dim_items_after, w11) /\
    table_count "dim_users" w11 = (Ok dim_users_after, w') /\
    r = {| fact_events_inserted := facts_after - facts_before;
           fact_items_inserted := items_after - items_before;
           dim_items_inserted := dim_items_after - dim_items_before;
           dim_users_inserted := dim_users_after - dim_users_before |}.
Proof.
  intros Hrun. unfold transform_to_gold in Hrun.
  do 12 bind_inv Hrun. inversion Hrun; subst.
  repeat match goal with u : unit |- _ => destruct u end.
  eexists _, _, _, _, _, _, _, _, _, _, _, _, _, _, _, _, _, _, _.
  repeat (split; [first [eassumption | reflexivity]|]). reflexivity.
Qed.

(** C10: [table_count] is total: for every table name and every state of
    the store it returns an integer without raising; the integer is 0
    whenever the underlying query raises (a table that does not exist,
    a connection that cannot be opened), and otherwise it is the count
    fetched, which is not negative when the store's counts are not.
    Consequently the stage deltas start from 0 for a table that was never
    created.  Every run of [transform_to_silver] that finds raw files and
    returns is the chain of its steps, from the world it starts in to the
    world it ends in: the probe, [table_count] on [silver_events] and on
    [silver_items], the two models, and the two counts again; each delta
    is the count after minus the count before, and where the count before
    raises it is 0 and the delta is the whole count found after the
    models.  The same holds of [transform_to_gold] and its four tables. *)
Theorem C10_table_count_total {E : Env} :
  (forall c n, fetchone_0 c = Some n -> 0 <= n) ->
  (forall table w,
      exists n w',
        table_count table w = (Ok n, w') /\
        0 <= n /\
        (count_raises table (w_store w) -> n = 0) /\
        (forall st0 st1 c m,
            db_connect (w_store w) = (st0, None) ->
            conn_execute (count_sql table) st0 = (st1, Ok c) ->
            fetchone_0 c = Some m ->
            n = m)) /\
  (forall w r w',
      fs_rglob_json bronze_path (w_store w) <> [] ->
      transform_to_silver w = (Ok r, w') ->
      exists w1 events_before w2 items_before w3 w4 w5 events_after w6
             items_after,
        probe_bronze_json (add_call (FsRglobJson bronze_path) w)
        = (Ok tt, w1) /\
        table_count "silver_events" w1 = (Ok events_before, w2) /\
        table_count "silver_items" w2 = (Ok items_before, w3) /\
        run_model_logged "silver_events" [("bronze_path", bronze_path)] w3
        = (Ok tt, w4) /\
        run_model_logged "silver_items" [("bronze_path", bronze_path)] w4
        = (Ok tt, w5) /\
        table_count "silver_events" w5 = (Ok events_after, w6) /\
        table_count "silver_items" w6 = (Ok items_after, w') /\
        r = {| events_inserted := events_after - events_before;
               items_inserted := items_after - items_before;
               total_events := events_after;
               total_items := items_after |} /\
        (count_raises "silver_events" (w_store w1) ->
         events_before = 0 /\ events_inserted r = events_after) /\
        (count_raises "silver_items" (w_store w2) ->
         items_before = 0 /\ items_inserted r = items_after)) /\
  (forall w r w',
      transform_to_gold w = (Ok r, w') ->
      exists facts_before w1 items_before w2 dim_items_before w3
             dim_users_before w4 w5 w6 w7 w8
             facts_after w9 items_after w10 dim_items_after w11
             dim_users_after,
        table_count "fact_events" w = (Ok facts_before, w1) /\
        table_count "fact_event_items" w1 = (Ok items_before, w2) /\
        table_count "dim_items" w2 = (Ok dim_items_before, w3) /\
        table_count "dim_users" w3 = (Ok dim_users_before, w4) /\
        run_model "gold_fact_events" [] w4 = (Ok tt, w5) /\
        run_model "gold_fact_items" [] w5 = (Ok tt, w6) /\
        run_model "gold_dim_items" [] w6 = (Ok tt, w7) /\
        run_model "gold_dim_users" [] w7 = (Ok tt, w8) /\
        table_count "fact_events" w8 = (Ok facts_after, w9) /\
        table_count "fact_event_items" w9 = (Ok items_after, w10) /\
        table_count "dim_items" w10 = (Ok dim_items_after, w11) /\
        table_count "dim_users" w11 = (Ok dim_users_after, w') /\
        r = {| fact_events_inserted := facts_after - facts_before;
               fact_items_inserted := items_after - items_before;
               dim_items_inserted := dim_items_after - dim_items_before;
               dim_users_inserted := dim_users_after - dim_users_before |} /\
        (count_raises "fact_events" (w_store w) ->
         facts_before = 0 /\ fact_events_inserted r = facts_after) /\
        (count_raises "fact_event_items" (w_store w1) ->
         items_before = 0 /\ fact_items_inserted r = items_after) /\
        (count_raises "dim_items" (w_store w2) ->
         dim_items_before = 0 /\ dim_items_inserted r = dim_items_after) /\
        (count_raises "dim_users" (w_store w3) ->
         dim_users_before = 0 /\ dim_users_inserted r = dim_users_after)).
Proof.
  intros Hnn. split; [|split].
  - intros table w.
    destruct (table_count_returns table w) as (n & w' & Hrun & Hz & Hor).
    exists n, w'. split; [exact Hrun|]. split; [|split; [exact Hz|]].
    + destruct Hor as [-> | (st0 & st1 & c & _ & _ & Hf)]; [lia|].
      exact (Hnn _ _ Hf).
    + intros st0 st1 c m Hc Hq Hf.
      exact (proj1 (table_count_fetched _ _ _ _ _ _ _ _ Hrun Hc Hq Hf)).
  - intros w r w' Hfiles Hrun.
    destruct (transform_to_silver_steps _ _ _ Hfiles Hrun)
      as (w1 & eb & w2 & ib & w3 & w4 & w5 & ea & w6 & ia
          & Hp & Heb & Hib & Hm1 & Hm2 & Hea & Hia & ->).
    exists w1, eb, w2, ib, w3, w4, w5, ea, w6, ia.
    repeat (split; [assumption || reflexivity|]).
    split; intros Hraises; cbn [events_inserted items_inserted].
    + rewrite (table_count_zero _ _ _ _ Heb Hraises). split; [reflexivity|lia].
    + rewrite (table_count_zero _ _ _ _ Hib Hraises). split; [reflexivity|lia].
  - intros w r w' Hrun.
    destruct (transform_to_gold_steps _ _ _ Hrun)
      as (fb & w1 & ib & w2 & dib & w3 & dub & w4 & w5 & w6 & w7 & w8
          & fa & w9 & ia & w10 & dia & w11 & dua
          & Hfb & Hib & Hdib & Hdub & Hm1 & Hm2 & Hm3 & Hm4
          & Hfa & Hia & Hdia & Hdua & ->).
    exists fb, w1, ib, w2, dib, w3, dub, w4, w5, w6, w7, w8,
           fa, w9, ia, w10, dia, w11, dua.
    repeat (split; [assumption || reflexivity|]).
    cbn [fact_events_inserted fact_items_inserted dim_items_inserted
         dim_users_inserted].
    split; [|split; [|split]]; intros Hraises.
    + rewrite (table_count_zero _ _ _ _ Hfb Hraises). split; [reflexivity|lia].
    + rewrite (table_count_zero _ _ _ _ Hib Hraises). split; [reflexivity|lia].
    + rewrite (table_count_zero _ _ _ _ Hdib Hraises). split; [reflexivity|lia].
    + rewrite (table_count_zero _ _ _ _ Hdub Hraises). split; [reflexivity|lia].
Qed.

(** C10, witnessed: in a store where the count query on [fact_events]
    fails, [table_count] returns 0. *)
Lemma C10_table_count_total_witness :
  exists n w',
    @table_count (Sim.env (Runs.sql_fails_on "FROM fact_events"))
      "fact_events" (Sim.start (Runs.sql_fails_on "FROM fact_events") [])
    = (Ok n, w') /\ n = 0.
Proof.
  assert (Hnn : forall (c : @Cursor (Sim.env (Runs.sql_fails_on
                                                "FROM fact_events"))) n,
             fetchone_0 c = Some n -> 0 <= n).
  { intros c n H. simpl in H. inversion H. lia. }
  destruct (@C10_table_count_total
              (Sim.env (Runs.sql_fails_on "FROM fact_events")) Hnn)
    as [Htotal _].
  destruct (Htotal "fact_events"%string
                   (Sim.start (Runs.sql_fails_on "FROM fact_events") []))
    as (n & w' & Hrun & _ & Hzero & _).
  exists n, w'. split; [exact Hrun|]. apply Hzero. exact I.
Defined.

(** The baseline at work: where the count of [fact_events] cannot be
    taken before the models (its query fails throughout), the delta
    reported is the count after them, here 0 as well. *)
Example gold_baseline_run :
  exists r w',
    @transform_to_gold (Sim.env (Runs.sql_fails_on "FROM fact_events"))
      (Sim.start (Runs.sql_fails_on "FROM fact_events") [])
    = (Ok r, w') /\
    fact_events_inserted r = 0.
Proof. eexists _, _. split; [vm_compute; reflexivity|]. reflexivity. Qed.

(* ===================================================================== *)
(** * Receiving messages ([SQSConsumer.receive_messages]) *)
(* ===================================================================== *)

Lemma parse_message_frame {E : Env} msg w r w' :
  parse_message msg w = (r, w') ->
  w_store w' = w_store w /\ w_calls w' = w_calls w /\
  w_queue w' = w_queue w.
Proof.
  unfold parse_message.
  destruct (json_loads (Body msg)) as [b|e].
  - intros H; inversion H; auto.
  - destruct (is_class "JSONDecodeError" e); intros H; inversion H; auto.
Qed.

Lemma parse_messages_frame {E : Env} msgs :
  forall acc w r w',
    parse_messages msgs acc w = (r, w') ->
    w_store w' = w_store w /\ w_calls w' = w_calls w /\
    w_queue w' = w_queue w /\
    (forall res, r = Ok res ->
                 List.length res = (List.length acc + List.length msgs)%nat).
Proof.
  induction msgs as [|m msgs IH]; intros acc w r w' H; simpl in H.
  - inversion H; subst. repeat split. intros res Hres; inversion Hres.
    simpl. lia.
  - unfold bind in H at 1.
    destruct (parse_message m w) as [[pm|e] w1] eqn:Hp;
      destruct (parse_message_frame _ _ _ _ Hp) as (Hs & Hc & Hq).
    + destruct (IH _ _ _ _ H) as (Hs' & Hc' & Hq' & Hl).
      rewrite Hs', Hc', Hq'. repeat split; auto.
      intros res Hres. rewrite (Hl _ Hres), length_app. simpl. lia.
    + inversion H; subst. repeat split; auto. discriminate.
Qed.

(** What one call of [receive_messages] does: one request to the queue,
    nothing on the store, and as many messages returned as received. *)
Lemma receive_messages_frame {E : Env} a b c w r w' :
  receive_messages a b c w = (r, w') ->
  w_store w' = w_store w /\
  w_calls w'
  = w_calls w ++ [SqsReceive (Z.min (or_default a MAX_MESSAGES_PER_BATCH) 10)
                             (or_default b VISIBILITY_TIMEOUT)
                             (or_default c WAIT_TIME_SECONDS)] /\
  (forall res, r = Ok res ->
     exists q l,
       sqs_receive_message (Z.min (or_default a MAX_MESSAGES_PER_BATCH) 10)
         (or_default b VISIBILITY_TIMEOUT) (or_default c WAIT_TIME_SECONDS)
         (w_queue w) = (q, Ok l) /\
       List.length res = List.length l).
Proof.
  unfold receive_messages, try_except.
  set (n := Z.min (or_default a MAX_MESSAGES_PER_BATCH) 10).
  set (vt := or_default b VISIBILITY_TIMEOUT).
  set (wt := or_default c WAIT_TIME_SECONDS).
  destruct (sqs_receive_message n vt wt (w_queue w)) as [q [l|e]] eqn:Hrecv.
  - erewrite bind_ok by (apply on_queue_eq; exact Hrecv).
    erewrite bind_ok by reflexivity.
    destruct (parse_messages l [] (add_call (SqsReceive n vt wt)
                                            (put_queue q w)))
      as [[res|e] w1] eqn:Hparse;
      destruct (parse_messages_frame _ _ _ _ _ Hparse) as (Hs & Hc & _ & Hl).
    + intros H; inversion H; subst. rewrite Hs, Hc. repeat split.
      intros res' Hres; inversion Hres; subst.
      exists q, l. split; [reflexivity|]. exact (Hl _ eq_refl).
    + destruct (is_class "ClientError" e); intros H; inversion H; subst;
        simpl; rewrite Hs, Hc; repeat split; discriminate.
  - erewrite bind_ok by (apply on_queue_eq; exact Hrecv).
    erewrite bind_raise by reflexivity.
    destruct (is_class "ClientError" e); intros H; inversion H; subst;
      repeat split; discriminate.
Qed.

(** C9: every call of [receive_messages] asks the queue for
    [min(max_messages, 10)] messages, where an absent (or zero)
    [max_messages] stands for the configured 20: the number asked for is
    never above 10, and it is exactly 10 by default.  The queue returning
    no more messages than asked for, the list returned holds at most 10
    messages. *)
Theorem C9_at_most_ten_messages {E : Env}
    (max_messages visibility_timeout wait_time_seconds : option Z)
    (w : world) (r : result (list message)) (w' : world) :
  (forall n vt wt q q' l,
      sqs_receive_message n vt wt q = (q', Ok l) -> len l <= n) ->
  receive_messages max_messages visibility_timeout wait_time_seconds w
  = (r, w') ->
  (exists n vt wt,
      w_calls w' = w_calls w ++ [SqsReceive n vt wt] /\
      n = Z.min (or_default max_messages MAX_MESSAGES_PER_BATCH) 10 /\
      n <= 10 /\
      (max_messages = None -> n = 10)) /\
  (forall messages, r = Ok messages -> len messages <= 10).
Proof.
  intros Hsqs Hrun.
  destruct (receive_messages_frame _ _ _ _ _ _ Hrun) as (_ & Hcalls & Hlen).
  split.
  - eexists _, _, _. split; [exact Hcalls|]. split; [reflexivity|].
    split; [lia|]. intros ->. reflexivity.
  - intros messages Hr. destruct (Hlen _ Hr) as (q & l & Hrecv & Hl).
    unfold len. rewrite Hl. pose proof (Hsqs _ _ _ _ _ _ Hrecv) as Hb.
    unfold len in Hb. lia.
Qed.

Lemma sim_receive_bounded n vt wt q q' l :
  Sim.sim_receive n vt wt q = (q', Ok l) -> len l <= n.
Proof.
  unfold Sim.sim_receive.
  destruct ((1 <=? n) && (n <=? 10)) eqn:Hn; [|discriminate].
  intros H; inversion H; subst. unfold len.
  rewrite length_firstn. lia.
Qed.

(** C9, witnessed: twelve messages wait in the queue; a call with the
    default arguments asks for 10 and returns 10. *)
Lemma C9_at_most_ten_messages_witness :
  exists r w',
    @receive_messages (Sim.env Sim.plain) None None None
      (Sim.start Sim.plain Backlog.twelve) = (r, w') /\
    (forall messages, r = Ok messages -> len messages <= 10).
Proof.
  eexists _, _. split; [reflexivity|].
  eapply (@C9_at_most_ten_messages (Sim.env Sim.plain) None None None
            (Sim.start Sim.plain Backlog.twelve)).
  - exact sim_receive_bounded.
  - reflexivity.
Defined.

(* ===================================================================== *)
(** * The orchestrator ([process_batch], [run_pipeline]) *)
(* ===================================================================== *)

(** C8: when the batch received is empty, [process_batch] returns the
    statistics with every counter zero; the store (raw files and
    database) is as it was: the only call made is the request to the
    queue. *)
Theorem C8_empty_batch {E : Env} (target : string) (del : bool)
    (w w0 : world) :
  receive_messages None None None w = (Ok [], w0) ->
  process_batch target del w = (Ok zero_stats, w0) /\
  w_store w0 = w_store w /\
  w_calls w0 = w_calls w ++ [SqsReceive 10 30 20].
Proof.
  intros Hrecv.
  destruct (receive_messages_frame _ _ _ _ _ _ Hrecv) as (Hs & Hc & _).
  unfold process_batch. rewrite (bind_ok _ _ _ _ _ Hrecv).
  repeat split; assumption.
Qed.

(** C8, witnessed on an empty queue: nothing is written, nothing is
    executed. *)
Lemma C8_empty_batch_witness :
  @process_batch (Sim.env Sim.plain) "gold" true (Sim.start Sim.plain [])
  = (Ok zero_stats,
     add_call (SqsReceive 10 30 20) (Sim.start Sim.plain [])) /\
  Sim.raw_files (w_store (add_call (SqsReceive 10 30 20)
                                   (Sim.start Sim.plain []))) = [] /\
  Sim.executed (w_store (add_call (SqsReceive 10 30 20)
                                  (Sim.start Sim.plain []))) = [].
Proof.
  destruct (@C8_empty_batch (Sim.env Sim.plain) "gold" true
              (Sim.start Sim.plain [])
              (add_call (SqsReceive 10 30 20) (Sim.start Sim.plain []))
              eq_refl) as (Hrun & _ & _).
  split; [exact Hrun|]. split; reflexivity.
Defined.

(** ** Snapshot export *)

Lemma connect_ok {E : Env} w st0 :
  db_connect (w_store w) = (st0, None) ->
  connect w = (Ok tt, add_call DbConnect (put_store st0 w)).
Proof.
  intros H. unfold connect.
  now rewrite (bind_ok _ _ _ _ _ (on_store_eq _ _ _ _ _ H)).
Qed.

(** A failed partitioned export is logged and replaced by a single-file
    export. *)
Lemma export_falls_back {E : Env} table dir col w st0 st1 st2 st3 e c :
  nonempty col = true ->
  db_connect (w_store w) = (st0, None) ->
  fs_mkdir dir st0 = (st1, None) ->
  conn_execute (copy_partitioned_sql table dir col) st1 = (st2, Raise e) ->
  conn_execute
    (copy_single_sql table
       (dir ++ "/data_" ++ utcnow_stamp st1 ++ ".parquet")%string) st2
  = (st3, Ok c) ->
  exists w',
    export_to_parquet table dir (Some col) w = (Ok tt, w') /\
    w_store w' = st3 /\
    w_log w' = w_log w ++ [WarnPartitionedExport e].
Proof.
  intros Hcol Hconn Hmk Hpart Hsingle.
  unfold export_to_parquet.
  rewrite (bind_ok _ _ _ _ _ (connect_ok _ _ Hconn)).
  erewrite bind_ok.
  2:{ erewrite bind_ok by (apply on_store_eq; exact Hmk). reflexivity. }
  erewrite bind_ok by reflexivity. cbn [w_store add_call put_store].
  rewrite Hcol.
  erewrite try_raise.
  2:{ erewrite bind_raise; [reflexivity|].
      apply execute_sql_raise. exact Hpart. }
  erewrite bind_ok by reflexivity.
  erewrite bind_ok by (apply execute_sql_ok; exact Hsingle).
  eexists. split; [reflexivity|]. split; reflexivity.
Qed.

(** A failed single-file export raises; nothing is logged here. *)
Lemma export_single_raises {E : Env} table dir partition_col w st0 st1 st2 e :
  partition_col = None \/ partition_col = Some ""%string ->
  db_connect (w_store w) = (st0, None) ->
  fs_mkdir dir st0 = (st1, None) ->
  conn_execute
    (copy_single_sql table
       (dir ++ "/data_" ++ utcnow_stamp st1 ++ ".parquet")%string) st1
  = (st2, Raise e) ->
  exists w',
    export_to_parquet table dir partition_col w = (Raise e, w') /\
    w_store w' = st2 /\
    w_log w' = w_log w.
Proof.
  intros Hcol Hconn Hmk Hsingle.
  unfold export_to_parquet.
  rewrite (bind_ok _ _ _ _ _ (connect_ok _ _ Hconn)).
  erewrite bind_ok.
  2:{ erewrite bind_ok by (apply on_store_eq; exact Hmk). reflexivity. }
  erewrite bind_ok by reflexivity. cbn [w_store add_call put_store].
  destruct Hcol as [-> | ->]; cbn [nonempty];
    (erewrite bind_raise by (apply execute_sql_raise; exact Hsingle));
    eexists; (split; [reflexivity|]); split; reflexivity.
Qed.

(** So does a failed fallback, after the warning. *)
Lemma export_fallback_raises {E : Env}
    table dir col w st0 st1 st2 st3 e e' :
  nonempty col = true ->
  db_connect (w_store w) = (st0, None) ->
  fs_mkdir dir st0 = (st1, None) ->
  conn_execute (copy_partitioned_sql table dir col) st1 = (st2, Raise e) ->
  conn_execute
    (copy_single_sql table
       (dir ++ "/data_" ++ utcnow_stamp st1 ++ ".parquet")%string) st2
  = (st3, Raise e') ->
  exists w',
    export_to_parquet table dir (Some col) w = (Raise e', w') /\
    w_store w' = st3 /\
    w_log w' = w_log w ++ [WarnPartitionedExport e].
Proof.
  intros Hcol Hconn Hmk Hpart Hsingle.
  unfold export_to_parquet.
  rewrite (bind_ok _ _ _ _ _ (connect_ok _ _ Hconn)).
  erewrite bind_ok.
  2:{ erewrite bind_ok by (apply on_store_eq; exact Hmk). reflexivity. }
  erewrite bind_ok by reflexivity. cbn [w_store add_call put_store].
  rewrite Hcol.
  erewrite try_raise.
  2:{ erewrite bind_raise; [reflexivity|].
      apply execute_sql_raise. exact Hpart. }
  erewrite bind_ok by reflexivity.
  erewrite bind_raise by (apply execute_sql_raise; exact Hsingle).
  eexists. split; [reflexivity|]. split; reflexivity.
Qed.

(** An export that cannot open the connection, or cannot create its
    directory, raises before any COPY. *)
Lemma export_connect_raises {E : Env} table dir partition_col w st0 e :
  db_connect (w_store w) = (st0, Some e) ->
  exists w',
    export_to_parquet table dir partition_col w = (Raise e, w') /\
    w_store w' = st0 /\
    w_log w' = w_log w.
Proof.
  intros Hconn. unfold export_to_parquet.
  erewrite bind_raise.
  2:{ unfold connect.
      erewrite bind_ok by (apply on_store_eq; exact Hconn). reflexivity. }
  eexists. split; [reflexivity|]. split; reflexivity.
Qed.

Lemma export_mkdir_raises {E : Env} table dir partition_col w st0 st1 e :
  db_connect (w_store w) = (st0, None) ->
  fs_mkdir dir st0 = (st1, Some e) ->
  exists w',
    export_to_parquet table dir partition_col w = (Raise e, w') /\
    w_store w' = st1 /\
    w_log w' = w_log w.
Proof.
  intros Hconn Hmk. unfold export_to_parquet.
  rewrite (bind_ok _ _ _ _ _ (connect_ok _ _ Hconn)).
  erewrite bind_raise.
  2:{ erewrite bind_ok by (apply on_store_eq; exact Hmk). reflexivity. }
  eexists. split; [reflexivity|]. split; reflexivity.
Qed.

(** A sequence raises when its first step does, or when its first step
    returns and the rest raises. *)
Lemma seq_raises {E : Env} {B} (c : M unit) (k : M B) w e w' :
  bind c (fun _ => k) w = (Raise e, w') <->
  c w = (Raise e, w') \/ exists w1, c w = (Ok tt, w1) /\ k w1 = (Raise e, w').
Proof.
  unfold bind. destruct (c w) as [[[]|e1] w1]; split.
  - intros H. right. exists w1. split; [reflexivity | exact H].
  - intros [H | (w2 & H1 & H2)]; [discriminate H|].
    inversion H1; subst. exact H2.
  - intros H. inversion H; subst. now left.
  - intros [H | (w2 & H1 & H2)]; [|discriminate H1].
    inversion H; subst. reflexivity.
Qed.

Lemma exists_iff {A} (P Q : A -> Prop) :
  (forall x, P x <-> Q x) -> (exists x, P x) <-> (exists x, Q x).
Proof.
  intros H. split; intros [x Hx]; exists x; now apply H.
Qed.

(** The export stages raise exactly when one of their exports does. *)
Lemma export_silver_raises {E : Env} w e w' :
  export_silver_to_parquet w = (Raise e, w') <->
  export_to_parquet "silver_events" (silver_path ++ "/silver_events")
    (Some "event_timestamp"%string) w = (Raise e, w') \/
  exists w1,
    export_to_parquet "silver_events" (silver_path ++ "/silver_events")
      (Some "event_timestamp"%string) w = (Ok tt, w1) /\
    export_to_parquet "silver_items" (silver_path ++ "/silver_items")
      None w1 = (Raise e, w').
Proof. unfold export_silver_to_parquet. apply seq_raises. Qed.

Lemma export_gold_raises {E : Env} w e w' :
  export_gold_to_parquet w = (Raise e, w') <->
  export_to_parquet "fact_events" (gold_path ++ "/fact_events")
    (Some "event_date"%string) w = (Raise e, w') \/
  exists w1,
    export_to_parquet "fact_events" (gold_path ++ "/fact_events")
      (Some "event_date"%string) w = (Ok tt, w1) /\
    (export_to_parquet "fact_event_items"
       (gold_path ++ "/fact_event_items") None w1 = (Raise e, w') \/
     exists w2,
       export_to_parquet "fact_event_items"
         (gold_path ++ "/fact_event_items") None w1 = (Ok tt, w2) /\
       (export_to_parquet "dim_items" (gold_path ++ "/dim_items")
          None w2 = (Raise e, w') \/
        exists w3,
          export_to_parquet "dim_items" (gold_path ++ "/dim_items")
            None w2 = (Ok tt, w3) /\
          export_to_parquet "dim_users" (gold_path ++ "/dim_users")
            None w3 = (Raise e, w'))).
Proof.
  unfold export_gold_to_parquet.
  rewrite seq_raises.
  apply or_iff_compat_l. apply exists_iff; intros w1. apply and_iff_compat_l.
  rewrite seq_raises.
  apply or_iff_compat_l. apply exists_iff; intros w2. apply and_iff_compat_l.
  apply seq_raises.
Qed.

(** An exception raised by the export of the structured tables ends the
    batch. *)
Lemma silver_export_failure_ends_batch {E : Env}
    target del w m msgs w0 paths msgs' w1 sr w2 e w3 :
  SAVE_PARQUET = true ->
  receive_messages None None None w = (Ok (m :: msgs), w0) ->
  (target =? "bronze")%string = false ->
  save_batch (m :: msgs) w0 = (Ok (paths, msgs'), w1) ->
  transform_to_silver w1 = (Ok sr, w2) ->
  export_silver_to_parquet w2 = (Raise e, w3) ->
  process_batch target del w = (Raise e, add_log (ErrBatch e) w3).
Proof.
  intros Hsave Hrecv Htarget Hbronze Hsilver Hexport.
  unfold process_batch. rewrite (bind_ok _ _ _ _ _ Hrecv).
  erewrite try_raise; [reflexivity|].
  unfold process_layers. rewrite (bind_ok _ _ _ _ _ Hbronze).
  cbv beta iota. rewrite Htarget.
  rewrite (bind_ok _ _ _ _ _ Hsilver). rewrite Hsave.
  now rewrite (bind_raise _ _ _ _ _ Hexport).
Qed.

(** So does an exception raised by the export of the fact and dimension
    tables: the deletion of the messages is not reached. *)
Lemma gold_export_failure_ends_batch {E : Env}
    target del w m msgs w0 paths msgs' w1 sr w2 w3 gr w4 e w5 :
  SAVE_PARQUET = true ->
  receive_messages None None None w = (Ok (m :: msgs), w0) ->
  (target =? "bronze")%string = false ->
  (target =? "silver")%string = false ->
  save_batch (m :: msgs) w0 = (Ok (paths, msgs'), w1) ->
  transform_to_silver w1 = (Ok sr, w2) ->
  export_silver_to_parquet w2 = (Ok tt, w3) ->
  transform_to_gold w3 = (Ok gr, w4) ->
  export_gold_to_parquet w4 = (Raise e, w5) ->
  process_batch target del w = (Raise e, add_log (ErrBatch e) w5).
Proof.
  intros Hsave Hrecv Htb Hts Hbronze Hsilver Hexs Hgold Hexg.
  unfold process_batch. rewrite (bind_ok _ _ _ _ _ Hrecv).
  erewrite try_raise; [reflexivity|].
  unfold process_layers. rewrite (bind_ok _ _ _ _ _ Hbronze).
  cbv beta iota. rewrite Htb.
  rewrite (bind_ok _ _ _ _ _ Hsilver). rewrite Hsave.
  rewrite (bind_ok _ _ _ _ _ Hexs). rewrite Hts.
  rewrite (bind_ok _ _ _ _ _ Hgold).
  now rewrite (bind_raise _ _ _ _ _ Hexg).
Qed.

(** C4, as stated, fails: the single-file export of [silver_items] fails
    after the structuring scripts have run; [process_batch], asked to
    delete after processing, raises: the modeling scripts are never run
    and no message is deleted, although the structuring stage succeeded. *)
Lemma C4_export_failure_aborts_the_batch :
  exists e w',
    @process_batch (Sim.env (Runs.sql_fails_on "silver_items/data_"))
      "gold" true
      (Sim.start (Runs.sql_fails_on "silver_items/data_")
                 [Sim.entry "m1" "[{a=1}]"])
    = (Raise e, w') /\
    Runs.sent "INSERT sql/models/silver_events.sql" (w_calls w') = true /\
    Runs.sent "INSERT sql/models/silver_items.sql" (w_calls w') = true /\
    Runs.sent "INSERT sql/models/gold_fact_events.sql" (w_calls w') = false /\
    deletions (w_calls w') = [] /\
    map ReceiptHandle (w_queue w') = ["rh-m1"%string].
Proof. eexists _, _. split; [vm_compute; reflexivity|]. repeat split. Qed.

(** A run of the fallback: the partitioned export of [silver_events]
    fails, the export as a whole succeeds and the failure is a warning. *)
Example export_fallback_run :
  exists w',
    @export_to_parquet (Sim.env (Runs.sql_fails_on "PARTITION_BY"))
      "silver_events" "data/silver/silver_events" (Some "event_timestamp")
      (Sim.start (Runs.sql_fails_on "PARTITION_BY") [])
    = (Ok tt, w') /\
    Sim.executed (w_store w')
    = [copy_single_sql "silver_events"
         "data/silver/silver_events/data_t.parquet"] /\
    w_log w'
    = [WarnPartitionedExport
         (Exn "Error"
              (copy_partitioned_sql "silver_events"
                 "data/silver/silver_events" "event_timestamp"))].
Proof. eexists. split; [vm_compute; reflexivity|]. split; reflexivity. Qed.

(** A run of a failing fallback: both exports of [silver_events] fail;
    the first failure is a warning, the second is raised, and
    [process_batch] ends there: the modeling scripts are not run and no
    message is deleted.  (The first two records of the log are the
    warnings of the two structuring models, whose files here hold no
    placeholder.) *)
Example export_fallback_failure_run :
  exists e w',
    @process_batch
      (Sim.env (Runs.sql_fails_on "COPY (SELECT * FROM silver_events)"))
      "gold" true
      (Sim.start (Runs.sql_fails_on "COPY (SELECT * FROM silver_events)")
                 [Sim.entry "m1" "[{a=1}]"])
    = (Raise e, w') /\
    e = Exn "Error"
          (copy_single_sql "silver_events"
             "data/silver/silver_events/data_t.parquet") /\
    skipn 2 (w_log w')
    = [WarnPartitionedExport
         (Exn "Error"
              (copy_partitioned_sql "silver_events"
                 "data/silver/silver_events" "event_timestamp"));
       ErrBatch e] /\
    Runs.sent "INSERT sql/models/gold_fact_events.sql" (w_calls w') = false /\
    deletions (w_calls w') = [] /\
    map ReceiptHandle (w_queue w') = ["rh-m1"%string].
Proof. eexists _, _. split; [vm_compute; reflexivity|]. repeat split. Qed.

(** C4, amended: a failure of the partitioned export is only logged (as a
    warning) and a single-file export is made instead; a failure of a
    single-file export, the fallback included, is raised out of
    [export_to_parquet], as is a failure to open the connection or to
    create the directory.  An export stage raises exactly when one of its
    exports does, the exports before it having returned.  An exception
    raised by an export stage is logged by [process_batch], the rest of
    the batch is skipped (no later stage, no deletion of the messages:
    the calls end with those of the export) and the exception is
    re-raised.  In no case is anything undone: the store is left as the
    last call left it. *)
Theorem C4_export_failures {E : Env} :
  (forall table dir col w st0 st1 st2 st3 e c,
      nonempty col = true ->
      db_connect (w_store w) = (st0, None) ->
      fs_mkdir dir st0 = (st1, None) ->
      conn_execute (copy_partitioned_sql table dir col) st1
      = (st2, Raise e) ->
      conn_execute
        (copy_single_sql table
           (dir ++ "/data_" ++ utcnow_stamp st1 ++ ".parquet")%string) st2
      = (st3, Ok c) ->
      exists w',
        export_to_parquet table dir (Some col) w = (Ok tt, w') /\
        w_store w' = st3 /\
        w_log w' = w_log w ++ [WarnPartitionedExport e]) /\
  (forall table dir col w st0 st1 st2 st3 e e',
      nonempty col = true ->
      db_connect (w_store w) = (st0, None) ->
      fs_mkdir dir st0 = (st1, None) ->
      conn_execute (copy_partitioned_sql table dir col) st1
      = (st2, Raise e) ->
      conn_execute
        (copy_single_sql table
           (dir ++ "/data_" ++ utcnow_stamp st1 ++ ".parquet")%string) st2
      = (st3, Raise e') ->
      exists w',
        export_to_parquet table dir (Some col) w = (Raise e', w') /\
        w_store w' = st3 /\
        w_log w' = w_log w ++ [WarnPartitionedExport e]) /\
  (forall table dir partition_col w st0 st1 st2 e,
      partition_col = None \/ partition_col = Some ""%string ->
      db_connect (w_store w) = (st0, None) ->
      fs_mkdir dir st0 = (st1, None) ->
      conn_execute
        (copy_single_sql table
           (dir ++ "/data_" ++ utcnow_stamp st1 ++ ".parquet")%string) st1
      = (st2, Raise e) ->
      exists w',
        export_to_parquet table dir partition_col w = (Raise e, w') /\
        w_store w' = st2 /\
        w_log w' = w_log w) /\
  (forall table dir partition_col w st0 e,
      db_connect (w_store w) = (st0, Some e) ->
      exists w',
        export_to_parquet table dir partition_col w = (Raise e, w') /\
        w_store w' = st0 /\
        w_log w' = w_log w) /\
  (forall table dir partition_col w st0 st1 e,
      db_connect (w_store w) = (st0, None) ->
      fs_mkdir dir st0 = (st1, Some e) ->
      exists w',
        export_to_parquet table dir partition_col w = (Raise e, w') /\
        w_store w' = st1 /\
        w_log w' = w_log w) /\
  (forall w e w',
      export_silver_to_parquet w = (Raise e, w') <->
      export_to_parquet "silver_events" (silver_path ++ "/silver_events")
        (Some "event_timestamp"%string) w = (Raise e, w') \/
      exists w1,
        export_to_parquet "silver_events" (silver_path ++ "/silver_events")
          (Some "event_timestamp"%string) w = (Ok tt, w1) /\
        export_to_parquet "silver_items" (silver_path ++ "/silver_items")
          None w1 = (Raise e, w')) /\
  (forall w e w',
      export_gold_to_parquet w = (Raise e, w') <->
      export_to_parquet "fact_events" (gold_path ++ "/fact_events")
        (Some "event_date"%string) w = (Raise e, w') \/
      exists w1,
        export_to_parquet "fact_events" (gold_path ++ "/fact_events")
          (Some "event_date"%string) w = (Ok tt, w1) /\
        (export_to_parquet "fact_event_items"
           (gold_path ++ "/fact_event_items") None w1 = (Raise e, w') \/
         exists w2,
           export_to_parquet "fact_event_items"
             (gold_path ++ "/fact_event_items") None w1 = (Ok tt, w2) /\
           (export_to_parquet "dim_items" (gold_path ++ "/dim_items")
              None w2 = (Raise e, w') \/
            exists w3,
              export_to_parquet "dim_items" (gold_path ++ "/dim_items")
                None w2 = (Ok tt, w3) /\
              export_to_parquet "dim_users" (gold_path ++ "/dim_users")
                None w3 = (Raise e, w')))) /\
  (forall target del w m msgs w0 paths msgs' w1 sr w2 e w3,
      SAVE_PARQUET = true ->
      receive_messages None None None w = (Ok (m :: msgs), w0) ->
      (target =? "bronze")%string = false ->
      save_batch (m :: msgs) w0 = (Ok (paths, msgs'), w1) ->
      transform_to_silver w1 = (Ok sr, w2) ->
      export_silver_to_parquet w2 = (Raise e, w3) ->
      exists w',
        process_batch target del w = (Raise e, w') /\
        w_store w' = w_store w3 /\
        w_calls w' = w_calls w3 /\
        w_queue w' = w_queue w3 /\
        w_log w' = w_log w3 ++ [ErrBatch e]) /\
  (forall target del w m msgs w0 paths msgs' w1 sr w2 w3 gr w4 e w5,
      SAVE_PARQUET = true ->
      receive_messages None None None w = (Ok (m :: msgs), w0) ->
      (target =? "bronze")%string = false ->
      (target =? "silver")%string = false ->
      save_batch (m :: msgs) w0 = (Ok (paths, msgs'), w1) ->
      transform_to_silver w1 = (Ok sr, w2) ->
      export_silver_to_parquet w2 = (Ok tt, w3) ->
      transform_to_gold w3 = (Ok gr, w4) ->
      export_gold_to_parquet w4 = (Raise e, w5) ->
      exists w',
        process_batch target del w = (Raise e, w') /\
        w_store w' = w_store w5 /\
        w_calls w' = w_calls w5 /\
        w_queue w' = w_queue w5 /\
        w_log w' = w_log w5 ++ [ErrBatch e]).
Proof.
  split; [|split; [|split; [|split; [|split; [|split; [|split; [|split]]]]]]].
  - intros. eapply export_falls_back; eassumption.
  - intros. eapply export_fallback_raises; eassumption.
  - intros. eapply export_single_raises; eassumption.
  - intros. eapply export_connect_raises; eassumption.
  - intros. eapply export_mkdir_raises; eassumption.
  - intros. apply export_silver_raises.
  - intros. apply export_gold_raises.
  - intros. eexists. split.
    + eapply silver_export_failure_ends_batch; eassumption.
    + repeat split.
  - intros. eexists. split.
    + eapply gold_export_failure_ends_batch; eassumption.
    + repeat split.
Qed.

(** ** Deleting the messages of a batch *)

Import Ending.

Lemma deletions_app t1 t2 : deletions (t1 ++ t2) = deletions t1 ++ deletions t2.
Proof. unfold deletions. apply flat_map_app. Qed.

Lemma deletions_quiet t : Forall keeps_messages t -> deletions t = [].
Proof.
  induction 1 as [|c t Hc _ IH]; [reflexivity|].
  destruct c; simpl; auto; discriminate Hc.
Qed.

Lemma deletions_of_requests hs : deletions (map SqsDelete hs) = hs.
Proof. induction hs; simpl; [reflexivity | now f_equal]. Qed.

Lemma delete_message_calls {E : Env} h w r w' :
  delete_message h w = (r, w') ->
  w_calls w' = w_calls w ++ [SqsDelete h] /\ w_store w' = w_store w.
Proof.
  unfold delete_message, bind, on_queue.
  destruct (sqs_delete_message h (w_queue w)) as [q [e|]].
  - destruct (is_class "ClientError" e); intros H; inversion H; auto.
  - intros H; inversion H; auto.
Qed.

(** The deletions are requested in the order of the batch, up to the
    first request that raises. *)
Lemma delete_all_calls {E : Env} msgs :
  forall w r w',
    delete_all msgs w = (r, w') ->
    exists k,
      w_calls w'
      = w_calls w ++ map SqsDelete (firstn k (map receipt_handle msgs)) /\
      w_store w' = w_store w /\
      (r = Ok tt -> firstn k (map receipt_handle msgs)
                    = map receipt_handle msgs).
Proof.
  induction msgs as [|m msgs IH]; intros w r w' H; simpl in H.
  - inversion H; subst. exists O. simpl. rewrite app_nil_r. auto.
  - unfold bind in H at 1.
    destruct (delete_message (receipt_handle m) w) as [[b|e] w1] eqn:Hd;
      destruct (delete_message_calls _ _ _ _ Hd) as (Hc & Hs).
    + destruct (IH _ _ _ H) as (k & Hc' & Hs' & Hall).
      exists (S k). simpl. rewrite Hc', Hs', Hc, Hs, <- app_assoc.
      repeat split. intros Hr. now rewrite (Hall Hr).
    + inversion H; subst. exists 1%nat. simpl. rewrite Hc, Hs.
      repeat split. discriminate.
Qed.

Lemma delete_all_returns {E : Env} msgs :
  deletions_fail_softly ->
  forall w, exists w', delete_all msgs w = (Ok tt, w').
Proof.
  intros Hsoft. induction msgs as [|m msgs IH]; intros w; simpl.
  - eexists; reflexivity.
  - unfold bind at 1, delete_message, bind at 1, on_queue.
    destruct (sqs_delete_message (receipt_handle m) (w_queue w))
      as [q [e|]] eqn:Hd.
    + rewrite (Hsoft _ _ _ _ Hd). unfold bind, log, ret. apply IH.
    + unfold ret. apply IH.
Qed.

Lemma delete_all_ext {E : Env} msgs :
  forall msgs' w,
    map receipt_handle msgs' = map receipt_handle msgs ->
    delete_all msgs' w = delete_all msgs w.
Proof.
  induction msgs as [|m msgs IH]; intros [|m' msgs'] w Hh;
    try discriminate Hh; [reflexivity|].
  simpl in Hh. inversion Hh as [[Hm Hrest]]. simpl. rewrite Hm.
  unfold bind.
  destruct (delete_message (receipt_handle m) w) as [[b|e] w1]; auto.
Qed.

(** ** The stages with and without the final deletion *)

Lemma bind_then_delete {E : Env} {A} msgs (c : M A) (k k' : A -> M stats) w :
  (forall a w1, c w = (Ok a, w1) -> k a w1 = then_delete msgs (k' a w1)) ->
  bind c k w = then_delete msgs (bind c k' w).
Proof.
  intros H. unfold bind. destruct (c w) as [[a|e] w1]; [|reflexivity].
  now apply H.
Qed.

Lemma bind_same {E : Env} {A B} (c : M A) (k k' : A -> M B) w :
  (forall a w1, c w = (Ok a, w1) -> k a w1 = k' a w1) ->
  bind c k w = bind c k' w.
Proof.
  intros H. unfold bind. destruct (c w) as [[a|e] w1]; [|reflexivity].
  now apply H.
Qed.

(** Below the modeled layer the deletion is never reached. *)
Lemma process_layers_early {E : Env} msgs st target w :
  (target =? "bronze")%string = true \/ (target =? "silver")%string = true ->
  process_layers msgs st target true w = process_layers msgs st target false w.
Proof.
  intros Hearly. unfold process_layers.
  apply bind_same. intros [paths msgs'] w1 _.
  destruct (target =? "bronze")%string; [reflexivity|].
  destruct Hearly as [H|H]; [discriminate|]. rewrite H.
  reflexivity.
Qed.

(** Through the modeled layer, asking for deletion adds the deletion of
    the batch after the stages, and nothing else. *)
Lemma process_layers_deletes {E : Env} msgs st target w :
  (target =? "bronze")%string = false ->
  (target =? "silver")%string = false ->
  process_layers msgs st target true w
  = then_delete msgs (process_layers msgs st target false w).
Proof.
  intros Hb Hs. unfold process_layers.
  apply bind_then_delete. intros [paths msgs'] w1 Hsave.
  destruct (save_batch_returns msgs w) as (p & m' & w1' & Hsave' & _ & Hh).
  rewrite Hsave in Hsave'. inversion Hsave'; subst p m' w1'; clear Hsave'.
  rewrite Hb.
  apply bind_then_delete. intros sr w2 _.
  apply bind_then_delete. intros [] w3 _. rewrite Hs.
  apply bind_then_delete. intros gr w4 _.
  apply bind_then_delete. intros [] w5 _.
  unfold then_delete. erewrite (bind_ok (ret tt)) by reflexivity.
  unfold ret at 3. unfold bind.
  now rewrite (delete_all_ext msgs msgs' w5 Hh).
Qed.

Lemma process_batch_early {E : Env} target w :
  (target =? "bronze")%string = true \/ (target =? "silver")%string = true ->
  process_batch target true w = process_batch target false w.
Proof.
  intros Hearly. unfold process_batch.
  apply bind_same. intros [|m msgs] w0 _; [reflexivity|].
  unfold try_except. now rewrite (process_layers_early _ _ _ _ Hearly).
Qed.

(** C2, as stated, fails: one cycle of the polling loop takes a message
    through every stage up to the modeled layer without any error, and
    deletes nothing: the message is still in the queue. *)
Lemma C2_polling_loop_deletes_nothing :
  exists tot w',
    @run_pipeline (Sim.env Sim.plain) 1 "gold"
      (Sim.start Sim.plain [Sim.entry "m1" "[{a=1}]"])
    = (Ok tot, w') /\
    t_batches tot = 1 /\
    Runs.sent "INSERT sql/models/gold_dim_users.sql" (w_calls w') = true /\
    w_log w'
    = [WarnPlaceholderNotFound "{{ bronze_path }}" "silver_events";
       WarnPlaceholderNotFound "{{ bronze_path }}" "silver_items"] /\
    deletions (w_calls w') = [] /\
    map ReceiptHandle (w_queue w') = ["rh-m1"%string].
Proof. eexists _, _. split; [vm_compute; reflexivity|]. repeat split. Qed.

(** A run with [delete_after_processing] set: both messages go through
    every stage and the deletion of both is requested, in order. *)
Example deletion_when_asked_run :
  exists st w',
    @process_batch (Sim.env Sim.plain) "gold" true
      (Sim.start Sim.plain
                 [Sim.entry "m1" "[{a=1}]"; Sim.entry "m2" "[{a=2}]"])
    = (Ok st, w') /\
    deletions (w_calls w') = ["rh-m1"%string; "rh-m2"%string] /\
    w_queue w' = [].
Proof. eexists _, _. split; [vm_compute; reflexivity|]. split; reflexivity. Qed.

Lemma quiet_side (c : call) : is_queue_call c = false -> keeps_messages c.
Proof. destruct c; (discriminate || reflexivity). Qed.

Lemma quiet_receive n vt wt : keeps_messages (SqsReceive n vt wt).
Proof. reflexivity. Qed.

(** Without the request to delete, a batch deletes nothing. *)
Lemma process_batch_quiet {E : Env} target w r w' :
  process_batch target false w = (r, w') ->
  exists t, w_calls w' = w_calls w ++ t /\ deletions t = [].
Proof.
  intros H.
  destruct (emits_process_batch keeps_messages quiet_side quiet_receive
              target false ltac:(discriminate) _ _ _ H) as (t & Ht & Hq).
  exists t. split; [exact Ht | now apply deletions_quiet].
Qed.

(** Through the modeled layer and without the final deletion, the stages
    return exactly when each of them does, one after the other: raw
    persistence, the structuring scripts, their export, the modeling
    scripts, their export (the exports only when snapshots are
    configured). *)
Lemma process_layers_through_gold {E : Env} msgs st target w0 st' w5 :
  (target =? "bronze")%string = false ->
  (target =? "silver")%string = false ->
  process_layers msgs st target false w0 = (Ok st', w5) <->
  exists paths msgs' w1 sr w2 w3 gr w4,
    save_batch msgs w0 = (Ok (paths, msgs'), w1) /\
    transform_to_silver w1 = (Ok sr, w2) /\
    (if SAVE_PARQUET then export_silver_to_parquet else ret tt) w2
    = (Ok tt, w3) /\
    transform_to_gold w3 = (Ok gr, w4) /\
    (if SAVE_PARQUET then export_gold_to_parquet else ret tt) w4
    = (Ok tt, w5) /\
    st' = {| messages_received := messages_received st;
             bronze_saved := len paths;
             silver_events := events_inserted sr;
             silver_items := items_inserted sr;
             gold_events := fact_events_inserted gr;
             gold_items := fact_items_inserted gr;
             errors := errors st |}.
Proof.
  intros Hb Hs. unfold process_layers. split.
  - intros H. bind_inv H. destruct a as [paths msgs'].
    rewrite Hb in H. bind_inv H. bind_inv H. rewrite Hs in H.
    bind_inv H. bind_inv H.
    erewrite bind_ok in H by reflexivity. inversion H; subst.
    repeat match goal with u : unit |- _ => destruct u end.
    eexists paths, msgs', _, _, _, _, _, _.
    split; [reflexivity|].
    repeat (split; [eassumption|]). reflexivity.
  - intros (paths & msgs' & w1 & sr & w2 & w3 & gr & w4
            & H1 & H2 & H3 & H4 & H5 & ->).
    rewrite (bind_ok _ _ _ _ _ H1). cbv beta iota. rewrite Hb.
    rewrite (bind_ok _ _ _ _ _ H2), (bind_ok _ _ _ _ _ H3), Hs.
    rewrite (bind_ok _ _ _ _ _ H4), (bind_ok _ _ _ _ _ H5).
    reflexivity.
Qed.

(** A run with [delete_after_processing] set in which the raw file of
    the first message cannot be written: nothing is raised, one file is
    saved, and the deletion of both messages is requested, that of the
    message that was not persisted too. *)
Example deletion_of_unsaved_message_run :
  exists st w',
    @process_batch (Sim.env (Runs.write_fails_for "m1")) "gold" true
      (Sim.start (Runs.write_fails_for "m1")
                 [Sim.entry "m1" "[{a=1}]"; Sim.entry "m2" "[{a=2}]"])
    = (Ok st, w') /\
    messages_received st = 2 /\
    bronze_saved st = 1 /\
    map fst (Sim.raw_files (w_store w')) = ["data/bronze/m2.json"%string] /\
    deletions (w_calls w') = ["rh-m1"%string; "rh-m2"%string] /\
    w_queue w' = [].
Proof. eexists _, _. split; [vm_compute; reflexivity|]. repeat split. Qed.

(** C2, amended.  (1) In every call of [process_batch], a deletion is
    requested only when [delete_after_processing] is set, the target
    layer is the modeled one, and no stage has raised: [save_batch],
    [transform_to_silver], the export of the structured tables,
    [transform_to_gold] and the export of the modeled tables (the exports
    when snapshots are configured) have returned one after the other.
    Nothing is asked of the number of paths [save_batch] returned: a
    message whose raw file could not be written is deleted like the
    others.  The deletions follow the last call of the stages and are
    requested in the order of the batch, for the messages up to the first
    request that raises; when [process_batch] returns they have been
    requested for every message.  (2) When [delete_after_processing] is
    set, the stages through the modeled layer have returned and no
    deletion fails other than with a client error (which
    [delete_message] logs and swallows), [process_batch] returns and the
    deletion of each message of the batch has been requested, once and in
    order.  (3) The polling loop [run_pipeline] calls [process_batch]
    without [delete_after_processing]: it never requests a deletion,
    whatever the stages did. *)
Theorem C2_deletion_only_after_all_stages {E : Env} :
  (forall target del w r w',
      process_batch target del w = (r, w') ->
      exists t,
        w_calls w' = w_calls w ++ t /\
        (deletions t = [] \/
         (del = true /\
          (target =? "bronze")%string = false /\
          (target =? "silver")%string = false /\
          exists msgs w0 paths msgs' w1 sr w2 w3 gr w4 w5 k,
            receive_messages None None None w = (Ok msgs, w0) /\
            msgs <> [] /\
            save_batch msgs w0 = (Ok (paths, msgs'), w1) /\
            transform_to_silver w1 = (Ok sr, w2) /\
            (if SAVE_PARQUET then export_silver_to_parquet else ret tt) w2
            = (Ok tt, w3) /\
            transform_to_gold w3 = (Ok gr, w4) /\
            (if SAVE_PARQUET then export_gold_to_parquet else ret tt) w4
            = (Ok tt, w5) /\
            w_calls w'
            = w_calls w5
              ++ map SqsDelete (firstn k (map receipt_handle msgs)) /\
            deletions t = firstn k (map receipt_handle msgs) /\
            (forall st,
                r = Ok st ->
                firstn k (map receipt_handle msgs)
                = map receipt_handle msgs)))) /\
  (forall target w m msgs w0 paths msgs' w1 sr w2 w3 gr w4 w5,
      deletions_fail_softly ->
      (target =? "bronze")%string = false ->
      (target =? "silver")%string = false ->
      receive_messages None None None w = (Ok (m :: msgs), w0) ->
      save_batch (m :: msgs) w0 = (Ok (paths, msgs'), w1) ->
      transform_to_silver w1 = (Ok sr, w2) ->
      (if SAVE_PARQUET then export_silver_to_parquet else ret tt) w2
      = (Ok tt, w3) ->
      transform_to_gold w3 = (Ok gr, w4) ->
      (if SAVE_PARQUET then export_gold_to_parquet else ret tt) w4
      = (Ok tt, w5) ->
      exists st w' t,
        process_batch target true w = (Ok st, w') /\
        bronze_saved st = len paths /\
        w_store w' = w_store w5 /\
        w_calls w'
        = w_calls w5 ++ map SqsDelete (map receipt_handle (m :: msgs)) /\
        w_calls w' = w_calls w ++ t /\
        deletions t = map receipt_handle (m :: msgs)) /\
  (forall cycles target w r w',
      run_pipeline cycles target w = (r, w') ->
      exists t, w_calls w' = w_calls w ++ t /\ deletions t = []).
Proof.
  split; [|split].
  - intros target del w r w' H.
    destruct del; [|destruct (process_batch_quiet _ _ _ _ H) as (t & ? & ?);
                    exists t; auto].
    destruct (target =? "bronze")%string eqn:Hb.
    { rewrite process_batch_early in H by auto.
      destruct (process_batch_quiet _ _ _ _ H) as (t & ? & ?).
      exists t; auto. }
    destruct (target =? "silver")%string eqn:Hs.
    { rewrite process_batch_early in H by auto.
      destruct (process_batch_quiet _ _ _ _ H) as (t & ? & ?).
      exists t; auto. }
    unfold process_batch in H.
    destruct (receive_messages None None None w) as [[msgs|e] w0] eqn:Hrecv.
    + rewrite (bind_ok _ _ _ _ _ Hrecv) in H.
      destruct (receive_messages_frame _ _ _ _ _ _ Hrecv) as (_ & Hc0 & _).
      destruct msgs as [|m msgs].
      { inversion H; subst. eexists. split; [exact Hc0|]. left. reflexivity. }
      unfold try_except in H. rewrite process_layers_deletes in H by auto.
      destruct (process_layers (m :: msgs) (stats_received (len (m :: msgs)))
                               target false w0) as [[st|e] w1] eqn:Hst.
      * destruct (emits_process_layers keeps_messages quiet_side
                    _ _ _ false ltac:(discriminate) _ _ _ Hst)
          as (t1 & Hc1 & Hq1).
        destruct (proj1 (process_layers_through_gold _ _ _ _ _ _ Hb Hs) Hst)
          as (paths & msgs' & u1 & sr & u2 & u3 & gr & u4
              & S1 & S2 & S3 & S4 & S5 & _).
        unfold then_delete, bind in H.
        destruct (delete_all (m :: msgs) w1) as [[[]|e] w2] eqn:Hd;
          destruct (delete_all_calls _ _ _ _ Hd) as (k & Hc2 & _ & Hall).
        -- inversion H; subst.
           eexists. split.
           ++ rewrite Hc2, Hc1, Hc0, <- !app_assoc. reflexivity.
           ++ right. split; [reflexivity|]. split; [reflexivity|].
              split; [reflexivity|].
              exists (m :: msgs), w0, paths, msgs', u1, sr, u2, u3, gr, u4,
                     w1, k.
              split; [reflexivity|]. split; [discriminate|].
              repeat (split; [assumption|]).
              split.
              { rewrite !deletions_app, (deletions_quiet _ Hq1),
                  deletions_of_requests. reflexivity. }
              intros st0 _. exact (Hall eq_refl).
        -- inversion H; subst.
           eexists. split.
           ++ simpl. rewrite Hc2, Hc1, Hc0, <- !app_assoc. reflexivity.
           ++ right. split; [reflexivity|]. split; [reflexivity|].
              split; [reflexivity|].
              exists (m :: msgs), w0, paths, msgs', u1, sr, u2, u3, gr, u4,
                     w1, k.
              split; [reflexivity|]. split; [discriminate|].
              repeat (split; [assumption|]).
              split.
              { rewrite !deletions_app, (deletions_quiet _ Hq1),
                  deletions_of_requests. reflexivity. }
              intros st0 Hr. discriminate Hr.
      * destruct (emits_process_layers keeps_messages quiet_side
                    _ _ _ false ltac:(discriminate) _ _ _ Hst)
          as (t1 & Hc1 & Hq1).
        simpl in H. inversion H; subst.
        eexists. split.
        -- simpl. rewrite Hc1, Hc0, <- app_assoc. reflexivity.
        -- left. rewrite deletions_app. simpl.
           now apply deletions_quiet.
    + rewrite (bind_raise _ _ _ _ _ Hrecv) in H. inversion H; subst.
      destruct (receive_messages_frame _ _ _ _ _ _ Hrecv) as (_ & Hc0 & _).
      eexists. split; [exact Hc0|]. left. reflexivity.
  - intros target w m msgs w0 paths msgs' w1 sr w2 w3 gr w4 w5
      Hsoft Hb Hs Hrecv S1 S2 S3 S4 S5.
    assert (Hst :
      process_layers (m :: msgs) (stats_received (len (m :: msgs))) target
        false w0
      = (Ok {| messages_received :=
                 messages_received (stats_received (len (m :: msgs)));
               bronze_saved := len paths;
               silver_events := events_inserted sr;
               silver_items := items_inserted sr;
               gold_events := fact_events_inserted gr;
               gold_items := fact_items_inserted gr;
               errors := errors (stats_received (len (m :: msgs))) |}, w5)).
    { apply (process_layers_through_gold _ _ _ _ _ _ Hb Hs).
      exists paths, msgs', w1, sr, w2, w3, gr, w4.
      repeat (split; [assumption|]). reflexivity. }
    destruct (receive_messages_frame _ _ _ _ _ _ Hrecv) as (_ & Hc0 & _).
    destruct (emits_process_layers keeps_messages quiet_side
                _ _ _ false ltac:(discriminate) _ _ _ Hst)
      as (t1 & Hc1 & Hq1).
    destruct (delete_all_returns (m :: msgs) Hsoft w5) as (w6 & Hd).
    destruct (delete_all_calls _ _ _ _ Hd) as (k & Hc2 & Hs2 & Hall).
    eexists _, w6, _.
    split; [|split; [|split; [exact Hs2|split; [|split]]]].
    + unfold process_batch. rewrite (bind_ok _ _ _ _ _ Hrecv).
      unfold try_except. rewrite process_layers_deletes by auto.
      rewrite Hst. unfold then_delete, bind. rewrite Hd. reflexivity.
    + reflexivity.
    + rewrite Hc2, (Hall eq_refl). reflexivity.
    + rewrite Hc2, (Hall eq_refl), Hc1, Hc0, <- !app_assoc. reflexivity.
    + rewrite !deletions_app, (deletions_quiet _ Hq1),
        deletions_of_requests. reflexivity.
  - intros cycles target w r w' H.
    destruct (emits_run_cycles keeps_messages quiet_side quiet_receive
                cycles target zero_totals _ _ _ H) as (t & Ht & Hq).
    exists t. split; [exact Ht | now apply deletions_quiet].
Qed.

(* ===================================================================== *)
(** * Further properties of the value parser *)
(* ===================================================================== *)

Import Kinds.

(** X1: the parser has no rejecting path and its recursion is bounded by
    the text: with three frames per character (and four more) it returns
    a value on every text, and whatever number of frames lets it return,
    the value is that same one. *)
Theorem X1_parser_returns_on_every_text (s : string) (frames : nat) :
  (3 * String.length s + 4 <= frames)%nat ->
  exists v,
    parse_items_firebase_format frames s = Some v /\
    forall frames' v',
      parse_items_firebase_format frames' s = Some v' -> v' = v.
Proof.
  intros Hfr. destruct (parse_items_total s frames Hfr) as [v Hv].
  exists v. split; [exact Hv|].
  intros frames' v' Hv'.
  exact (parse_items_deterministic _ _ _ _ _ Hv' Hv).
Qed.

(** X1, witnessed on a text that never closes its brace. *)
Lemma X1_parser_returns_on_every_text_witness :
  exists v,
    parse_items_firebase_format 19 "{a=1" = Some v /\
    forall frames' v',
      parse_items_firebase_format frames' "{a=1" = Some v' -> v' = v.
Proof. apply (X1_parser_returns_on_every_text "{a=1" 19). simpl. lia. Defined.

(** The array scanner only ever appends maps. *)
Lemma array_loop_maps (object : string -> option dict) (s : string) :
  forall result depth current in_object l,
    array_loop object s result depth current in_object = Some l ->
    forallb is_map result = true ->
    forallb is_map l = true.
Proof.
  induction s as [|c s IH]; intros result depth current in_object l H Hres;
    simpl in H.
  - inversion H; subst; exact Hres.
  - repeat match type of H with
           | (if ?b then _ else _) = _ => destruct b
           | match ?o with Some _ => _ | None => _ end = _ =>
               destruct o; [|discriminate]
           end;
      try (eapply IH; [exact H | exact Hres]).
    eapply IH; [exact H|].
    rewrite forallb_app, Hres. reflexivity.
Qed.

Lemma parse_value_scalar (s : string) : is_scalar (parse_value s) = true.
Proof.
  unfold parse_value.
  destruct ((strip s =? "null")%string || (strip s =? "(not set)")%string);
    [reflexivity|].
  destruct (mem "." (strip s)).
  - destruct (py_float (strip s)); reflexivity.
  - destruct (py_int (strip s)); reflexivity.
Qed.

(** X2: what the parser returns is decided by the first character of the
    stripped text.  After an opening bracket it is a list, and every
    element of that list is a map; after an opening brace it is a map;
    after anything else (the empty text included) it is the scalar that
    [parse_value] makes of the text. *)
Theorem X2_result_follows_first_character (frames : nat) (text : string)
    (v : value) :
  parse_items_firebase_format frames text = Some v ->
  (startswith "[" (strip text) = true ->
   exists l, v = VList l /\ forallb is_map l = true) /\
  (startswith "[" (strip text) = false ->
   startswith "{" (strip text) = true -> is_map v = true) /\
  (startswith "[" (strip text) = false ->
   startswith "{" (strip text) = false ->
   v = parse_value (strip text) /\ is_scalar v = true).
Proof.
  destruct frames as [|[|k]]; try discriminate.
  cbn [parse_items_firebase_format parse_nested].
  destruct (startswith "[" (strip text)) eqn:Hb.
  - intros H. split; [|split]; try discriminate. intros _.
    destruct (parse_array k (strip text)) as [l|] eqn:Hl; [|discriminate].
    inversion H; subst. exists l. split; [reflexivity|].
    destruct k as [|k]; [discriminate|]. simpl in Hl.
    eapply array_loop_maps; [exact Hl | reflexivity].
  - destruct (startswith "{" (strip text)) eqn:Hc.
    + intros H. split; [|split]; try discriminate. intros _ _.
      match type of H with
      | option_map _ ?o = _ => destruct o; [|discriminate]
      end.
      inversion H; reflexivity.
    + destruct k as [|k]; [discriminate|].
      intros H. inversion H; subst.
      split; [|split]; try discriminate. intros _ _.
      split; [reflexivity | apply parse_value_scalar].
Qed.

(** X2, witnessed on a two-element array. *)
Lemma X2_result_follows_first_character_witness :
  exists l,
    VList [VMap [("a", VInt 1)]; VMap [("b", VInt 2)]] = VList l /\
    forallb is_map l = true.
Proof.
  assert (H : parse_items_firebase_format 8 "[{a=1}, {b=2}]"
              = Some (VList [VMap [("a", VInt 1)]; VMap [("b", VInt 2)]]))
    by (vm_compute; reflexivity).
  apply (proj1 (X2_result_follows_first_character 8 "[{a=1}, {b=2}]" _ H)).
  reflexivity.
Defined.

(** ** Facts on [str] operations *)

Section StringFacts.
Local Open Scope string_scope.

Lemma str_app_nil_r (s : string) : s ++ "" = s.
Proof. induction s; simpl; [reflexivity | now f_equal]. Qed.

Lemma str_app_assoc (a b c : string) : (a ++ b) ++ c = a ++ (b ++ c).
Proof. induction a; simpl; [reflexivity | now f_equal]. Qed.

Lemma snoc_app (a : string) (c : ascii) (b : string) :
  snoc a c ++ b = a ++ String c b.
Proof. unfold snoc. now rewrite str_app_assoc. Qed.

Lemma lstrip_by_fixed p c r :
  p c = false -> lstrip_by p (String c r) = String c r.
Proof. intros H. simpl. now rewrite H. Qed.

(** What [lstrip] returns does not begin with a removed character. *)
Lemma lstrip_by_head p s :
  lstrip_by p s = "" \/ exists c r, lstrip_by p s = String c r /\ p c = false.
Proof.
  induction s as [|c s IH]; simpl; [now left|].
  destruct (p c) eqn:Hc; [exact IH|]. right. now exists c, s.
Qed.

Lemma rstrip_by_idem p s : rstrip_by p (rstrip_by p s) = rstrip_by p s.
Proof.
  induction s as [|c s IH]; simpl; [reflexivity|].
  destruct (rstrip_by p s) as [|c' r'] eqn:Hr.
  - destruct (p c) eqn:Hc; simpl; [reflexivity | now rewrite Hc].
  - change (match rstrip_by p (String c' r') with
            | "" => if p c then "" else String c ""
            | x => String c x
            end = String c (String c' r')).
    now rewrite IH.
Qed.

(** [rstrip] keeps a first character that is not removed. *)
Lemma rstrip_by_head p c r :
  p c = false -> exists r', rstrip_by p (String c r) = String c r'.
Proof.
  intros Hc. simpl. destruct (rstrip_by p r).
  - rewrite Hc. now eexists.
  - now eexists.
Qed.

Lemma strip_idem (s : string) : strip (strip s) = strip s.
Proof.
  unfold strip.
  destruct (lstrip_by_head is_space s) as [H | (c & r & H & Hc)]; rewrite H.
  - reflexivity.
  - destruct (rstrip_by_head is_space c r Hc) as [r' Hr'].
    rewrite Hr', (lstrip_by_fixed _ _ _ Hc), <- Hr'.
    apply rstrip_by_idem.
Qed.

Lemma parse_value_strip (s : string) : parse_value (strip s) = parse_value s.
Proof. unfold parse_value. now rewrite strip_idem. Qed.

(** [rstrip] leaves a text alone whose last character is not removed. *)
Lemma rstrip_by_snoc p s c :
  p c = false -> rstrip_by p (s ++ String c "") = s ++ String c "".
Proof.
  intros Hc. induction s as [|a s IH]; simpl.
  - now rewrite Hc.
  - change (match rstrip_by p (s ++ String c "") with
            | "" => if p a then "" else String a ""
            | r' => String a r'
            end = String a (s ++ String c "")).
    rewrite IH. destruct s; reflexivity.
Qed.

Lemma rev_snoc s c : rev (snoc s c) = String c (rev s).
Proof.
  unfold snoc. induction s as [|a s IH]; simpl; [reflexivity|].
  now rewrite IH.
Qed.

Lemma drop_last_snoc s c : drop_last (s ++ String c "") = s.
Proof.
  induction s as [|a s IH]; [reflexivity|].
  simpl. rewrite IH. destruct s; reflexivity.
Qed.

End StringFacts.

(** ** Texts in the documented format *)

Import Flat.

Section FlatTexts.
Local Open Scope string_scope.

Lemma plain_char_inv c :
  plain_char c = true ->
  mem c "[{" = false /\ mem c "]}" = false /\
  Ascii.eqb c "=" = false /\ Ascii.eqb c "," = false /\
  Ascii.eqb c "[" = false /\ Ascii.eqb c "]" = false /\
  Ascii.eqb c "{" = false /\ Ascii.eqb c "}" = false.
Proof.
  unfold plain_char. simpl.
  destruct (Ascii.eqb c "["), (Ascii.eqb c "]"), (Ascii.eqb c "{"),
    (Ascii.eqb c "}"), (Ascii.eqb c "="), (Ascii.eqb c ",");
    simpl; intros H; try discriminate H; repeat split.
Qed.

Lemma plain_app a b : plain (a ++ b) = plain a && plain b.
Proof.
  induction a as [|c a IH]; simpl; [reflexivity|].
  now rewrite IH, andb_assoc.
Qed.

Lemma plain_lstrip p s : plain s = true -> plain (lstrip_by p s) = true.
Proof.
  induction s as [|c s IH]; simpl; [auto|].
  intros H. apply andb_prop in H as [Hc Hs].
  destruct (p c); [auto|]. simpl. now rewrite Hc, Hs.
Qed.

Lemma plain_rstrip p s : plain s = true -> plain (rstrip_by p s) = true.
Proof.
  induction s as [|c s IH]; simpl; [auto|].
  intros H. apply andb_prop in H as [Hc Hs]. specialize (IH Hs).
  destruct (rstrip_by p s).
  - destruct (p c); simpl; [reflexivity | now rewrite Hc].
  - change (plain_char c && plain (String a s0) = true). now rewrite Hc, IH.
Qed.

Lemma plain_strip s : plain s = true -> plain (strip s) = true.
Proof. intros H. unfold strip. now apply plain_rstrip, plain_lstrip. Qed.

(** A plain text opens neither an array nor an object. *)
Lemma plain_opens_nothing s :
  plain s = true -> startswith "[" s = false /\ startswith "{" s = false.
Proof.
  destruct s as [|c s]; [split; reflexivity|].
  intros H. cbn [plain] in H. apply andb_prop in H as [Hc _].
  unfold startswith. cbn [prefix].
  split.
  - destruct (ascii_dec "[" c) as [<-|]; [discriminate Hc | reflexivity].
  - destruct (ascii_dec "{" c) as [<-|]; [discriminate Hc | reflexivity].
Qed.

(** A plain token is coerced as a scalar, whatever blanks surround
    it. *)
Lemma parse_nested_plain k v :
  plain v = true -> parse_nested (S (S k)) (strip v) = Some (parse_value v).
Proof.
  intros Hv. cbn [parse_nested]. rewrite strip_idem.
  destruct (plain_opens_nothing _ (plain_strip _ Hv)) as [-> ->].
  now rewrite parse_value_strip.
Qed.

(** The object scanner over the characters of a key. *)
Lemma object_loop_key nested k :
  forall rest result ck cv,
    plain k = true ->
    object_loop nested (k ++ rest) result 0 ck cv true
    = object_loop nested rest result 0 (ck ++ k) cv true.
Proof.
  induction k as [|c k IH]; intros rest result ck cv H.
  - now rewrite str_app_nil_r.
  - simpl in H. apply andb_prop in H as [Hc Hk].
    destruct (plain_char_inv _ Hc) as (H1 & H2 & H3 & H4 & _).
    cbn [append object_loop]. rewrite H1, H2, H3, H4. cbn [andb].
    rewrite IH by exact Hk. now rewrite snoc_app.
Qed.

(** The object scanner over the characters of a token. *)
Lemma object_loop_token nested v :
  forall rest result ck cv,
    plain v = true ->
    object_loop nested (v ++ rest) result 0 ck cv false
    = object_loop nested rest result 0 ck (cv ++ v) false.
Proof.
  induction v as [|c v IH]; intros rest result ck cv H.
  - now rewrite str_app_nil_r.
  - simpl in H. apply andb_prop in H as [Hc Hv].
    destruct (plain_char_inv _ Hc) as (H1 & H2 & H3 & H4 & _).
    cbn [append object_loop]. rewrite H1, H2, H3, H4. cbn [andb negb].
    rewrite IH by exact Hv. now rewrite snoc_app.
Qed.

(** The object scanner over [key=token]. *)
Lemma object_loop_pair nested kv rest result :
  flat_pair kv = true ->
  object_loop nested (pair_text kv ++ rest) result 0 "" "" true
  = object_loop nested rest result 0 (fst kv) (snd kv) false.
Proof.
  unfold flat_pair, pair_text. intros H.
  apply andb_prop in H as [H Hv]. apply andb_prop in H as [_ Hk].
  rewrite !str_app_assoc, object_loop_key by exact Hk.
  cbn [append object_loop mem Ascii.eqb Bool.eqb orb andb Z.eqb].
  now rewrite object_loop_token by exact Hv.
Qed.

Lemma object_loop_pairs (nested : string -> option value) pairs :
  (forall v, plain v = true -> nested (strip v) = Some (parse_value v)) ->
  forallb flat_pair pairs = true ->
  forall result,
    object_loop nested (object_text pairs) result 0 "" "" true
    = Some (fold_left assign pairs result).
Proof.
  intros Hnested. unfold object_text.
  induction pairs as [|kv pairs IH]; intros Hflat result.
  - reflexivity.
  - cbn [forallb] in Hflat. apply andb_prop in Hflat as [Hkv Hrest].
    assert (Hkv' := Hkv). unfold flat_pair in Hkv'.
    apply andb_prop in Hkv' as [Hkv' Hv].
    apply andb_prop in Hkv' as [Hne _].
    destruct pairs as [|kv' pairs].
    + cbn [map join fold_left].
      rewrite <- (str_app_nil_r (pair_text kv)).
      rewrite object_loop_pair by exact Hkv.
      cbn [object_loop]. rewrite Hne, (Hnested _ Hv). reflexivity.
    + change (join "," (map pair_text (kv :: kv' :: pairs)))
        with (pair_text kv ++ "," ++ join "," (map pair_text (kv' :: pairs))).
      rewrite object_loop_pair by exact Hkv.
      cbn [append object_loop mem Ascii.eqb Bool.eqb orb andb Z.eqb].
      rewrite Hne, (Hnested _ Hv).
      now rewrite IH.
Qed.

(** [parse_object] on the text of a flat object. *)
Lemma parse_object_flat k pairs :
  forallb flat_pair pairs = true ->
  parse_object (S (S (S k))) (object_text pairs) = Some (assign_all pairs).
Proof.
  intros H. cbn [parse_object].
  apply object_loop_pairs; [|exact H].
  intros v Hv. now apply parse_nested_plain.
Qed.

End FlatTexts.

Import Inside.

Section FlatArrays.
Local Open Scope string_scope.

Lemma unbracketed_app a b :
  unbracketed (a ++ b) = unbracketed a && unbracketed b.
Proof.
  induction a as [|c a IH]; simpl; [reflexivity|].
  now rewrite IH, andb_assoc.
Qed.

Lemma plain_unbracketed s : plain s = true -> unbracketed s = true.
Proof.
  induction s as [|c s IH]; [reflexivity|].
  cbn [plain unbracketed]. intros H. apply andb_prop in H as [Hc Hs].
  rewrite (IH Hs), andb_true_r.
  destruct (plain_char_inv _ Hc) as (_ & _ & _ & _ & H1 & H2 & H3 & H4).
  cbn [mem]. now rewrite H1, H2, H3, H4.
Qed.

Lemma unbracketed_object_text pairs :
  forallb flat_pair pairs = true -> unbracketed (object_text pairs) = true.
Proof.
  unfold object_text.
  induction pairs as [|kv pairs IH]; [reflexivity|].
  cbn [forallb]. intros H. apply andb_prop in H as [Hkv Hrest].
  assert (Hone : unbracketed (pair_text kv) = true).
  { unfold flat_pair in Hkv. apply andb_prop in Hkv as [Hkv Hv].
    apply andb_prop in Hkv as [_ Hk]. unfold pair_text.
    rewrite !unbracketed_app, (plain_unbracketed _ Hk),
      (plain_unbracketed _ Hv). reflexivity. }
  destruct pairs as [|kv' pairs]; [exact Hone|].
  change (join "," (map pair_text (kv :: kv' :: pairs)))
    with (pair_text kv ++ "," ++ join "," (map pair_text (kv' :: pairs))).
  rewrite !unbracketed_app, Hone, (IH Hrest). reflexivity.
Qed.

Lemma nonempty_object_text pairs :
  flat_object pairs = true -> nonempty (object_text pairs) = true.
Proof.
  destruct pairs as [|kv pairs]; [discriminate|].
  unfold flat_object. cbn [forallb]. intros H.
  apply andb_prop in H as [Hkv _]. unfold flat_pair in Hkv.
  apply andb_prop in Hkv as [Hkv _]. apply andb_prop in Hkv as [Hne _].
  unfold object_text. destruct kv as [k v]. cbn [fst] in Hne.
  destruct k as [|c k]; [discriminate|].
  destruct pairs; reflexivity.
Qed.

Lemma flat_object_pairs pairs :
  flat_object pairs = true -> forallb flat_pair pairs = true.
Proof. destruct pairs; [discriminate | auto]. Qed.

(** The array scanner over the inside of an object. *)
Lemma array_loop_inside object t :
  forall rest result d cur,
    unbracketed t = true ->
    array_loop object (t ++ rest) result d cur true
    = array_loop object rest result d (cur ++ t) true.
Proof.
  induction t as [|c t IH]; intros rest result d cur H.
  - now rewrite str_app_nil_r.
  - cbn [unbracketed mem] in H. apply andb_prop in H as [Hc Ht].
    destruct (Ascii.eqb c "[") eqn:H1; [discriminate Hc|].
    destruct (Ascii.eqb c "]") eqn:H2; [discriminate Hc|].
    destruct (Ascii.eqb c "{") eqn:H3; [discriminate Hc|].
    destruct (Ascii.eqb c "}") eqn:H4; [discriminate Hc|].
    cbn [append array_loop]. rewrite H1, H2, H3, H4. cbn [andb].
    rewrite IH by exact Ht. now rewrite snoc_app.
Qed.

(** The array scanner over one [{...}] element. *)
Lemma array_loop_element object pairs m rest result :
  flat_object pairs = true ->
  object (object_text pairs) = Some m ->
  array_loop object ("{" ++ object_text pairs ++ "}" ++ rest) result 1 ""
             false
  = array_loop object rest (result ++ [VMap m])%list 1 "" false.
Proof.
  intros Hflat Hobj.
  cbn [append array_loop Ascii.eqb Bool.eqb andb negb].
  rewrite array_loop_inside
    by (apply unbracketed_object_text, flat_object_pairs, Hflat).
  cbn [append array_loop Ascii.eqb Bool.eqb andb negb Z.add Z.sub Z.eqb
       Pos.add Pos.succ Z.pos_sub Pos.pred_double Pos.eqb Z.opp].
  now rewrite (nonempty_object_text _ Hflat), Hobj.
Qed.

Lemma array_loop_elements (object : string -> option dict) objects :
  (forall pairs, forallb flat_pair pairs = true ->
                 object (object_text pairs) = Some (assign_all pairs)) ->
  forallb flat_object objects = true ->
  forall result,
    array_loop object
      (join ", " (map (fun pairs => "{" ++ object_text pairs ++ "}") objects)
       ++ "]") result 1 "" false
    = Some (result ++ map (fun pairs => VMap (assign_all pairs)) objects)%list.
Proof.
  intros Hobject.
  induction objects as [|ps objects IH]; intros Hflat result.
  - cbn. now rewrite app_nil_r.
  - cbn [forallb] in Hflat. apply andb_prop in Hflat as [Hps Hrest].
    pose proof (Hobject _ (flat_object_pairs _ Hps)) as Hm.
    destruct objects as [|ps' objects].
    + cbn [map join]. rewrite !str_app_assoc.
      rewrite (array_loop_element _ _ _ _ _ Hps Hm). reflexivity.
    + change (join ", " (map (fun pairs => "{" ++ object_text pairs ++ "}")
                             (ps :: ps' :: objects)))
        with (("{" ++ object_text ps ++ "}") ++ ", "
              ++ join ", " (map (fun pairs => "{" ++ object_text pairs ++ "}")
                                (ps' :: objects))).
      rewrite !str_app_assoc.
      rewrite (array_loop_element _ _ _ _ _ Hps Hm).
      cbn [append array_loop Ascii.eqb Bool.eqb andb negb].
      refine (eq_trans (IH Hrest _) _).
      cbn [map]. now rewrite <- app_assoc.
Qed.

Lemma prefix_empty (s : string) : prefix "" s = true.
Proof. now destruct s. Qed.

Lemma strip_enclosed (a b : ascii) (s : string) :
  is_space a = false -> is_space b = false ->
  strip (String a (s ++ String b "")) = String a (s ++ String b "").
Proof.
  intros Ha Hb. unfold strip. rewrite (lstrip_by_fixed _ _ _ Ha).
  exact (rstrip_by_snoc is_space (String a s) b Hb).
Qed.

End FlatArrays.

(** X3: a flat object in the documented format, [{k1=t1,k2=t2,...}] with
    keys and tokens free of brackets, braces, equal signs and commas, is
    parsed, with five frames or more, to the map that assigns to each
    stripped key, in the order of the text, the scalar coerced from its
    token; a key that comes twice keeps its first place and its last
    value. *)
Theorem X3_flat_object_is_parsed (pairs : list (string * string))
    (frames : nat) :
  (5 <= frames)%nat ->
  forallb flat_pair pairs = true ->
  parse_items_firebase_format frames ("{" ++ object_text pairs ++ "}")%string
  = Some (VMap (assign_all pairs)).
Proof.
  intros Hfr Hflat.
  apply (parse_items_mono 5); [exact Hfr|].
  cbn [parse_items_firebase_format parse_nested].
  change ("{" ++ object_text pairs ++ "}")%string
    with (String "{" (object_text pairs ++ String "}" ""))%string.
  rewrite strip_enclosed by reflexivity.
  assert (Hends : endswith "}" (String "{" (object_text pairs ++ String "}" ""))
                  = true).
  { unfold endswith. cbn [rev].
    change (object_text pairs ++ String "}" "")%string
      with (snoc (object_text pairs) "}").
    rewrite rev_snoc. unfold snoc. cbn [append prefix].
    destruct (ascii_dec "}" "}") as [_|Hne]; [|congruence].
    apply prefix_empty. }
  rewrite Hends. cbn [startswith prefix tail].
  destruct (ascii_dec "[" "{") as [Heq|_]; [discriminate Heq|].
  destruct (ascii_dec "{" "{") as [_|Hne]; [|congruence].
  rewrite prefix_empty, drop_last_snoc.
  now rewrite (parse_object_flat 0 pairs Hflat).
Qed.

(** X3, witnessed on [{a=1, b= x ,a=2.5}]: the second [a] replaces the
    value of the first. *)
Lemma X3_flat_object_is_parsed_witness :
  parse_items_firebase_format 5 "{a=1, b= x ,a=2.5}"
  = Some (VMap [("a", VFloat (FFinite false 25 (-1))); ("b", VStr "x")]).
Proof.
  apply (X3_flat_object_is_parsed [("a", "1"); (" b", " x "); ("a", "2.5")] 5).
  - lia.
  - reflexivity.
Defined.

(** X4: an array of flat objects in the documented format,
    [[{k1=t1,...}, {...}, ...]] with at least one pair in every object,
    is parsed, with six frames or more, to the list of the maps of its
    objects, in order: one map per object, none dropped, none added. *)
Theorem X4_array_of_flat_objects_is_parsed
    (objects : list (list (string * string))) (frames : nat) :
  (6 <= frames)%nat ->
  forallb flat_object objects = true ->
  parse_items_firebase_format frames (array_text objects)
  = Some (VList (map (fun pairs => VMap (assign_all pairs)) objects)).
Proof.
  intros Hfr Hflat.
  apply (parse_items_mono 6); [exact Hfr|].
  cbn [parse_items_firebase_format parse_nested].
  unfold array_text.
  set (body := join ", " _).
  change ("[" ++ body ++ "]")%string
    with (String "[" (body ++ String "]" ""))%string.
  rewrite strip_enclosed by reflexivity.
  cbn [startswith prefix].
  destruct (ascii_dec "[" "[") as [_|Hne]; [|congruence].
  rewrite prefix_empty.
  cbn [parse_array array_loop Ascii.eqb Bool.eqb andb negb option_map].
  change (0 + 1) with 1.
  unfold body.
  rewrite (array_loop_elements (parse_object 3) objects
             (parse_object_flat 0) Hflat []).
  reflexivity.
Qed.

(** X4, witnessed on an array of two objects. *)
Lemma X4_array_of_flat_objects_is_parsed_witness :
  parse_items_firebase_format 6 "[{a=1,b=null}, {c=x}]"
  = Some (VList [VMap [("a", VInt 1); ("b", VNull)]; VMap [("c", VStr "x")]]).
Proof.
  apply (X4_array_of_flat_objects_is_parsed
           [[("a", "1"); ("b", "null")]; [("c", "x")]] 6).
  - lia.
  - reflexivity.
Defined.

(* ===================================================================== *)
(** * Further properties of the consumer *)
(* ===================================================================== *)

Import Receiving.

Lemma parse_message_keeps {E : Env} msg w :
  (forall e, json_loads (Body msg) = Raise e ->
             is_class "JSONDecodeError" e = true) ->
  exists m w',
    parse_message msg w = (Ok m, w') /\ received_as msg m /\
    w_log w' = w_log w ++ body_warnings [msg].
Proof.
  intros Hdec. unfold parse_message, received_as, body_warnings.
  cbn [flat_map]. rewrite app_nil_r.
  destruct (json_loads (Body msg)) as [b|e] eqn:Hb.
  - eexists _, _. split; [reflexivity|]. cbn. rewrite app_nil_r.
    repeat split.
  - rewrite (Hdec e eq_refl). eexists _, _. split; [reflexivity|].
    cbn. repeat split.
Qed.

Lemma body_warnings_cons {E : Env} msg msgs :
  body_warnings (msg :: msgs) = body_warnings [msg] ++ body_warnings msgs.
Proof. unfold body_warnings. cbn [flat_map]. now rewrite app_nil_r. Qed.

Lemma parse_messages_keeps {E : Env} msgs :
  decodable msgs ->
  forall acc w,
  exists res w',
    parse_messages msgs acc w = (Ok (acc ++ res), w') /\
    Forall2 received_as msgs res /\
    w_log w' = w_log w ++ body_warnings msgs.
Proof.
  induction msgs as [|msg msgs IH]; intros Hdec acc w.
  - exists [], w. cbn. rewrite !app_nil_r. auto.
  - destruct (parse_message_keeps msg w) as (m & w1 & Hm & Hr & Hl).
    { intros e He. apply (Hdec msg e); [now left | exact He]. }
    destruct (IH (fun x e Hin => Hdec x e (or_intror Hin)) (acc ++ [m]) w1)
      as (res & w2 & Hrun & Hall & Hl2).
    exists (m :: res), w2. cbn [parse_messages].
    rewrite (bind_ok _ _ _ _ _ Hm), Hrun, <- app_assoc.
    split; [reflexivity|]. split; [now constructor|].
    now rewrite Hl2, Hl, (body_warnings_cons msg msgs), app_assoc.
Qed.

(** X5: no message is lost at reception.  When the queue answers the
    request with a list of entries and the decoder fails only by
    rejecting a text, [receive_messages] returns one message per entry,
    in the order of the answer, each with the id and the receipt handle
    of its entry; an entry whose body is JSON carries the decoded body,
    any other carries its body text unchanged together with the
    decoder's message, and one warning is logged for each of these, in
    order. *)
Theorem X5_reception_keeps_every_message {E : Env}
    (max_messages visibility_timeout wait_time_seconds : option Z)
    (w : world) (q : Queue) (entries : list sqs_message) :
  sqs_receive_message
    (Z.min (or_default max_messages MAX_MESSAGES_PER_BATCH) 10)
    (or_default visibility_timeout VISIBILITY_TIMEOUT)
    (or_default wait_time_seconds WAIT_TIME_SECONDS) (w_queue w)
  = (q, Ok entries) ->
  decodable entries ->
  exists messages w',
    receive_messages max_messages visibility_timeout wait_time_seconds w
    = (Ok messages, w') /\
    Forall2 received_as entries messages /\
    w_log w' = w_log w ++ body_warnings entries /\
    w_queue w' = q.
Proof.
  intros Hrecv Hdec. unfold receive_messages, try_except.
  erewrite bind_ok by (apply on_queue_eq; exact Hrecv).
  erewrite bind_ok by reflexivity.
  match goal with
  | |- context [parse_messages entries [] ?w0] =>
      destruct (parse_messages_keeps entries Hdec [] w0)
        as (res & w' & Hrun & Hall & Hlog);
      destruct (parse_messages_frame _ _ _ _ _ Hrun) as (_ & _ & Hq & _)
  end.
  cbn [app] in Hrun. rewrite Hrun.
  exists res, w'. split; [reflexivity|]. split; [exact Hall|].
  split; [exact Hlog | exact Hq].
Qed.

(** X5, witnessed: of two entries the second is not JSON; both are
    returned, the second with its text as body. *)
Lemma X5_reception_keeps_every_message_witness :
  exists messages w',
    @receive_messages (Sim.env strict) None None None
      (Sim.start strict [Sim.entry "m1" "{a=1}"; Sim.entry "m2" "oops"])
    = (Ok messages, w') /\
    map msg_body messages
    = [Sim.body_with (ItemsText "{a=1}"); BodyOther "oops"] /\
    w_log w' = [WarnBodyNotJson "m2" (Exn "JSONDecodeError" "Expecting value")].
Proof.
  destruct (@X5_reception_keeps_every_message (Sim.env strict) None None None
              (Sim.start strict [Sim.entry "m1" "{a=1}"; Sim.entry "m2" "oops"])
              [Sim.entry "m1" "{a=1}"; Sim.entry "m2" "oops"]
              [Sim.entry "m1" "{a=1}"; Sim.entry "m2" "oops"] eq_refl)
    as (messages & w' & Hrun & _ & _ & _).
  { intros msg e [<-|[<-|[]]] He; [discriminate He|].
    inversion He. reflexivity. }
  exists messages, w'. split; [exact Hrun|].
  vm_compute in Hrun. inversion Hrun. split; reflexivity.
Defined.

Import Batching.

Lemma entries_from_handles i hs : map EntryHandle (entries_from i hs) = hs.
Proof.
  revert i. induction hs as [|h hs IH]; intros i; simpl;
    [reflexivity | now rewrite IH].
Qed.

Lemma entries_from_ids hs :
  forall i, map Id (entries_from i hs)
            = map str_of_index (seq i (List.length hs)).
Proof.
  induction hs as [|h hs IH]; intros i; simpl;
    [reflexivity | now rewrite IH].
Qed.

Lemma length_entries_from i hs :
  List.length (entries_from i hs) = List.length hs.
Proof. now rewrite <- (entries_from_handles i hs) at 2; rewrite length_map. Qed.

(** The first ten indices print as the ten digits. *)
Lemma first_ids n :
  (n <= 10)%nat -> map str_of_index (seq 0 n) = firstn n ten_ids.
Proof.
  intros H.
  do 11 (destruct n as [|n]; [reflexivity|]). lia.
Qed.

(** X6: [delete_messages_batch] acts on the first ten handles only: the
    call with any list equals the call with its first ten elements, so
    that a handle beyond the tenth is neither deleted nor reported as
    failed.  No request is made for the empty list; otherwise exactly
    one request is made, with between one and ten entries, which hold the
    first ten handles in order under the ids 0, 1, 2, ... *)
Theorem X6_batch_deletion_takes_ten {E : Env} (Item : Type)
    (batch : list entry -> Queue
             -> Queue * result (option (list Item) * option (list Item)))
    (handles : list string) (q : Queue) :
  delete_messages_batch batch handles q
  = delete_messages_batch batch (firstn 10 handles) q /\
  (handles = [] ->
   delete_messages_batch batch handles q
   = {| out_queue := q; out_requests := []; out_log := [];
        out_result := Ok ([], []) |}) /\
  (handles <> [] ->
   exists entries,
     out_requests (delete_messages_batch batch handles q) = [entries] /\
     (1 <= List.length entries <= 10)%nat /\
     map EntryHandle entries = firstn 10 handles /\
     map Id entries = firstn (List.length entries) ten_ids).
Proof.
  split; [|split].
  - destruct handles as [|h hs]; [reflexivity|].
    unfold delete_messages_batch.
    rewrite firstn_firstn. reflexivity.
  - intros ->. reflexivity.
  - intros Hne. destruct handles as [|h hs]; [congruence|].
    exists (entries_from 0 (firstn 10 (h :: hs))).
    assert (Hlen : (1 <= List.length (firstn 10 (h :: hs)) <= 10)%nat).
    { rewrite length_firstn. simpl List.length. lia. }
    split; [|split; [|split]].
    + unfold delete_messages_batch.
      destruct (batch _ q) as [q' [[s f]|e]]; reflexivity.
    + now rewrite length_entries_from.
    + apply entries_from_handles.
    + rewrite entries_from_ids, length_entries_from.
      apply first_ids. lia.
Qed.

(* ===================================================================== *)
(** * Further properties of raw persistence *)
(* ===================================================================== *)

Import Written.

(** A step whose result is known to satisfy [Q]. *)
Lemma emits_bind_post {E : Env} (P : call -> Prop) {A B} (Q : A -> Prop)
    (c : M A) (k : A -> M B) :
  emits P c ->
  (forall w a w', c w = (Ok a, w') -> Q a) ->
  (forall a, Q a -> emits P (k a)) ->
  emits P (bind c k).
Proof.
  intros Hc HQ Hk w r w' H. unfold bind in H.
  destruct (c w) as [[a|e] w1] eqn:Hcw.
  - destruct (Hc _ _ _ Hcw) as (t1 & E1 & F1).
    destruct (Hk a (HQ _ _ _ Hcw) _ _ _ H) as (t2 & E2 & F2).
    exists (t1 ++ t2). rewrite E2, E1, app_assoc. split; auto.
    apply Forall_app; auto.
  - inversion H; subst. eauto.
Qed.

Lemma normalize_items_agree {E : Env} it w it' flag w' :
  normalize_items it w = (Ok (it', flag), w') -> agree it' flag = true.
Proof.
  unfold normalize_items. destruct it as [s|v].
  - destruct (parse_items_firebase_format frames_left s);
      intros H; inversion H; reflexivity.
  - intros H; inversion H; reflexivity.
Qed.

Lemma emits_raw_save_raw_message {E : Env} msg :
  emits raw_call (save_raw_message msg).
Proof.
  unfold save_raw_message.
  apply emits_bind; [apply emits_on_store; exact I|]. intros r.
  apply emits_bind; [apply emits_of_result|]. intros path.
  destruct (msg_body msg) as [b|]; [|apply emits_raise].
  destruct (items b) as [it|]; [|apply emits_raise].
  apply (emits_bind_post raw_call (fun x => agree (fst x) (snd x) = true)).
  - unfold normalize_items. emits_steps.
  - intros w [it' flag] w' H. exact (normalize_items_agree _ _ _ _ _ H).
  - intros [it' flag] Hagree. cbn [fst snd] in Hagree.
    apply emits_bind.
    + apply emits_on_store. unfold raw_call, flagged. cbn. exact Hagree.
    + intros st. emits_steps.
Qed.

Lemma emits_raw_save_batch_loop {E : Env} msgs :
  forall paths seen, emits raw_call (save_batch_loop msgs paths seen).
Proof.
  induction msgs as [|m msgs IH]; intros paths seen; simpl.
  - apply emits_ret.
  - apply emits_bind; [|intros [paths' m']; apply IH].
    unfold save_one.
    apply emits_try; [|intros e; emits_steps].
    apply emits_bind; [apply emits_raw_save_raw_message|].
    intros [path m']. emits_steps.
Qed.

(** What [normalize_items] returns, case by case. *)
Lemma normalize_items_result {E : Env} it w it' flag w' :
  normalize_items it w = (Ok (it', flag), w') ->
  match it with
  | ItemsData _ => it' = it /\ flag = false
  | ItemsText s =>
      match parse_items_firebase_format frames_left s with
      | Some v => it' = ItemsData v /\ flag = false
      | None => it' = it /\ flag = true
      end
  end.
Proof.
  unfold normalize_items. destruct it as [s|v].
  - destruct (parse_items_firebase_format frames_left s);
      intros H; inversion H; split; reflexivity.
  - intros H; inversion H; split; reflexivity.
Qed.

Lemma emits_persists_save_raw_message {E : Env} msgs msg :
  In msg msgs -> emits (persists msgs) (save_raw_message msg).
Proof.
  intros Hin. unfold save_raw_message.
  apply emits_bind; [apply emits_on_store; exact Hin|]. intros r.
  apply emits_bind; [apply emits_of_result|]. intros path.
  destruct (msg_body msg) as [b|] eqn:Hbody; [|apply emits_raise].
  destruct (items b) as [it|] eqn:Hitems; [|apply emits_raise].
  apply (emits_bind_post (persists msgs)
           (fun x =>
              match it with
              | ItemsData _ => fst x = it /\ snd x = false
              | ItemsText s =>
                  match parse_items_firebase_format frames_left s with
                  | Some v => fst x = ItemsData v /\ snd x = false
                  | None => fst x = it /\ snd x = true
                  end
              end)).
  - unfold normalize_items. emits_steps.
  - intros w [it' flag] w' H. exact (normalize_items_result _ _ _ _ _ H).
  - intros [it' flag] Hres. cbn [fst snd] in Hres.
    apply emits_bind.
    + apply emits_on_store. cbn [persists]. exists msg.
      split; [exact Hin|]. exists b, it.
      split; [exact Hbody|]. split; [exact Hitems|].
      destruct it as [s|v].
      * destruct (parse_items_firebase_format frames_left s);
          destruct Hres as [-> ->]; reflexivity.
      * destruct Hres as [-> ->]; reflexivity.
    + intros st. emits_steps.
Qed.

Lemma emits_persists_save_batch_loop {E : Env} all msgs :
  (forall m, In m msgs -> In m all) ->
  forall paths seen, emits (persists all) (save_batch_loop msgs paths seen).
Proof.
  induction msgs as [|m msgs IH]; intros Hall paths seen; simpl.
  - apply emits_ret.
  - apply emits_bind;
      [|intros [paths' m']; apply IH; intros x Hx; apply Hall; now right].
    unfold save_one.
    apply emits_try; [|intros e; emits_steps].
    apply emits_bind;
      [apply emits_persists_save_raw_message; apply Hall; now left|].
    intros [path m']. emits_steps.
Qed.

(** X7: [save_batch] reaches nothing but the raw files: every call it
    makes names the file of a message of the batch or writes a record,
    none goes to the queue or to the database.  Every record it hands to
    the writer is a message of the batch whose body is a dictionary with
    an [items] entry, with two entries of that body set: [items] is what
    the parser returned when the items were text the parser reads (a
    result that may itself be a string) and is left as it was otherwise;
    [errors_parsing_items] is true when the parser raised on the items
    and false in every other case. *)
Theorem X7_records_written_come_from_the_batch {E : Env}
    (messages : list message) (w : world)
    (r : result (list string * list message)) (w' : world) :
  save_batch messages w = (r, w') ->
  exists t, w_calls w' = w_calls w ++ t /\ Forall (persists messages) t.
Proof. apply emits_persists_save_batch_loop. auto. Qed.

(** X7, witnessed on a message whose items are the text [ abc ]: the
    parser returns the string [abc]. *)
Lemma X7_records_written_come_from_the_batch_witness :
  exists t,
    w_calls (snd (@save_batch (Sim.env Sim.plain)
                    [Runs.message_of "m1" " abc "] (Sim.start Sim.plain [])))
    = [] ++ t /\
    Forall (@persists (Sim.env Sim.plain) [Runs.message_of "m1" " abc "]) t.
Proof.
  apply (@X7_records_written_come_from_the_batch (Sim.env Sim.plain)
           [Runs.message_of "m1" " abc "] (Sim.start Sim.plain [])
           (fst (@save_batch (Sim.env Sim.plain)
                   [Runs.message_of "m1" " abc "] (Sim.start Sim.plain [])))).
  apply surjective_pairing.
Defined.

(** The record written for that message: its items are the string the
    parser returned and the flag is false. *)
Example items_text_written_as_string_run :
  exists path msg b,
    w_calls (snd (@save_batch (Sim.env Sim.plain)
                    [Runs.message_of "m1" " abc "] (Sim.start Sim.plain [])))
    = [FsNewPath (Runs.message_of "m1" " abc "); FsWriteJson path msg] /\
    msg_body msg = BodyDict b /\
    items b = Some (ItemsData (VStr "abc")) /\
    errors_parsing_items b = Some false.
Proof. eexists _, _, _. vm_compute. repeat split. Qed.

Lemma save_one_lacking_items {E : Env} paths msg w :
  lacks_items msg = true ->
  exists e w',
    save_one paths msg w = (Ok (paths, msg), w') /\
    w_calls w' = w_calls w ++ [FsNewPath msg] /\
    w_log w' = w_log w ++ [ErrSavingMessage e].
Proof.
  intros Hlack. unfold save_one, try_except.
  assert (Hraise : exists e st,
             save_raw_message msg w
             = (Raise e, add_call (FsNewPath msg) (put_store st w))).
  { unfold save_raw_message.
    destruct (fs_new_path msg (w_store w)) as [st r] eqn:Hp.
    rewrite (bind_ok _ _ _ _ _ (on_store_eq _ _ _ _ _ Hp)).
    destruct r as [path|e]; cbn [of_result].
    - unfold ret at 1. rewrite (bind_ok _ _ _ path _ eq_refl).
      unfold lacks_items in Hlack.
      destruct (msg_body msg) as [b|text];
        [destruct (items b); [discriminate Hlack|]|];
        eexists _, _; reflexivity.
    - erewrite bind_raise by reflexivity. eexists _, _; reflexivity. }
  destruct Hraise as (e & st & Hraise).
  rewrite (bind_raise _ _ _ _ _ Hraise). unfold bind, log, ret.
  eexists _, _. split; [reflexivity|]. split; reflexivity.
Qed.

Lemma save_batch_loop_lacking_items {E : Env} msgs :
  forallb lacks_items msgs = true ->
  forall paths seen w,
  exists es w',
    save_batch_loop msgs paths seen w = (Ok (paths, seen ++ msgs), w') /\
    w_calls w' = w_calls w ++ map FsNewPath msgs /\
    w_log w' = w_log w ++ map ErrSavingMessage es /\
    List.length es = List.length msgs.
Proof.
  induction msgs as [|m msgs IH]; intros Hall paths seen w.
  - exists [], w. cbn. rewrite !app_nil_r. auto.
  - cbn [forallb] in Hall. apply andb_prop in Hall as [Hm Hrest].
    destruct (save_one_lacking_items paths m w Hm) as (e & w1 & H1 & C1 & L1).
    destruct (IH Hrest paths (seen ++ [m]) w1) as (es & w2 & H2 & C2 & L2 & N).
    exists (e :: es), w2. cbn [save_batch_loop].
    rewrite (bind_ok _ _ _ _ _ H1). cbv beta iota. rewrite H2.
    rewrite <- app_assoc. split; [reflexivity|].
    rewrite C2, C1, L2, L1, <- !app_assoc. cbn. auto.
Qed.

(** X8: a message whose body is not a dictionary (the body text was not
    JSON, say) or has no [items] key is never written to the raw store:
    for a batch of such messages [save_batch] returns no path and leaves
    the messages as they were; for each message it has only named a file,
    in order, and logged one error. *)
Theorem X8_messages_without_items_are_skipped {E : Env}
    (messages : list message) (w : world) :
  forallb lacks_items messages = true ->
  exists errors w',
    save_batch messages w = (Ok ([], messages), w') /\
    w_calls w' = w_calls w ++ map FsNewPath messages /\
    w_log w' = w_log w ++ map ErrSavingMessage errors /\
    List.length errors = List.length messages.
Proof.
  intros H.
  exact (save_batch_loop_lacking_items messages H [] [] w).
Qed.

(** X8, witnessed on a body that is not JSON: no file is written. *)
Lemma X8_messages_without_items_are_skipped_witness :
  exists errors w',
    @save_batch (Sim.env Sim.plain) [not_json "m1" "oops"]
      (Sim.start Sim.plain [])
    = (Ok ([], [not_json "m1" "oops"]), w') /\
    w_calls w' = [] ++ map FsNewPath [not_json "m1" "oops"] /\
    w_log w' = [] ++ map ErrSavingMessage errors /\
    List.length errors = 1%nat.
Proof.
  apply (@X8_messages_without_items_are_skipped (Sim.env Sim.plain)
           [not_json "m1" "oops"] (Sim.start Sim.plain [])).
  reflexivity.
Defined.

(* ===================================================================== *)
(** * Further properties of the statement splitter *)
(* ===================================================================== *)

Import Scripts.

Section SplitFacts.
Local Open Scope string_scope.

Lemma mem_app c a b : mem c (a ++ b) = mem c a || mem c b.
Proof.
  induction a as [|x a IH]; simpl; [reflexivity|].
  now rewrite IH, orb_assoc.
Qed.

Lemma split_on_no_sep sep s :
  forall cur, mem sep s = false -> split_on sep cur s = [cur ++ s].
Proof.
  induction s as [|c s IH]; intros cur H; simpl.
  - now rewrite str_app_nil_r.
  - simpl in H. apply orb_false_elim in H as [Hc Hs].
    rewrite Ascii.eqb_sym, Hc, IH by exact Hs. now rewrite snoc_app.
Qed.

Lemma split_on_app sep s rest :
  forall cur,
    mem sep s = false ->
    split_on sep cur (s ++ String sep rest)
    = (cur ++ s) :: split_on sep "" rest.
Proof.
  induction s as [|c s IH]; intros cur H; simpl.
  - now rewrite Ascii.eqb_refl, str_app_nil_r.
  - simpl in H. apply orb_false_elim in H as [Hc Hs].
    rewrite Ascii.eqb_sym, Hc, IH by exact Hs. now rewrite snoc_app.
Qed.

(** [sep.join(lines).split(sep)] gives the lines back. *)
Lemma split_join sep lines :
  lines <> [] ->
  forallb (fun l => negb (mem sep l)) lines = true ->
  split sep (join (String sep "") lines) = lines.
Proof.
  unfold split.
  induction lines as [|l lines IH]; intros Hne H; [congruence|].
  cbn [forallb] in H. apply andb_prop in H as [Hl Hrest].
  apply negb_true_iff in Hl.
  destruct lines as [|l' lines].
  - cbn [join]. now rewrite split_on_no_sep.
  - change (join (String sep "") (l :: l' :: lines))
      with (l ++ String sep (join (String sep "") (l' :: lines))).
    rewrite split_on_app by exact Hl. cbn [append].
    rewrite IH; [reflexivity | discriminate | exact Hrest].
Qed.

(** No piece of [s.split(sep)] holds the separator. *)
Lemma split_on_pieces sep s :
  forall cur,
    mem sep cur = false ->
    forallb (fun l => negb (mem sep l)) (split_on sep cur s) = true.
Proof.
  induction s as [|c s IH]; intros cur H; simpl.
  - now rewrite H.
  - destruct (Ascii.eqb c sep) eqn:Hc.
    + cbn [forallb]. rewrite H. cbn [negb andb]. now apply IH.
    + apply IH. unfold snoc. rewrite mem_app, H. simpl.
      now rewrite Ascii.eqb_sym, Hc.
Qed.

Lemma split_pieces sep s :
  forallb (fun l => negb (mem sep l)) (split sep s) = true.
Proof. now apply split_on_pieces. Qed.

Lemma split_on_not_nil sep s : forall cur, split_on sep cur s <> [].
Proof.
  induction s as [|c s IH]; intros cur; simpl; [discriminate|].
  destruct (Ascii.eqb c sep); [discriminate | apply IH].
Qed.

Lemma forallb_filter_keeps {A} (f g : A -> bool) l :
  forallb f l = true -> forallb f (filter g l) = true.
Proof.
  induction l as [|x l IH]; simpl; [auto|].
  intros H. apply andb_prop in H as [Hx Hl].
  destruct (g x); simpl; [rewrite Hx|]; auto.
Qed.

(** The lines of the cleaned script. *)
Lemma lines_of_cleaned sql :
  split newline (remove_comment_lines sql)
  = match code_lines sql with [] => [""] | _ => code_lines sql end.
Proof.
  unfold remove_comment_lines.
  change (filter (fun line => negb (startswith "--" (strip line)))
                 (split newline sql)) with (code_lines sql).
  destruct (code_lines sql) as [|l ls] eqn:Hcode; [reflexivity|].
  apply split_join; [discriminate|].
  rewrite <- Hcode. apply forallb_filter_keeps, split_pieces.
Qed.

End SplitFacts.

(** X9: comment lines never reach the splitter.  The lines of the text
    that [execute_statements] goes on with are the lines of the script
    whose first non-blank characters are not [--], in their order (a
    single empty line when none is left); none of them is a comment
    line, and removing the comments of the cleaned text changes
    nothing. *)
Theorem X9_comment_lines_are_removed (sql : string) :
  split newline (remove_comment_lines sql)
  = match code_lines sql with [] => [""%string] | _ => code_lines sql end /\
  forallb (fun line => negb (is_comment_line line))
          (split newline (remove_comment_lines sql)) = true /\
  remove_comment_lines (remove_comment_lines sql) = remove_comment_lines sql.
Proof.
  pose proof (lines_of_cleaned sql) as Hlines.
  assert (Hnone : forallb (fun line => negb (is_comment_line line))
                          (split newline (remove_comment_lines sql)) = true).
  { rewrite Hlines. destruct (code_lines sql) eqn:Hcode; [reflexivity|].
    rewrite <- Hcode. apply forallb_filter. }
  split; [exact Hlines|]. split; [exact Hnone|].
  unfold remove_comment_lines at 1.
  change (fun line => negb (startswith "--" (strip line)))
    with (fun line => negb (is_comment_line line)).
  rewrite (forallb_filter_id _ _ Hnone), Hlines.
  destruct (code_lines sql) eqn:Hcode.
  - unfold remove_comment_lines.
    change (filter (fun line => negb (startswith "--" (strip line)))
                   (split newline sql)) with (code_lines sql).
    now rewrite Hcode.
  - rewrite <- Hcode. reflexivity.
Qed.

Section StatementFacts.
Local Open Scope string_scope.

(** [rstrip] drops a last character that is to be removed. *)
Lemma rstrip_by_snoc_drop p s c :
  p c = true -> rstrip_by p (s ++ String c "") = rstrip_by p s.
Proof.
  intros Hc. induction s as [|a s IH]; simpl.
  - now rewrite Hc.
  - now rewrite IH.
Qed.

Lemma snoc_cases (s : string) :
  s = "" \/ exists s' c, s = s' ++ String c "".
Proof.
  induction s as [|a s IH]; [now left|]. right.
  destruct IH as [->|(s' & c & ->)].
  - now exists "", a.
  - now exists (String a s'), c.
Qed.

Lemma endswith_snoc (c d : ascii) (s : string) :
  endswith (String c "") (s ++ String d "") = Ascii.eqb c d.
Proof.
  unfold endswith. change (s ++ String d "") with (snoc s d).
  rewrite rev_snoc. cbn [rev snoc append prefix].
  destruct (ascii_dec c d) as [->|Hne].
  - now rewrite prefix_empty, Ascii.eqb_refl.
  - symmetry. now apply Ascii.eqb_neq.
Qed.

(** A text that [strip] leaves alone does not begin with a blank. *)
Lemma strip_fixed_head c r :
  strip (String c r) = String c r -> is_space c = false.
Proof.
  intros H. destruct (is_space c) eqn:Hc; [|reflexivity].
  exfalso.
  assert (Hlen : (String.length (strip (String c r)) <= String.length r)%nat).
  { unfold strip. cbn [lstrip_by]. rewrite Hc.
    pose proof (length_rstrip_by is_space (lstrip_by is_space r)).
    pose proof (length_lstrip_by is_space r). lia. }
  rewrite H in Hlen. simpl in Hlen. lia.
Qed.

Lemma strip_fixed_rstrip s : strip s = s -> rstrip_by is_space s = s.
Proof.
  destruct s as [|c r]; [reflexivity|]. intros H.
  pose proof (strip_fixed_head _ _ H) as Hc.
  unfold strip in H. now rewrite (lstrip_by_fixed _ _ _ Hc) in H.
Qed.

(** The facts on a line [s;] used by the splitter. *)
Lemma statement_line s :
  one_line_statement s = true ->
  strip (s ++ ";") = s ++ ";" /\
  startswith "--" (s ++ ";") = false /\
  endswith ";" (s ++ ";") = true /\
  nonempty (s ++ ";") = true /\
  (s ++ ";" =? ";") = false /\
  rstrip_char ";" (s ++ ";") = s /\
  strip s = s /\
  mem newline (s ++ ";") = false.
Proof.
  unfold one_line_statement. intros H.
  apply andb_prop in H as [H Hend]. apply andb_prop in H as [H Hcomment].
  apply andb_prop in H as [H Hnl]. apply andb_prop in H as [Hne Hstrip].
  apply negb_true_iff in Hend, Hcomment, Hnl.
  apply String.eqb_eq in Hstrip.
  destruct s as [|c r]; [discriminate Hne|].
  pose proof (strip_fixed_head _ _ Hstrip) as Hc.
  split; [exact (strip_enclosed c ";" r Hc eq_refl)|].
  split.
  { unfold startswith in *. destruct r as [|b r].
    - cbn [append prefix].
      destruct (ascii_dec "-" c); [|reflexivity].
      destruct (ascii_dec "-" ";") as [Heq|]; [discriminate Heq | reflexivity].
    - cbn [append prefix] in *. rewrite prefix_empty in *. exact Hcomment. }
  split; [apply (endswith_snoc ";" ";")|].
  split; [reflexivity|].
  split.
  { cbn [append String.eqb]. destruct r; cbn [append String.eqb];
      apply andb_false_r. }
  split.
  { unfold rstrip_char.
    rewrite rstrip_by_snoc_drop by reflexivity.
    destruct (snoc_cases (String c r)) as [Heq|(s' & d & Heq)];
      [discriminate Heq|].
    rewrite Heq in *. rewrite endswith_snoc in Hend.
    now apply rstrip_by_snoc. }
  split; [exact Hstrip|].
  rewrite mem_app, Hnl. reflexivity.
Qed.

Lemma split_loop_statements ss :
  forallb one_line_statement ss = true ->
  forall statements,
    split_loop (map (fun s => s ++ ";") ss) [] statements
    = (statements ++ ss)%list.
Proof.
  induction ss as [|s ss IH]; intros H statements.
  - cbn. now rewrite app_nil_r.
  - cbn [forallb] in H. apply andb_prop in H as [Hs Hrest].
    destruct (statement_line s Hs)
      as (H1 & _ & H3 & H4 & H5 & H6 & H7 & _).
    cbn [map split_loop app join].
    rewrite H1, H3, H4, H5, H6, H7. cbn [negb andb].
    rewrite (IH Hrest). now rewrite <- app_assoc.
Qed.

Lemma statement_lines ss :
  forallb one_line_statement ss = true ->
  forallb (fun l => negb (mem newline l)) (map (fun s => s ++ ";") ss) = true /\
  filter (fun line => negb (is_comment_line line)) (map (fun s => s ++ ";") ss)
  = map (fun s => s ++ ";") ss.
Proof.
  induction ss as [|s ss IH]; intros H; [split; reflexivity|].
  cbn [forallb] in H. apply andb_prop in H as [Hs Hrest].
  destruct (IH Hrest) as [IH1 IH2].
  destruct (statement_line s Hs) as (H1 & H2 & _ & _ & _ & _ & _ & H8).
  cbn [map forallb filter]. unfold is_comment_line at 1.
  rewrite H1, H2, H8, IH1, IH2. split; reflexivity.
Qed.

Lemma code_lines_script ss :
  ss <> [] ->
  forallb one_line_statement ss = true ->
  code_lines (script_of ss) = map (fun s => s ++ ";") ss.
Proof.
  intros Hne H. unfold code_lines, script_of.
  destruct (statement_lines ss H) as [Hnl Hkeep].
  change nl with (String newline "").
  rewrite split_join; [exact Hkeep | | exact Hnl].
  destruct ss; [congruence | discriminate].
Qed.

End StatementFacts.

(** X10: the splitter gives back the statements of a script written one
    statement per line.  For statements that are not empty, have no
    blank at either end, no line break, do not open as a comment and do
    not end with a semicolon, the script that holds them one per line,
    each closed by a semicolon, is split into exactly these statements,
    in order. *)
Theorem X10_one_statement_per_line (statements : list string) :
  forallb one_line_statement statements = true ->
  split_statements (script_of statements) = statements.
Proof.
  intros H. destruct statements as [|s ss]; [reflexivity|].
  unfold split_statements.
  rewrite lines_of_cleaned, code_lines_script by (discriminate || exact H).
  cbn [map]. exact (split_loop_statements (s :: ss) H []).
Qed.

(** X10, witnessed on two statements. *)
Lemma X10_one_statement_per_line_witness :
  split_statements
    (script_of ["CREATE TABLE t (x INT)"%string;
                "INSERT INTO t VALUES (1)"%string])
  = ["CREATE TABLE t (x INT)"%string; "INSERT INTO t VALUES (1)"%string].
Proof.
  apply (X10_one_statement_per_line
           ["CREATE TABLE t (x INT)"%string;
            "INSERT INTO t VALUES (1)"%string]).
  reflexivity.
Defined.

Section BlankFacts.
Local Open Scope string_scope.

Lemma rstrip_all_space s : rstrip_by is_space s = "" <-> all_space s = true.
Proof.
  induction s as [|c s IH]; simpl; [tauto|].
  destruct (rstrip_by is_space s) as [|c' r'].
  - destruct (is_space c); simpl.
    + split; intros _; [now apply IH | reflexivity].
    + split; discriminate.
  - split; [discriminate|]. intros H. apply andb_prop in H as [_ H].
    apply IH in H. discriminate H.
Qed.

Lemma all_space_lstrip s : all_space (lstrip_by is_space s) = all_space s.
Proof.
  induction s as [|c s IH]; simpl; [reflexivity|].
  destruct (is_space c) eqn:Hc; simpl; [exact IH | now rewrite Hc].
Qed.

(** [strip] leaves nothing exactly of the texts made of blanks. *)
Lemma strip_empty s : strip s = "" <-> all_space s = true.
Proof.
  unfold strip. rewrite rstrip_all_space, all_space_lstrip. tauto.
Qed.

Lemma blank_line_all_space line :
  is_blank_line line = true <-> all_space line = true.
Proof.
  unfold is_blank_line. rewrite <- strip_empty.
  destruct (strip line); simpl; split; congruence.
Qed.

Lemma all_space_app a b : all_space (a ++ b) = all_space a && all_space b.
Proof.
  induction a as [|c a IH]; simpl; [reflexivity|].
  now rewrite IH, andb_assoc.
Qed.

Lemma all_space_join lines :
  forallb is_blank_line lines = true -> all_space (join nl lines) = true.
Proof.
  induction lines as [|l lines IH]; [reflexivity|].
  cbn [forallb]. intros H. apply andb_prop in H as [Hl Hrest].
  apply blank_line_all_space in Hl.
  destruct lines as [|l' lines]; [exact Hl|].
  change (join nl (l :: l' :: lines)) with (l ++ nl ++ join nl (l' :: lines)).
  rewrite !all_space_app, Hl, (IH Hrest). reflexivity.
Qed.

(** Blank lines never close a statement and leave none behind. *)
Lemma split_loop_blank lines :
  forallb is_blank_line lines = true ->
  forall current_stmt statements,
    forallb is_blank_line current_stmt = true ->
    split_loop lines current_stmt statements = statements.
Proof.
  induction lines as [|l lines IH]; intros H cur stmts Hcur.
  - cbn [split_loop]. destruct cur as [|c cur]; [reflexivity|].
    apply all_space_join, strip_empty in Hcur. now rewrite Hcur.
  - cbn [forallb] in H. apply andb_prop in H as [Hl Hrest].
    cbn [split_loop].
    assert (Hstrip : strip l = "").
    { now apply strip_empty, blank_line_all_space. }
    rewrite Hstrip.
    change (endswith ";" "") with false. cbv iota.
    apply IH; [exact Hrest|].
    rewrite forallb_app, Hcur. cbn [forallb]. now rewrite Hl.
Qed.

Lemma code_lines_blank sql :
  nothing_to_run sql = true -> forallb is_blank_line (code_lines sql) = true.
Proof.
  unfold nothing_to_run, code_lines.
  induction (split newline sql) as [|l lines IH]; [reflexivity|].
  cbn [forallb filter]. intros H. apply andb_prop in H as [Hl Hrest].
  destruct (is_comment_line l); cbn [negb].
  - now apply IH.
  - rewrite orb_false_r in Hl. cbn [forallb]. rewrite Hl. now apply IH.
Qed.

Lemma nothing_to_split sql :
  nothing_to_run sql = true -> split_statements sql = [].
Proof.
  intros H. unfold split_statements. rewrite lines_of_cleaned.
  pose proof (code_lines_blank sql H) as Hblank.
  destruct (code_lines sql) as [|l ls]; [reflexivity|].
  now apply split_loop_blank.
Qed.

End BlankFacts.

(** X11: a script in which every line is blank or a comment holds no
    statement: [execute_statements] opens the connection and does nothing
    else; it sends no statement to the database and logs nothing. *)
Theorem X11_nothing_to_run {E : Env} (sql : string) (w : world)
    (r : result unit) (w' : world) :
  nothing_to_run sql = true ->
  execute_statements sql w = (r, w') ->
  split_statements sql = [] /\
  w_calls w' = w_calls w ++ [DbConnect] /\
  w_log w' = w_log w.
Proof.
  intros H Hrun. pose proof (nothing_to_split sql H) as Hsplit.
  split; [exact Hsplit|].
  unfold execute_statements in Hrun. rewrite Hsplit in Hrun.
  unfold connect, bind, on_store, run_statements in Hrun.
  destruct (db_connect (w_store w)) as [st [e|]];
    inversion Hrun; subst; split; reflexivity.
Qed.

(** X11, witnessed on a script of two comments and a blank line. *)
Lemma X11_nothing_to_run_witness :
  exists w',
    @execute_statements (Sim.env Sim.plain)
      ("-- schema" ++ nl ++ "   " ++ nl ++ "  -- nothing yet")%string
      (Sim.start Sim.plain [])
    = (Ok tt, w') /\
    w_calls w' = [DbConnect] /\ Sim.executed (w_store w') = [].
Proof.
  eexists. split; [reflexivity|].
  destruct (@X11_nothing_to_run (Sim.env Sim.plain)
              ("-- schema" ++ nl ++ "   " ++ nl ++ "  -- nothing yet")%string
              (Sim.start Sim.plain []) _ _ eq_refl eq_refl)
    as (_ & Hcalls & _).
  split; [exact Hcalls | reflexivity].
Defined.

(* ===================================================================== *)
(** * Further properties of the loader *)
(* ===================================================================== *)

Import Database.

Lemma emits_weaken {E : Env} (P Q : call -> Prop) {A} (c : M A) :
  (forall x, P x -> Q x) -> emits P c -> emits Q c.
Proof.
  intros HPQ Hc w r w' H. destruct (Hc _ _ _ H) as (t & Ht & HF).
  exists t. split; [exact Ht|]. eapply Forall_impl; eauto.
Qed.

Lemma emits_count_table_count {E : Env} table :
  emits is_count_query (table_count table).
Proof.
  unfold table_count, connect, execute_sql.
  emits_steps; unfold is_count_query; eauto.
Qed.

(** [table_count] logs nothing and leaves the queue alone. *)
Lemma table_count_silent {E : Env} table w r w' :
  table_count table w = (r, w') ->
  w_log w' = w_log w /\ w_queue w' = w_queue w.
Proof.
  unfold table_count, try_except, connect, execute_sql, bind, on_store,
    of_status, of_result, ret, raise.
  destruct (db_connect (w_store w)) as [st0 [e|]]; simpl.
  - intros H; inversion H; auto.
  - destruct (conn_execute (count_sql table) st0) as [st1 [c|e]]; simpl.
    + destruct (fetchone_0 c); intros H; inversion H; auto.
    + intros H; inversion H; auto.
Qed.

Section DbCalls.
Context {E : Env}.
Variable P : call -> Prop.
Hypothesis P_db : forall c, is_db_call c = true -> P c.

Lemma emits_db_connect : emits P connect.
Proof. unfold connect. emits_steps. now apply P_db. Qed.

Lemma emits_db_execute_sql sql : emits P (execute_sql sql).
Proof. unfold execute_sql. emits_steps. now apply P_db. Qed.

Lemma emits_db_run_statements stmts :
  forall i, emits P (run_statements stmts i).
Proof.
  induction stmts as [|s stmts IH]; intros i; simpl.
  - apply emits_ret.
  - apply emits_bind; [|intros _; apply IH].
    destruct (nonempty s); [|apply emits_ret].
    apply emits_try; [|intros e; emits_steps].
    apply emits_bind; [apply emits_db_execute_sql | intros c; apply emits_ret].
Qed.

Lemma emits_db_execute_statements sql : emits P (execute_statements sql).
Proof.
  unfold execute_statements.
  apply emits_bind; [apply emits_db_connect|].
  intros _. apply emits_db_run_statements.
Qed.

Lemma emits_db_table_count table : emits P (table_count table).
Proof.
  apply (emits_weaken is_count_query); [|apply emits_count_table_count].
  intros c [->|[t ->]]; now apply P_db.
Qed.

Lemma emits_db_probe : emits P probe_bronze_json.
Proof.
  unfold probe_bronze_json.
  apply emits_try; [|intros e; apply emits_log].
  apply emits_bind; [apply emits_db_connect|]. intros _.
  apply emits_bind; [apply emits_db_execute_sql|]. intros _.
  apply emits_ret.
Qed.

Lemma emits_db_render name kwargs :
  forall sql, emits P (render name kwargs sql).
Proof.
  induction kwargs as [|[k v] kwargs IH]; intros sql; simpl.
  - apply emits_ret.
  - destruct (contains (placeholder_of k) sql); [apply IH|].
    apply emits_bind; [apply emits_log | intros _; apply IH].
Qed.

Lemma emits_db_run_model name kwargs :
  P (FsReadText (model_path name)) -> emits P (run_model name kwargs).
Proof.
  intros Hread. unfold run_model.
  apply emits_bind; [apply emits_on_store; exact Hread|].
  intros [sql|]; [|apply emits_raise].
  apply emits_bind; [apply emits_db_render|]. intros sql'.
  apply emits_bind; [|intros _; apply emits_db_execute_statements].
  destruct (findall_placeholders sql'); [apply emits_ret | apply emits_log].
Qed.

Lemma emits_db_run_model_logged name kwargs :
  P (FsReadText (model_path name)) -> emits P (run_model_logged name kwargs).
Proof.
  intros Hread. unfold run_model_logged.
  apply emits_try; [now apply emits_db_run_model|].
  intros e. emits_steps.
Qed.

End DbCalls.

(** The probe of the raw files never raises. *)
Lemma probe_returns {E : Env} w :
  exists w', probe_bronze_json w = (Ok tt, w').
Proof.
  unfold probe_bronze_json, try_except.
  destruct (bind connect _ w) as [[[]|e] w1]; [eauto|].
  unfold log. eauto.
Qed.

(** A model run that raises has logged the model and the exception
    last. *)
Lemma run_model_logged_raises {E : Env} name kwargs w e w' :
  run_model_logged name kwargs w = (Raise e, w') ->
  exists l, w_log w' = l ++ [ErrModel name e].
Proof.
  unfold run_model_logged, try_except.
  destruct (run_model name kwargs w) as [[[]|e1] w1]; [discriminate|].
  unfold bind, log, raise. intros H; inversion H; subst.
  eexists. reflexivity.
Qed.

Lemma no_items_model_db (c : call) :
  is_db_call c = true -> reads_model "silver_items" c = false.
Proof. destruct c; (discriminate || reflexivity). Qed.

(** X12: the silver stage fails only in one of its two models, and says
    so.  Whenever [transform_to_silver] raises, raw files were found, the
    exception is the one a model run raised, and the last record logged
    names that model and that exception: neither the listing of the raw
    files, nor the test read, nor the row counts make the stage fail.
    When it is the first model, [silver_events], that failed, the file of
    the second one is never read. *)
Theorem X12_silver_stage_fails_only_in_a_model {E : Env} (w w' : world)
    (e : exn) :
  transform_to_silver w = (Raise e, w') ->
  exists model l t,
    (model = "silver_events"%string \/ model = "silver_items"%string) /\
    fs_rglob_json bronze_path (w_store w) <> [] /\
    w_log w' = l ++ [ErrModel model e] /\
    w_calls w' = w_calls w ++ t /\
    (model = "silver_events"%string ->
     ~ In (FsReadText (model_path "silver_items")) t).
Proof.
  intros H. unfold transform_to_silver in H.
  rewrite (bind_ok _ _ _ _ _
             (on_store_eq (FsRglobJson bronze_path)
                (fun st => (st, fs_rglob_json bronze_path st)) w _ _ eq_refl))
    in H.
  destruct (fs_rglob_json bronze_path (w_store w)) as [|f fs] eqn:Hfiles.
  { unfold bind, log, ret in H. discriminate H. }
  set (P := fun c => reads_model "silver_items" c = false).
  set (w0 := add_call (FsRglobJson bronze_path) (put_store (w_store w) w))
    in H.
  destruct (probe_returns w0) as [w1 Hp].
  rewrite (bind_ok _ _ _ _ _ Hp) in H.
  destruct (emits_db_probe P no_items_model_db _ _ _ Hp) as (t1 & C1 & F1).
  destruct (table_count_returns "silver_events" w1) as (n1 & w2 & Hc1 & _).
  rewrite (bind_ok _ _ _ _ _ Hc1) in H.
  destruct (emits_db_table_count P no_items_model_db _ _ _ _ Hc1)
    as (t2 & C2 & F2).
  destruct (table_count_returns "silver_items" w2) as (n2 & w3 & Hc2 & _).
  rewrite (bind_ok _ _ _ _ _ Hc2) in H.
  destruct (emits_db_table_count P no_items_model_db _ _ _ _ Hc2)
    as (t3 & C3 & F3).
  destruct (run_model_logged "silver_events" [("bronze_path", bronze_path)] w3)
    as [[[]|e1] w4] eqn:Hm1.
  - rewrite (bind_ok _ _ _ _ _ Hm1) in H.
    destruct (emits_run_model_logged (fun _ => True) (fun _ _ => I)
                _ _ _ _ _ Hm1) as (t4 & C4 & _).
    destruct (run_model_logged "silver_items" [("bronze_path", bronze_path)] w4)
      as [[[]|e2] w5] eqn:Hm2.
    + rewrite (bind_ok _ _ _ _ _ Hm2) in H.
      destruct (table_count_returns "silver_events" w5) as (n3 & w6 & Hc3 & _).
      rewrite (bind_ok _ _ _ _ _ Hc3) in H.
      destruct (table_count_returns "silver_items" w6) as (n4 & w7 & Hc4 & _).
      rewrite (bind_ok _ _ _ _ _ Hc4) in H. discriminate H.
    + rewrite (bind_raise _ _ _ _ _ Hm2) in H. inversion H; subst e2 w5.
      destruct (run_model_logged_raises _ _ _ _ _ Hm2) as [l Hl].
      destruct (emits_run_model_logged (fun _ => True) (fun _ _ => I)
                  _ _ _ _ _ Hm2) as (t5 & C5 & _).
      exists "silver_items"%string, l, ([FsRglobJson bronze_path] ++ t1 ++ t2
                                 ++ t3 ++ t4 ++ t5).
      split; [now right|]. split; [discriminate|]. split; [exact Hl|].
      split; [|discriminate].
      rewrite C5, C4, C3, C2, C1. unfold w0. cbn [w_calls add_call put_store].
      now rewrite <- !app_assoc.
  - rewrite (bind_raise _ _ _ _ _ Hm1) in H. inversion H; subst e1 w4.
    destruct (run_model_logged_raises _ _ _ _ _ Hm1) as [l Hl].
    destruct (emits_db_run_model_logged P no_items_model_db
                "silver_events" [("bronze_path", bronze_path)] eq_refl
                _ _ _ Hm1) as (t4 & C4 & F4).
    exists "silver_events"%string, l,
      ([FsRglobJson bronze_path] ++ t1 ++ t2 ++ t3 ++ t4).
    split; [now left|]. split; [discriminate|]. split; [exact Hl|].
    split.
    + rewrite C4, C3, C2, C1. unfold w0. cbn [w_calls add_call put_store].
      now rewrite <- !app_assoc.
    + intros _ Hin.
      assert (HF : Forall P ([FsRglobJson bronze_path] ++ t1 ++ t2 ++ t3
                             ++ t4)).
      { repeat (apply Forall_app; split); auto.
        constructor; [reflexivity | constructor]. }
      rewrite Forall_forall in HF. specialize (HF _ Hin).
      unfold P, reads_model in HF. rewrite String.eqb_refl in HF.
      discriminate HF.
Qed.

(** X12, witnessed on a host where the statement of the first model
    fails. *)
Lemma X12_silver_stage_fails_only_in_a_model_witness :
  exists model l t,
    (model = "silver_events"%string \/ model = "silver_items"%string) /\
    Sim.raw_files SilverRuns.one_raw_file <> [] /\
    w_log (snd (@transform_to_silver
                  (Sim.env (Runs.sql_fails_on "INSERT"))
                  (SilverRuns.stocked (Runs.sql_fails_on "INSERT"))))
    = l ++ [ErrModel model
              (Exn "Error" "INSERT sql/models/silver_events.sql")] /\
    w_calls (snd (@transform_to_silver
                    (Sim.env (Runs.sql_fails_on "INSERT"))
                    (SilverRuns.stocked (Runs.sql_fails_on "INSERT"))))
    = [] ++ t /\
    (model = "silver_events"%string ->
     ~ In (FsReadText (model_path "silver_items")) t).
Proof.
  destruct (@X12_silver_stage_fails_only_in_a_model
              (Sim.env (Runs.sql_fails_on "INSERT"))
              (SilverRuns.stocked (Runs.sql_fails_on "INSERT"))
              (snd (@transform_to_silver
                      (Sim.env (Runs.sql_fails_on "INSERT"))
                      (SilverRuns.stocked (Runs.sql_fails_on "INSERT"))))
              (Exn "Error" "INSERT sql/models/silver_events.sql"))
    as (model & l & t & Hm & Hfiles & Hl & Hc & Hn).
  { vm_compute. reflexivity. }
  exists model, l, t. split; [exact Hm|]. split; [discriminate|].
  split; [exact Hl|]. split; [exact Hc | exact Hn].
Defined.

Lemma emits_count_get_layer_stats {E : Env} :
  emits is_count_query get_layer_stats.
Proof.
  unfold get_layer_stats.
  repeat (apply emits_bind; [apply emits_count_table_count | intros ?]).
  apply emits_ret.
Qed.

(** X13: [get_layer_stats] never raises.  In every state of the world it
    returns the six row counts: each entry is what [table_count] returns
    for its table, the six tables being counted one after the other in
    the order silver_events, silver_items, fact_events, fact_event_items,
    dim_items, dim_users, each in the world the previous count left.  It
    only opens the connection and sends row counts to the database, it
    logs nothing and leaves the queue alone; no count is negative when the
    counts fetched are not. *)
Theorem X13_layer_stats_always_returns {E : Env} (w : world) :
  exists st w1 w2 w3 w4 w5 w' t,
    get_layer_stats w = (Ok st, w') /\
    table_count "silver_events" w = (Ok (ls_silver_events st), w1) /\
    table_count "silver_items" w1 = (Ok (ls_silver_items st), w2) /\
    table_count "fact_events" w2 = (Ok (ls_fact_events st), w3) /\
    table_count "fact_event_items" w3 = (Ok (ls_fact_items st), w4) /\
    table_count "dim_items" w4 = (Ok (ls_dim_items st), w5) /\
    table_count "dim_users" w5 = (Ok (ls_dim_users st), w') /\
    w_calls w' = w_calls w ++ t /\ Forall is_count_query t /\
    w_log w' = w_log w /\ w_queue w' = w_queue w /\
    ((forall c n, fetchone_0 c = Some n -> 0 <= n) ->
     counts_not_negative st).
Proof.
  destruct (table_count_returns "silver_events" w) as (n1 & w1 & H1 & _ & N1).
  destruct (table_count_returns "silver_items" w1) as (n2 & w2 & H2 & _ & N2).
  destruct (table_count_returns "fact_events" w2) as (n3 & w3 & H3 & _ & N3).
  destruct (table_count_returns "fact_event_items" w3)
    as (n4 & w4 & H4 & _ & N4).
  destruct (table_count_returns "dim_items" w4) as (n5 & w5 & H5 & _ & N5).
  destruct (table_count_returns "dim_users" w5) as (n6 & w6 & H6 & _ & N6).
  assert (Hrun : get_layer_stats w
                 = (Ok {| ls_silver_events := n1; ls_silver_items := n2;
                          ls_fact_events := n3; ls_fact_items := n4;
                          ls_dim_items := n5; ls_dim_users := n6 |}, w6)).
  { unfold get_layer_stats.
    rewrite (bind_ok _ _ _ _ _ H1), (bind_ok _ _ _ _ _ H2),
      (bind_ok _ _ _ _ _ H3), (bind_ok _ _ _ _ _ H4),
      (bind_ok _ _ _ _ _ H5), (bind_ok _ _ _ _ _ H6).
    reflexivity. }
  destruct (emits_count_get_layer_stats _ _ _ Hrun) as (t & Ht & HF).
  eexists _, w1, w2, w3, w4, w5, w6, t. split; [exact Hrun|].
  cbn [ls_silver_events ls_silver_items ls_fact_events ls_fact_items
       ls_dim_items ls_dim_users].
  split; [exact H1|]. split; [exact H2|]. split; [exact H3|].
  split; [exact H4|]. split; [exact H5|]. split; [exact H6|].
  split; [exact Ht|]. split; [exact HF|].
  destruct (table_count_silent _ _ _ _ H1) as [L1 Q1].
  destruct (table_count_silent _ _ _ _ H2) as [L2 Q2].
  destruct (table_count_silent _ _ _ _ H3) as [L3 Q3].
  destruct (table_count_silent _ _ _ _ H4) as [L4 Q4].
  destruct (table_count_silent _ _ _ _ H5) as [L5 Q5].
  destruct (table_count_silent _ _ _ _ H6) as [L6 Q6].
  split; [congruence|]. split; [congruence|].
  intros Hfetch. unfold counts_not_negative. cbn.
  repeat split;
    match goal with
    | |- 0 <= ?n =>
        match goal with
        | N : n = 0 \/ _ |- _ =>
            destruct N as [->|(st0 & st1 & c & _ & _ & Hf)]; [lia | eauto]
        end
    end.
Qed.

(** The counts of a store in which no table can be counted are all 0. *)
Example layer_stats_without_tables_run :
  exists w',
    @get_layer_stats (Sim.env (Runs.sql_fails_on "SELECT COUNT"))
      (Sim.start (Runs.sql_fails_on "SELECT COUNT") [])
    = (Ok {| ls_silver_events := 0; ls_silver_items := 0;
             ls_fact_events := 0; ls_fact_items := 0;
             ls_dim_items := 0; ls_dim_users := 0 |}, w').
Proof. eexists. vm_compute. reflexivity. Qed.

(* ===================================================================== *)
(** * Further properties of the orchestrator *)
(* ===================================================================== *)

(** What the stages make of the statistics they are given. *)
Lemma process_layers_stats {E : Env} msgs st0 target del w st w' :
  process_layers msgs st0 target del w = (Ok st, w') ->
  messages_received st = messages_received st0 /\
  errors st = errors st0 /\
  0 <= bronze_saved st <= len msgs /\
  ((target =? "bronze")%string = true ->
   silver_events st = silver_events st0 /\
   silver_items st = silver_items st0 /\
   gold_events st = gold_events st0 /\ gold_items st = gold_items st0) /\
  ((target =? "silver")%string = true ->
   gold_events st = gold_events st0 /\ gold_items st = gold_items st0).
Proof.
  intros H. unfold process_layers in H.
  destruct (save_batch_returns msgs w) as (paths & msgs' & w1 & Hs & L & _).
  rewrite (bind_ok _ _ _ _ _ Hs) in H. cbv beta iota in H.
  assert (Hlen : 0 <= len paths <= len msgs) by (unfold len; lia).
  destruct (target =? "bronze")%string eqn:Hb.
  { inversion H; subst. cbn. repeat split; auto; lia. }
  bind_inv H. bind_inv H.
  destruct (target =? "silver")%string eqn:Hsl.
  { inversion H; subst. cbn. repeat split; auto; try lia; discriminate. }
  bind_inv H. bind_inv H. bind_inv H.
  inversion H; subst. cbn. repeat split; auto; try lia; discriminate.
Qed.

(** The statistics of a batch that was processed without raising. *)
Lemma process_batch_stats {E : Env} target del w st w' :
  process_batch target del w = (Ok st, w') ->
  exists msgs w0,
    receive_messages None None None w = (Ok msgs, w0) /\
    messages_received st = len msgs /\
    0 <= bronze_saved st <= messages_received st /\
    errors st = 0 /\
    ((target =? "bronze")%string = true ->
     silver_events st = 0 /\ silver_items st = 0 /\
     gold_events st = 0 /\ gold_items st = 0) /\
    ((target =? "silver")%string = true ->
     gold_events st = 0 /\ gold_items st = 0).
Proof.
  intros H. unfold process_batch in H.
  destruct (receive_messages None None None w) as [[msgs|e] w0] eqn:Hr.
  - rewrite (bind_ok _ _ _ _ _ Hr) in H. exists msgs, w0.
    split; [reflexivity|].
    destruct msgs as [|m msgs].
    + inversion H; subst. cbn. repeat split; auto; lia.
    + unfold try_except in H.
      destruct (process_layers (m :: msgs) (stats_received (len (m :: msgs)))
                  target del w0) as [[st1|e] w1] eqn:Hl.
      * inversion H; subst st1 w1.
        destruct (process_layers_stats _ _ _ _ _ _ _ Hl)
          as (Hm & He & Hbr & Hb & Hs).
        cbn [stats_received messages_received errors silver_events
             silver_items gold_events gold_items] in *.
        rewrite Hm. auto.
      * unfold bind, log, raise in H. discriminate H.
  - rewrite (bind_raise _ _ _ _ _ Hr) in H. discriminate H.
Qed.

(** X14: the statistics [process_batch] returns.  Whenever it returns,
    [messages_received] is the number of messages received,
    [bronze_saved] lies between 0 and that number, and [errors] is 0 (the
    counter is only ever incremented on the way to re-raising).  With the
    target layer bronze the four counters of the later stages are 0, and
    with the target layer silver the two counters of the modeled layer
    are. *)
Theorem X14_statistics_of_a_batch {E : Env} (target : string) (del : bool)
    (w : world) (st : stats) (w' : world) :
  process_batch target del w = (Ok st, w') ->
  (exists msgs w0,
      receive_messages None None None w = (Ok msgs, w0) /\
      messages_received st = len msgs) /\
  0 <= bronze_saved st <= messages_received st /\
  errors st = 0 /\
  (target = "bronze"%string ->
   silver_events st = 0 /\ silver_items st = 0 /\
   gold_events st = 0 /\ gold_items st = 0) /\
  (target = "silver"%string -> gold_events st = 0 /\ gold_items st = 0).
Proof.
  intros H.
  destruct (process_batch_stats _ _ _ _ _ H)
    as (msgs & w0 & Hr & Hm & Hbr & He & Hb & Hs).
  split; [exists msgs, w0; auto|]. split; [exact Hbr|]. split; [exact He|].
  split; intros ->; [apply Hb | apply Hs]; reflexivity.
Qed.

(** X14, witnessed on a batch of two messages taken to the silver
    layer. *)
Lemma X14_statistics_of_a_batch_witness :
  exists st,
    fst (@process_batch (Sim.env Sim.plain) "silver" false
           (Sim.start Sim.plain
              [Sim.entry "m1" "[{a=1}]"; Sim.entry "m2" "[{a=2}]"]))
    = Ok st /\
    messages_received st = 2 /\ bronze_saved st = 2 /\ errors st = 0 /\
    gold_events st = 0 /\ gold_items st = 0.
Proof.
  eexists. split; [vm_compute; reflexivity|].
  destruct (@X14_statistics_of_a_batch (Sim.env Sim.plain) "silver" false
              (Sim.start Sim.plain
                 [Sim.entry "m1" "[{a=1}]"; Sim.entry "m2" "[{a=2}]"])
              _ _ ltac:(vm_compute; reflexivity))
    as (_ & _ & He & _ & Hs).
  destruct (Hs eq_refl) as [Hg1 Hg2].
  split; [reflexivity|]. split; [reflexivity|]. split; [exact He|].
  split; [exact Hg1 | exact Hg2].
Defined.

Import Contract.

(** One pass of the polling loop: it returns, and either leaves the
    totals as they were or adds one batch to them. *)
Lemma pipeline_cycle_returns {E : Env} target tot w :
  exists tot' w',
    pipeline_cycle target tot w = (Ok tot', w') /\
    (tot' = tot \/
     exists n b,
       t_batches tot' = t_batches tot + 1 /\
       t_messages tot' = t_messages tot + n /\
       t_bronze tot' = t_bronze tot + b /\
       1 <= n /\ 0 <= b <= n /\
       (bounded_answers -> n <= 10)).
Proof.
  unfold pipeline_cycle, try_except.
  destruct (process_batch target false w) as [[st|e] w1] eqn:Hb.
  - rewrite (bind_ok _ _ _ _ _ Hb). unfold ret.
    eexists _, _. split; [reflexivity|].
    destruct (0 <? messages_received st) eqn:Hpos; [|now left].
    right. exists (messages_received st), (bronze_saved st).
    apply Z.ltb_lt in Hpos.
    destruct (process_batch_stats _ _ _ _ _ Hb)
      as (msgs & w0 & Hr & Hm & Hbr & _).
    cbn. repeat split; try lia.
    intros Hq.
    destruct (receive_messages_frame _ _ _ _ _ _ Hr) as (_ & _ & Hlen).
    destruct (Hlen _ eq_refl) as (q & l & Hrecv & Hl).
    apply Hq in Hrecv. unfold len in *. cbn in Hrecv. lia.
  - rewrite (bind_raise _ _ _ _ _ Hb). unfold bind, log, ret.
    eexists _, _. split; [reflexivity | now left].
Qed.

Lemma run_cycles_returns {E : Env} cycles :
  forall target tot w,
  exists tot' w',
    run_cycles cycles target tot w = (Ok tot', w') /\
    0 <= t_batches tot' - t_batches tot <= Z.of_nat cycles /\
    t_batches tot' - t_batches tot <= t_messages tot' - t_messages tot /\
    0 <= t_bronze tot' - t_bronze tot <= t_messages tot' - t_messages tot /\
    (bounded_answers ->
     t_messages tot' - t_messages tot
     <= 10 * (t_batches tot' - t_batches tot)).
Proof.
  induction cycles as [|k IH]; intros target tot w.
  - exists tot, w. split; [reflexivity|].
    change (Z.of_nat 0) with 0. repeat split; intros; lia.
  - destruct (pipeline_cycle_returns target tot w) as (tot1 & w1 & H1 & Hstep).
    destruct (IH target tot1 w1) as (tot2 & w2 & H2 & B2 & M2 & R2 & Q2).
    exists tot2, w2. cbn [run_cycles]. rewrite (bind_ok _ _ _ _ _ H1).
    split; [exact H2|].
    destruct Hstep as [->|(n & b & Hb & Hm & Hr & Hn & Hbn & Hq)].
    + repeat split; try lia. intros Hc. specialize (Q2 Hc). lia.
    + repeat split; try lia. intros Hc. specialize (Q2 Hc).
      specialize (Hq Hc). lia.
Qed.

(** X15: the polling loop never raises.  Whatever the queue, the file
    system and the database do, [run_pipeline] goes through its cycles
    and returns the totals: an exception of a cycle is logged and the
    loop goes on.  The totals count at most one batch per cycle, at
    least one message per batch, and no more raw files than messages;
    when the queue returns no more messages than asked for, they count at
    most ten messages per batch. *)
Theorem X15_polling_loop_never_raises {E : Env} (cycles : nat)
    (target : string) (w : world) :
  exists tot w',
    run_pipeline cycles target w = (Ok tot, w') /\
    0 <= t_batches tot <= Z.of_nat cycles /\
    t_batches tot <= t_messages tot /\
    0 <= t_bronze tot <= t_messages tot /\
    (bounded_answers -> t_messages tot <= 10 * t_batches tot).
Proof.
  destruct (run_cycles_returns cycles target zero_totals w)
    as (tot & w' & H & B & M & R & Q).
  exists tot, w'.
  cbn [zero_totals t_batches t_messages t_bronze] in B, M, R, Q.
  split; [exact H|]. repeat split; try lia.
  intros Hc. specialize (Q Hc). lia.
Qed.

(** X16: with the target layer bronze a batch stays away from the
    database.  After the request to the queue, [process_batch] only names
    raw files and writes flagged records: it opens no connection, sends
    no statement, reads no model, exports nothing and requests no
    deletion, even when asked to delete after processing. *)
Theorem X16_bronze_batches_stay_off_the_database {E : Env} (del : bool)
    (w : world) (r : result stats) (w' : world) :
  process_batch "bronze" del w = (r, w') ->
  exists n vt wt t,
    w_calls w' = w_calls w ++ SqsReceive n vt wt :: t /\
    Forall raw_call t.
Proof.
  intros H. unfold process_batch in H.
  destruct (receive_messages None None None w) as [[msgs|e] w0] eqn:Hr;
    destruct (receive_messages_frame _ _ _ _ _ _ Hr) as (_ & Hc0 & _).
  - rewrite (bind_ok _ _ _ _ _ Hr) in H.
    destruct msgs as [|m msgs].
    + inversion H; subst. eexists _, _, _, []. split; [exact Hc0 | constructor].
    + assert (Hem : emits raw_call
                (try_except
                   (process_layers (m :: msgs)
                      (stats_received (len (m :: msgs))) "bronze" del)
                   (fun e => log (ErrBatch e) ;;; raise e))).
      { apply emits_try; [|intros e; emits_steps].
        unfold process_layers.
        apply emits_bind; [apply emits_raw_save_batch_loop|].
        intros [paths msgs']. cbn. apply emits_ret. }
      destruct (Hem _ _ _ H) as (t & Ht & HF).
      eexists _, _, _, t. split; [|exact HF].
      rewrite Ht, Hc0, <- app_assoc. reflexivity.
  - rewrite (bind_raise _ _ _ _ _ Hr) in H. inversion H; subst.
    eexists _, _, _, []. split; [exact Hc0 | constructor].
Qed.

(** X16, witnessed on one message, with deletion asked for. *)
Lemma X16_bronze_batches_stay_off_the_database_witness :
  exists n vt wt t,
    w_calls (snd (@process_batch (Sim.env Sim.plain) "bronze" true
                    (Sim.start Sim.plain [Sim.entry "m1" "[{a=1}]"])))
    = [] ++ SqsReceive n vt wt :: t /\
    Forall raw_call t.
Proof.
  apply (@X16_bronze_batches_stay_off_the_database (Sim.env Sim.plain) true
           (Sim.start Sim.plain [Sim.entry "m1" "[{a=1}]"])
           (fst (@process_batch (Sim.env Sim.plain) "bronze" true
                   (Sim.start Sim.plain [Sim.entry "m1" "[{a=1}]"])))).
  apply surjective_pairing.
Defined.

(* ===================================================================== *)
(** * Listing the raw files ([BronzeTransformer.list_bronze_files]) *)
(* ===================================================================== *)

Import Listing.

Lemma string_ltb_asym (x y : string) :
  String.ltb x y = true -> String.ltb y x = false.
Proof.
  unfold String.ltb. rewrite (String.compare_antisym y x).
  destruct (String.compare x y); simpl; congruence.
Qed.

Lemma path_ltb_asym (a : path) :
  forall b, path_ltb a b = true -> path_ltb b a = false.
Proof.
  induction a as [|x a IH]; intros [|y b] H; simpl in *;
    try reflexivity; try discriminate.
  rewrite String.eqb_sym. destruct (x =? y)%string.
  - now apply IH.
  - now apply string_ltb_asym.
Qed.

Lemma insert_perm x l : Permutation (x :: l) (insert x l).
Proof.
  induction l as [|y l IH]; simpl; [apply Permutation_refl|].
  destruct (path_ltb y x); [|apply Permutation_refl].
  eapply Permutation_trans; [apply perm_swap|]. now apply perm_skip.
Qed.

Lemma sorted_perm l : Permutation l (sorted l).
Proof.
  induction l as [|x l IH]; simpl; [constructor|].
  eapply Permutation_trans; [apply perm_skip, IH | apply insert_perm].
Qed.

Lemma insert_hd x y l :
  HdRel path_le y l -> path_le y x -> HdRel path_le y (insert x l).
Proof.
  intros Hl Hx. destruct l as [|z l]; simpl; [now constructor|].
  inversion Hl; subst. destruct (path_ltb z x); now constructor.
Qed.

Lemma insert_sorted x l : Sorted path_le l -> Sorted path_le (insert x l).
Proof.
  induction l as [|y l IH]; intros H; simpl.
  - repeat constructor.
  - inversion H; subst.
    destruct (path_ltb y x) eqn:Hyx.
    + constructor; [now apply IH|].
      apply insert_hd; [assumption|].
      unfold path_le. now apply path_ltb_asym.
    + constructor; [exact H|]. constructor. exact Hyx.
Qed.

Lemma sorted_sorted l : Sorted path_le (sorted l).
Proof.
  induction l as [|x l IH]; simpl; [constructor | now apply insert_sorted].
Qed.

(** Without bounds no file is passed over. *)
Lemma keeps_unbounded base f b :
  keeps base None None f = Ok b -> b = true.
Proof.
  unfold keeps.
  repeat match goal with
         | |- match ?x with _ => _ end = _ -> _ => destruct x
         | |- (if ?x then _ else _) = _ -> _ => destruct x
         end; intros H; inversion H; reflexivity.
Qed.


(** What the loop collects. *)
Lemma list_loop_collects base s e found :
  forall files r,
    list_loop base s e found files = Ok r ->
    exists kept,
      r = files ++ kept /\
      (forall f, In f kept <-> In f found /\ keeps base s e f = Ok true) /\
      (forall f, In f found -> exists b, keeps base s e f = Ok b) /\
      (s = None -> e = None -> kept = found).
Proof.
  induction found as [|f0 found IH]; intros files r H; simpl in H.
  - inversion H; subst. exists []. rewrite app_nil_r.
    split; [reflexivity|]. split; [|split]; try tauto.
    + intros f. simpl. tauto.
    + intros f [].
  - destruct (keeps base s e f0) as [[|]|x] eqn:Hk; [| |discriminate H].
    + destruct (IH _ _ H) as (kept & -> & Hin & Hok & Hall).
      exists (f0 :: kept). rewrite <- app_assoc. split; [reflexivity|].
      split; [|split].
      * intros f. simpl. rewrite Hin. split.
        -- intros [<-|[? ?]]; auto.
        -- intros [[<-|?] ?]; auto.
      * intros f [<-|Hf]; eauto.
      * intros Hs He. now rewrite (Hall Hs He).
    + destruct (IH _ _ H) as (kept & -> & Hin & Hok & Hall).
      exists kept. split; [reflexivity|]. split; [|split].
      * intros f. rewrite Hin. simpl. split.
        -- intros [? ?]; auto.
        -- intros [[<-|?] Hf]; [congruence | auto].
      * intros f [<-|Hf]; eauto.
      * intros Hs He. subst s e. apply keeps_unbounded in Hk.
        discriminate Hk.
Qed.


(** The files listed are the files found that the loop body keeps. *)
Lemma listed_iff base s e found r :
  list_bronze_files base s e found = Ok r ->
  Sorted path_le r /\
  (forall f, In f r <-> In f found /\ keeps base s e f = Ok true) /\
  (forall f, In f found -> exists b, keeps base s e f = Ok b) /\
  (s = None -> e = None -> Permutation found r).
Proof.
  unfold list_bronze_files.
  destruct (list_loop base s e found []) as [files|x] eqn:Hl; [|discriminate].
  intros H; inversion H; subst r.
  destruct (list_loop_collects _ _ _ _ _ _ Hl)
    as (kept & -> & Hin & Hok & Hall).
  cbn [app]. split; [apply sorted_sorted|]. split; [|split].
  - intros f. rewrite <- Hin. split; intros Hf.
    + eapply Permutation_in; [apply Permutation_sym, sorted_perm | exact Hf].
    + eapply Permutation_in; [apply sorted_perm | exact Hf].
  - exact Hok.
  - intros Hs He. rewrite (Hall Hs He). apply sorted_perm.
Qed.







(** X19: only dated files outside the window are left out.  A file that
    was found and is not listed lies in the partition [y/m/d] of a date
    that exists, and midnight of that date is before [start_date] or
    after [end_date]: a file outside the partitions, or in a partition
    whose name is no date, is always listed. *)
Theorem X19_only_dated_files_are_left_out (base : path)
    (start_date end_date : option datetime) (found files : list path)
    (f : path) :
  list_bronze_files base start_date end_date found = Ok files ->
  In f found -> ~ In f files ->
  exists p0 p1 p2 rest y m d file_date,
    relative_to base f = Some (p0 :: p1 :: p2 :: rest) /\
    py_int p0 = Some y /\ py_int p1 = Some m /\ py_int p2 = Some d /\
    make_datetime y m d = Ok file_date /\
    ((exists s, start_date = Some s /\ dt_ltb file_date s = true) \/
     (exists e, end_date = Some e /\ dt_ltb e file_date = true)).
Proof.
  intros Hrun Hf Hout.
  destruct (listed_iff _ _ _ _ _ Hrun) as (_ & Hin & Hok & _).
  destruct (Hok f Hf) as [b Hb].
  destruct b; [exfalso; apply Hout, Hin; auto|].
  clear Hin Hok Hout Hrun.
  unfold keeps in Hb.
  destruct (relative_to base f) as [[|p0 [|p1 [|p2 rest]]]|] eqn:Hrel;
    try discriminate Hb.
  destruct (py_int p0) as [y|] eqn:H0; [|discriminate Hb].
  destruct (py_int p1) as [m|] eqn:H1; [|discriminate Hb].
  destruct (py_int p2) as [d|] eqn:H2; [|discriminate Hb].
  destruct (make_datetime y m d) as [fd|x] eqn:Hd.
  - exists p0, p1, p2, rest, y, m, d, fd.
    do 5 (split; [reflexivity || assumption|]).
    destruct start_date as [s|].
    + destruct (dt_ltb fd s) eqn:Hs; [left; eauto|].
      destruct end_date as [e|]; [|discriminate Hb].
      destruct (dt_ltb e fd) eqn:He; [right; eauto | discriminate Hb].
    + destruct end_date as [e|]; [|discriminate Hb].
      destruct (dt_ltb e fd) eqn:He; [right; eauto | discriminate Hb].
  - destruct (is_class "ValueError" x || is_class "IndexError" x);
      discriminate Hb.
Qed.

(** X19, witnessed on the file of 14 January, left out by a start on the
    15th. *)
Lemma X19_only_dated_files_are_left_out_witness :
  exists p0 p1 p2 rest y m d file_date,
    relative_to bronze ["data"; "bronze"; "2024"; "01"; "14"; "a.json"]%string
    = Some (p0 :: p1 :: p2 :: rest) /\
    py_int p0 = Some y /\ py_int p1 = Some m /\ py_int p2 = Some d /\
    make_datetime y m d = Ok file_date /\
    ((exists s, Some mid_morning = Some s /\ dt_ltb file_date s = true) \/
     (exists e, @None datetime = Some e /\ dt_ltb e file_date = true)).
Proof.
  apply (X19_only_dated_files_are_left_out bronze (Some mid_morning) None
           some_files [["data"; "bronze"; "misc"; "c.json"]%string]).
  - vm_compute. reflexivity.
  - simpl. auto.
  - intros [H|[]]. discriminate H.
Defined.

(* ===================================================================== *)
(** * Rendering the template of a model ([DuckDBLoader.run_model]) *)
(* ===================================================================== *)

Import Templates.

Section TemplateFacts.
Local Open Scope string_scope.

Lemma placeholder_head key :
  placeholder_of key = String "{" (String "{" (String " " (key ++ " }}"))).
Proof. reflexivity. Qed.

Lemma replace_skip p v q :
  forall rest,
    replace_from p v (String.length q) (q ++ rest) = replace_from p v O rest.
Proof.
  induction q as [|c q IH]; intros rest; [reflexivity|].
  cbn [String.length append replace_from]. apply IH.
Qed.

Lemma not_brace c : Ascii.eqb "{" c = false -> forall p s,
  prefix (String "{" p) (String c s) = false.
Proof.
  intros Hc p s. cbn [prefix].
  destruct (ascii_dec "{" c) as [<-|]; [discriminate Hc | reflexivity].
Qed.

Lemma replace_plain p v a :
  forall rest,
    mem "{" a = false ->
    replace_from (String "{" p) v O (a ++ rest)
    = a ++ replace_from (String "{" p) v O rest.
Proof.
  induction a as [|c a IH]; intros rest H; [reflexivity|].
  cbn [mem] in H. apply orb_false_elim in H as [Hc Ha].
  cbn [append replace_from]. rewrite (not_brace c Hc), IH by exact Ha.
  reflexivity.
Qed.

Lemma prefix_app p : forall rest, prefix p (p ++ rest) = true.
Proof.
  induction p as [|c p IH]; intros rest; [apply prefix_empty|].
  cbn [append prefix].
  destruct (ascii_dec c c) as [_|Hne]; [apply IH | congruence].
Qed.

Lemma contains_prefix p s : prefix p s = true -> contains p s = true.
Proof. intros H. destruct s; cbn [contains]; now rewrite H. Qed.

Lemma contains_app p a :
  forall rest, contains p (a ++ p ++ rest) = true.
Proof.
  induction a as [|c a IH]; intros rest.
  - change ("" ++ p ++ rest) with (p ++ rest).
    apply contains_prefix, prefix_app.
  - cbn [append contains]. rewrite IH. apply orb_true_r.
Qed.

Lemma contains_brace_free p s :
  mem "{" s = false -> contains (String "{" p) s = false.
Proof.
  induction s as [|c s IH]; intros H; [reflexivity|].
  cbn [mem] in H. apply orb_false_elim in H as [Hc Hs].
  cbn [contains]. now rewrite (not_brace c Hc), IH.
Qed.

Lemma findall_brace_free s : mem "{" s = false -> findall_from O s = [].
Proof.
  induction s as [|c s IH]; intros H; [reflexivity|].
  cbn [mem] in H. apply orb_false_elim in H as [Hc Hs].
  cbn [findall_from]. now rewrite (not_brace c Hc), IH.
Qed.

Lemma brace_free_join v pieces :
  brace_free v = true -> forallb brace_free pieces = true ->
  mem "{" (join v pieces) = false.
Proof.
  unfold brace_free. intros Hv. apply negb_true_iff in Hv.
  induction pieces as [|x pieces IH]; [reflexivity|].
  cbn [forallb]. intros H. apply andb_prop in H as [Hx Hrest].
  apply negb_true_iff in Hx.
  destruct pieces as [|y pieces]; [exact Hx|].
  change (join v (x :: y :: pieces)) with (x ++ v ++ join v (y :: pieces)).
  now rewrite !mem_app, Hx, Hv, (IH Hrest).
Qed.

(** Every occurrence of the placeholder is replaced. *)
Lemma replace_template key v pieces :
  pieces <> [] ->
  forallb brace_free pieces = true ->
  replace (placeholder_of key) v (template key pieces) = join v pieces.
Proof.
  unfold replace, template. rewrite placeholder_head.
  set (p' := String "{" (String " " (key ++ " }}"))).
  induction pieces as [|x pieces IH]; intros Hne H; [congruence|].
  cbn [forallb] in H. apply andb_prop in H as [Hx Hrest].
  apply negb_true_iff in Hx.
  destruct pieces as [|y pieces].
  - cbn [join]. rewrite <- (str_app_nil_r x) at 1.
    rewrite replace_plain by exact Hx. cbn [replace_from].
    apply str_app_nil_r.
  - change (join (String "{" p') (x :: y :: pieces))
      with (x ++ String "{" p' ++ join (String "{" p') (y :: pieces)).
    change (join v (x :: y :: pieces)) with (x ++ v ++ join v (y :: pieces)).
    rewrite replace_plain by exact Hx. f_equal.
    cbn [append replace_from].
    change (String "{" (p' ++ join (String "{" p') (y :: pieces)))
      with (String "{" p' ++ join (String "{" p') (y :: pieces)).
    rewrite prefix_app. cbn [String.length Nat.pred].
    rewrite replace_skip, IH; [reflexivity | discriminate | exact Hrest].
Qed.

End TemplateFacts.

(** X20: rendering substitutes every placeholder.  For a model file made
    of pieces without braces, with the placeholder of [key] between each
    piece and the next, and a value without braces, [run_model] executes
    the pieces joined by the value: every occurrence is replaced and no
    warning on the template is logged, except the warning that the
    placeholder was not found when the file is a single piece. *)
Theorem X20_rendering_substitutes_every_placeholder {E : Env}
    (model_name key value : string) (pieces : list string) (w : world) :
  fs_read_text (model_path model_name) (w_store w)
  = Some (template key pieces) ->
  pieces <> [] ->
  forallb brace_free pieces = true ->
  brace_free value = true ->
  run_model model_name [(key, value)] w
  = execute_statements (join value pieces)
      (match pieces with
       | [_] =>
           add_log (WarnPlaceholderNotFound (placeholder_of key) model_name)
             (add_call (FsReadText (model_path model_name))
                       (put_store (w_store w) w))
       | _ =>
           add_call (FsReadText (model_path model_name))
                    (put_store (w_store w) w)
       end).
Proof.
  intros Hfile Hne Hfree Hvalue. unfold run_model.
  change ("sql/models/" ++ model_name ++ ".sql")%string
    with (model_path model_name).
  rewrite (bind_ok _ _ _ _ _
             (on_store_eq (FsReadText (model_path model_name))
                (fun st => (st, fs_read_text (model_path model_name) st))
                w _ _ eq_refl)).
  rewrite Hfile. cbn [render].
  pose proof (brace_free_join value pieces Hvalue Hfree) as Hjoin.
  destruct pieces as [|x [|y pieces]]; [congruence| |].
  - cbn [forallb] in Hfree. rewrite andb_true_r in Hfree.
    apply negb_true_iff in Hfree.
    unfold template. cbn [join] in *. rewrite placeholder_head.
    rewrite (contains_brace_free _ _ Hfree).
    erewrite bind_ok by reflexivity. cbv beta.
    unfold findall_placeholders. rewrite (findall_brace_free _ Hfree).
    erewrite bind_ok by reflexivity. reflexivity.
  - assert (Hc : contains (placeholder_of key)
                          (template key (x :: y :: pieces)) = true).
    { unfold template.
      change (join (placeholder_of key) (x :: y :: pieces))
        with (x ++ placeholder_of key
                ++ join (placeholder_of key) (y :: pieces))%string.
      apply contains_app. }
    rewrite Hc, replace_template by (discriminate || exact Hfree).
    erewrite bind_ok by reflexivity. cbv beta.
    unfold findall_placeholders. rewrite (findall_brace_free _ Hjoin).
    erewrite bind_ok by reflexivity. reflexivity.
Qed.

(** X20, witnessed on a model that names the raw directory twice: the
    statement executed has the directory in both places. *)
Lemma X20_rendering_substitutes_every_placeholder_witness :
  Sim.executed
    (w_store (snd (@run_model (Sim.env templated) "silver_events"
                     [("bronze_path", "data/bronze")]
                     (Sim.start templated []))))
  = [("INSERT INTO t SELECT * FROM read_json('data/bronze/a.json')"
        ++ " UNION SELECT * FROM read_json('data/bronze/b.json')")%string].
Proof.
  rewrite (@X20_rendering_substitutes_every_placeholder (Sim.env templated)
             "silver_events" "bronze_path" "data/bronze"
             ["INSERT INTO t SELECT * FROM read_json('"%string;
              "/a.json') UNION SELECT * FROM read_json('"%string;
              "/b.json');"%string]
             (Sim.start templated []) eq_refl ltac:(discriminate)
             eq_refl eq_refl).
  vm_compute. reflexivity.
Defined.

(* ===================================================================== *)
(** * Messages that are not JSON, from the queue to the raw store *)
(* ===================================================================== *)

Import Poison.

Lemma rejected_lack_items {E : Env} entries messages :
  all_rejected entries ->
  Forall2 received_as entries messages ->
  forallb lacks_items messages = true.
Proof.
  intros Hrej Hall. induction Hall as [|msg m entries messages Hm _ IH];
    [reflexivity|].
  cbn [forallb]. rewrite IH by (intros x Hx; apply Hrej; now right).
  destruct (Hrej msg (or_introl eq_refl)) as (e & He & _).
  destruct Hm as (_ & _ & Hm). rewrite He in Hm. destruct Hm as (Hb & _).
  unfold lacks_items. now rewrite Hb.
Qed.

Lemma rejected_decodable {E : Env} entries :
  all_rejected entries -> decodable entries.
Proof.
  intros Hrej msg e Hin He. destruct (Hrej msg Hin) as (e' & He' & Hc).
  congruence.
Qed.

(** X21: messages that are not JSON are received and counted, and never
    reach the raw store.  When the queue answers with entries whose
    bodies the decoder rejects, [process_batch] with the target layer
    bronze returns without raising; the statistics count every entry as
    received and none as saved; after the request to the queue the only
    calls made name one file per message, and nothing is written. *)
Theorem X21_rejected_bodies_are_not_persisted {E : Env} (del : bool)
    (w : world) (q : Queue) (entries : list sqs_message) :
  sqs_receive_message 10 30 20 (w_queue w) = (q, Ok entries) ->
  all_rejected entries ->
  exists st w' messages,
    process_batch "bronze" del w = (Ok st, w') /\
    messages_received st = len entries /\
    bronze_saved st = 0 /\
    Forall2 received_as entries messages /\
    w_calls w'
    = w_calls w ++ SqsReceive 10 30 20 :: map FsNewPath messages /\
    existsb is_write (w_calls w') = existsb is_write (w_calls w).
Proof.
  intros Hrecv Hrej.
  pose proof (rejected_decodable _ Hrej) as Hdec.
  assert (Hr : exists messages w0,
             receive_messages None None None w = (Ok messages, w0) /\
             Forall2 received_as entries messages /\
             w_calls w0 = w_calls w ++ [SqsReceive 10 30 20]).
  { unfold receive_messages, try_except.
    change (Z.min (or_default None MAX_MESSAGES_PER_BATCH) 10) with 10.
    change (or_default None VISIBILITY_TIMEOUT) with 30.
    change (or_default None WAIT_TIME_SECONDS) with 20.
    erewrite bind_ok by (apply on_queue_eq; exact Hrecv).
    erewrite bind_ok by reflexivity.
    match goal with
    | |- context [parse_messages entries [] ?w0] =>
        destruct (parse_messages_keeps entries Hdec [] w0)
          as (res & w1 & Hrun & Hall & _);
        destruct (parse_messages_frame _ _ _ _ _ Hrun) as (_ & Hc & _)
    end.
    cbn [app] in Hrun. rewrite Hrun. exists res, w1.
    split; [reflexivity|]. split; [exact Hall | exact Hc]. }
  destruct Hr as (messages & w0 & Hr & Hall & Hc0).
  pose proof (rejected_lack_items _ _ Hrej Hall) as Hlack.
  destruct (save_batch_loop_lacking_items messages Hlack [] [] w0)
    as (errs & w1 & Hsave & Hc1 & _ & _).
  assert (Hlen : len messages = len entries).
  { unfold len. f_equal. symmetry. eapply Forall2_length; eauto. }
  assert (Hquiet : existsb is_write
                     (w_calls w ++ SqsReceive 10 30 20
                                   :: map FsNewPath messages)
                   = existsb is_write (w_calls w)).
  { rewrite existsb_app. cbn [existsb is_write orb].
    replace (existsb is_write (map FsNewPath messages)) with false;
      [apply orb_false_r|].
    clear. induction messages; simpl; auto. }
  unfold process_batch. rewrite (bind_ok _ _ _ _ _ Hr).
  destruct messages as [|m messages].
  - exists (stats_received (len (@nil message))), w0, [].
    split; [reflexivity|]. rewrite <- Hlen.
    split; [reflexivity|]. split; [reflexivity|]. split; [exact Hall|].
    rewrite Hc0. split; [reflexivity|]. exact Hquiet.
  - unfold try_except, process_layers.
    change (save_batch (m :: messages))
      with (save_batch_loop (m :: messages) [] []).
    rewrite (bind_ok _ _ _ _ _ Hsave). cbn.
    eexists _, w1, (m :: messages). split; [reflexivity|]. cbn.
    rewrite <- Hlen. split; [reflexivity|]. split; [reflexivity|].
    split; [exact Hall|].
    assert (Hc : w_calls w1
                 = w_calls w ++ SqsReceive 10 30 20
                               :: map FsNewPath (m :: messages)).
    { rewrite Hc1, Hc0, <- app_assoc. reflexivity. }
    split; [exact Hc|]. rewrite Hc. exact Hquiet.
Qed.

(** X21, witnessed on a queue that holds one entry that is not JSON. *)
Lemma X21_rejected_bodies_are_not_persisted_witness :
  exists st w' messages,
    @process_batch (Sim.env strict) "bronze" false
      (Sim.start strict [Sim.entry "m1" "oops"])
    = (Ok st, w') /\
    messages_received st = 1 /\
    bronze_saved st = 0 /\
    Forall2 (@received_as (Sim.env strict)) [Sim.entry "m1" "oops"] messages /\
    w_calls w' = [] ++ SqsReceive 10 30 20 :: map FsNewPath messages /\
    existsb is_write (w_calls w') = false.
Proof.
  apply (@X21_rejected_bodies_are_not_persisted (Sim.env strict) false
           (Sim.start strict [Sim.entry "m1" "oops"])
           [Sim.entry "m1" "oops"] [Sim.entry "m1" "oops"] eq_refl).
  intros msg [<-|[]]. eexists. split; reflexivity.
Defined.

(* ===================================================================== *)
(** * Integers through the scalar coercion *)
(* ===================================================================== *)

Import Printing.

Section Numerals.
Local Open Scope string_scope.

(** The facts on a printed numeral that the coercion uses. *)
Lemma printed_uint (d : Decimal.uint) :
  rstrip_by is_space (NilEmpty.string_of_uint d) = NilEmpty.string_of_uint d /\
  mem "." (NilEmpty.string_of_uint d) = false /\
  exists ds,
    digits_tail (NilEmpty.string_of_uint d) = (ds, "") /\
    List.length ds = String.length (NilEmpty.string_of_uint d) /\
    (forall acc,
        fold_left (fun a x => (10 * a + x)%N) ds (N.pos acc)
        = N.pos (Pos.of_uint_acc d acc)) /\
    fold_left (fun a x => (10 * a + x)%N) ds 0%N = Pos.of_uint d.
Proof.
  induction d as [|d IH|d IH|d IH|d IH|d IH|d IH|d IH|d IH|d IH|d IH];
    [split; [reflexivity|]; split; [reflexivity|];
     exists []; repeat split; reflexivity | ..];
    destruct IH as (Hr & Hm & ds & Hd & Hlen & Hacc & Hzero);
    cbn [NilEmpty.string_of_uint];
    (split;
     [ cbn [rstrip_by]; rewrite Hr;
       destruct (NilEmpty.string_of_uint d); reflexivity |]);
    (split; [cbn [mem]; rewrite Hm; reflexivity |]);
    ( cbn [digits_tail];
      match goal with
      | |- context [is_digit ?c] => change (is_digit c) with true; cbv iota
      end;
      rewrite Hd; eexists; (split; [reflexivity|]);
      (split; [cbn [List.length String.length]; now rewrite Hlen|]);
      match goal with
      | |- context [digit_val ?c] =>
          let v := eval vm_compute in (digit_val c) in
          change (digit_val c) with v
      end;
      cbn [fold_left Pos.of_uint_acc Pos.of_uint];
      (split; [intros acc; rewrite <- Hacc; f_equal; lia|]);
      first [ rewrite <- Hzero; reflexivity
            | rewrite <- Hacc; reflexivity ] ).
Qed.

Lemma py_int_numeral (c : ascii) (r : string) (ds : list N) :
  is_digit c = true -> is_space c = false ->
  Ascii.eqb c "-" = false -> Ascii.eqb c "+" = false ->
  rstrip_by is_space (String c r) = String c r ->
  digits_tail (String c r) = (ds, "") ->
  (N.of_nat (List.length ds) <= int_max_str_digits)%N ->
  py_int (String c r) = Some (Z.of_N (of_digits ds)) /\
  py_int (String "-" (String c r)) = Some (- Z.of_N (of_digits ds)) /\
  strip (String c r) = String c r /\
  strip (String "-" (String c r)) = String "-" (String c r).
Proof.
  intros Hdigit Hspace Hminus Hplus Hr Hd Hlen.
  apply N.leb_le in Hlen.
  assert (Hs : strip (String c r) = String c r).
  { unfold strip. cbn [lstrip_by]. now rewrite Hspace. }
  assert (Hn : strip (String "-" (String c r)) = String "-" (String c r)).
  { unfold strip. cbn [lstrip_by]. change (is_space "-") with false.
    cbv iota.
    change (rstrip_by is_space (String "-" (String c r)))
      with (match rstrip_by is_space (String c r) with
            | "" => if is_space "-" then "" else String "-" ""
            | x => String "-" x
            end).
    now rewrite Hr. }
  split; [|split; [|split; [exact Hs | exact Hn]]].
  - unfold py_int. rewrite Hs. cbn [sign]. rewrite Hminus, Hplus.
    unfold digitpart. now rewrite Hdigit, Hd, Hlen.
  - unfold py_int. rewrite Hn. cbn [sign].
    change (Ascii.eqb "-" "-") with true. cbv iota.
    unfold digitpart. now rewrite Hdigit, Hd, Hlen.
Qed.

Lemma py_int_printed_uint (d : Decimal.uint) :
  (N.of_nat (String.length (NilZero.string_of_uint d))
   <= int_max_str_digits)%N ->
  py_int (NilZero.string_of_uint d) = Some (Z.of_uint d) /\
  py_int (String "-" (NilZero.string_of_uint d)) = Some (- Z.of_uint d) /\
  mem "." (NilZero.string_of_uint d) = false /\
  strip (NilZero.string_of_uint d) = NilZero.string_of_uint d /\
  strip (String "-" (NilZero.string_of_uint d))
  = String "-" (NilZero.string_of_uint d) /\
  (NilZero.string_of_uint d =? "null") = false /\
  (NilZero.string_of_uint d =? "(not set)") = false.
Proof.
  destruct d as [|d|d|d|d|d|d|d|d|d|d];
    [intros _; repeat split; reflexivity | ..];
    match goal with
    | |- context [NilZero.string_of_uint ?x] =>
        destruct (printed_uint x) as (Hr & Hm & ds & Hd & Hlen & _ & Hzero)
    end;
    cbn [NilZero.string_of_uint];
    cbn [NilEmpty.string_of_uint] in *;
    rewrite <- Hlen; intros Hfit;
    match type of Hd with
    | digits_tail (String ?c ?r) = _ =>
        destruct (py_int_numeral c r ds eq_refl eq_refl eq_refl eq_refl
                    Hr Hd Hfit) as (P1 & P2 & P3 & P4)
    end;
    unfold of_digits in P1, P2; rewrite Hzero in P1, P2;
    (split; [exact P1|]); (split; [exact P2|]); (split; [exact Hm|]);
    (split; [exact P3|]); (split; [exact P4|]); split; reflexivity.
Qed.

End Numerals.

(** X22: integers survive the way through text.  For every integer [n]
    whose decimal numeral has at most 4300 digits (the limit up to which
    [int] reads a literal), the scalar coercion turns the numeral back
    into the integer [n]: never into a float, a string or [None]. *)
Theorem X22_integers_survive_the_text (n : Z) :
  (N.of_nat (String.length (str_of_int (Z.abs n))) <= int_max_str_digits)%N ->
  py_int (str_of_int n) = Some n /\
  parse_value (str_of_int n) = VInt n.
Proof.
  intros Hfit.
  assert (Hint : py_int (str_of_int n) = Some n /\
                 strip (str_of_int n) = str_of_int n /\
                 mem "." (str_of_int n) = false /\
                 (str_of_int n =? "null")%string = false /\
                 (str_of_int n =? "(not set)")%string = false).
  { revert Hfit. unfold str_of_int. rewrite <- (DecimalZ.of_to n) at 3.
    destruct n as [|p|p]; cbn [Z.abs Z.to_int NilZero.string_of_int];
      intros Hfit;
      match goal with
      | |- context [NilZero.string_of_uint ?d] =>
          destruct (py_int_printed_uint d Hfit)
            as (H1 & H2 & H3 & H4 & H5 & H6 & H7)
      end; cbn [Z.of_int].
    - repeat split; assumption.
    - repeat split; assumption.
    - split; [exact H2|]. split; [exact H5|].
      split; [cbn [mem]; now rewrite H3|]. split; reflexivity. }
  destruct Hint as (Hi & Hs & Hm & Hn & Hp).
  split; [exact Hi|].
  unfold parse_value. now rewrite Hs, Hn, Hp, Hm, Hi.
Qed.

(** A negative integer of five digits comes back as itself. *)
Lemma X22_integers_survive_the_text_witness :
  py_int (str_of_int (-40213)) = Some (-40213) /\
  parse_value (str_of_int (-40213)) = VInt (-40213).
Proof.
  apply (X22_integers_survive_the_text (-40213)).
  vm_compute. discriminate.
Defined.

(* ===================================================================== *)
(** * The order in which the models are run *)
(* ===================================================================== *)

Import Order.

Lemma reads_app t1 t2 : reads (t1 ++ t2) = reads t1 ++ reads t2.
Proof. unfold reads. apply flat_map_app. Qed.

Lemma reads_none t : Forall reads_nothing t -> reads t = [].
Proof.
  induction 1 as [|c t Hc _ IH]; [reflexivity|].
  change (reads (c :: t)) with (reads ([c] ++ t)).
  now rewrite reads_app, Hc, IH.
Qed.

Lemma db_reads_nothing (c : call) : is_db_call c = true -> reads_nothing c.
Proof. destruct c; (discriminate || reflexivity). Qed.

Lemma emits_no_reads {E : Env} {A} (c : M A) w r w' :
  emits reads_nothing c -> c w = (r, w') ->
  reads (w_calls w') = reads (w_calls w).
Proof.
  intros Hc H. destruct (Hc _ _ _ H) as (t & -> & HF).
  now rewrite reads_app, (reads_none _ HF), app_nil_r.
Qed.

Lemma table_count_reads {E : Env} table w r w' :
  table_count table w = (r, w') -> reads (w_calls w') = reads (w_calls w).
Proof.
  apply emits_no_reads, emits_db_table_count, db_reads_nothing.
Qed.

Lemma probe_reads {E : Env} w r w' :
  probe_bronze_json w = (r, w') -> reads (w_calls w') = reads (w_calls w).
Proof. apply emits_no_reads, emits_db_probe, db_reads_nothing. Qed.

(** A model run reads the file of its model, once, whatever comes of
    it. *)
Lemma run_model_reads {E : Env} name kwargs w r w' :
  run_model name kwargs w = (r, w') ->
  reads (w_calls w') = reads (w_calls w) ++ [model_path name].
Proof.
  unfold run_model.
  change ("sql/models/" ++ name ++ ".sql")%string with (model_path name).
  rewrite (bind_ok _ _ _ _ _
             (on_store_eq (FsReadText (model_path name))
                (fun st => (st, fs_read_text (model_path name) st))
                w _ _ eq_refl)).
  intros H.
  match type of H with
  | ?c ?w1 = _ =>
      assert (Hem : emits reads_nothing c);
      [|rewrite (emits_no_reads c w1 r w' Hem H)]
  end.
  - destruct (fs_read_text (model_path name) (w_store w));
      [|apply emits_raise].
    apply emits_bind; [apply emits_db_render|].
    intros sql.
    apply emits_bind;
      [|intros _; apply emits_db_execute_statements, db_reads_nothing].
    destruct (findall_placeholders sql); [apply emits_ret | apply emits_log].
  - cbn [w_calls add_call put_store]. now rewrite reads_app.
Qed.

Lemma run_model_logged_reads {E : Env} name kwargs w r w' :
  run_model_logged name kwargs w = (r, w') ->
  reads (w_calls w') = reads (w_calls w) ++ [model_path name].
Proof.
  unfold run_model_logged, try_except.
  destruct (run_model name kwargs w) as [[[]|e] w1] eqn:Hm;
    pose proof (run_model_reads _ _ _ _ _ Hm) as Hr.
  - intros H; inversion H; subst; exact Hr.
  - unfold bind, log, raise. intros H; inversion H; subst. exact Hr.
Qed.

(** One model after the counts taken so far: the rest of the stage is
    reached only when the model returns. *)
Ltac count_step H :=
  match type of H with
  | bind (table_count ?table) _ ?w0 = _ =>
      let n := fresh "n" in
      let w1 := fresh "w" in
      let Hc := fresh "Hc" in
      let Hr := fresh "Hr" in
      destruct (table_count_returns table w0) as (n & w1 & Hc & _);
      rewrite (bind_ok _ _ _ _ _ Hc) in H;
      pose proof (table_count_reads _ _ _ _ Hc) as Hr
  end.

(** X23: the models of a stage are run in the order of the sources, each
    at most once, and a model that raises ends the stage.  In every run
    of [transform_to_gold] the files read are the first [k] of the four
    gold models (fact events, fact items, dim items, dim users), in this
    order, with [k] at least 1, and [k] is 4 when the stage returns; the
    same holds of [transform_to_silver] and its two models, which reads
    none when no raw file is found. *)
Theorem X23_models_run_in_order {E : Env} :
  (forall w r w',
      transform_to_gold w = (r, w') ->
      exists k,
        (1 <= k <= 4)%nat /\
        reads (w_calls w')
        = reads (w_calls w) ++ map model_path (firstn k gold_models) /\
        (forall st, r = Ok st -> k = 4%nat)) /\
  (forall w r w',
      transform_to_silver w = (r, w') ->
      exists k,
        (k <= 2)%nat /\
        reads (w_calls w')
        = reads (w_calls w) ++ map model_path (firstn k silver_models) /\
        (fs_rglob_json bronze_path (w_store w) = [] -> k = 0%nat) /\
        (forall st, r = Ok st ->
                    fs_rglob_json bronze_path (w_store w) <> [] ->
                    k = 2%nat)).
Proof.
  split.
  - intros w r w' H. unfold transform_to_gold in H.
    do 4 count_step H.
    destruct (run_model "gold_fact_events" [] w3) as [[[]|e] w4] eqn:Hm1;
      pose proof (run_model_reads _ _ _ _ _ Hm1) as R1;
      [rewrite (bind_ok _ _ _ _ _ Hm1) in H
      |rewrite (bind_raise _ _ _ _ _ Hm1) in H; inversion H; subst;
       exists 1%nat; split; [lia|]; split; [|discriminate];
       rewrite R1; cbn; congruence].
    destruct (run_model "gold_fact_items" [] w4) as [[[]|e] w5] eqn:Hm2;
      pose proof (run_model_reads _ _ _ _ _ Hm2) as R2;
      [rewrite (bind_ok _ _ _ _ _ Hm2) in H
      |rewrite (bind_raise _ _ _ _ _ Hm2) in H; inversion H; subst;
       exists 2%nat; split; [lia|]; split; [|discriminate];
       rewrite R2, R1, <- app_assoc; cbn; congruence].
    destruct (run_model "gold_dim_items" [] w5) as [[[]|e] w6] eqn:Hm3;
      pose proof (run_model_reads _ _ _ _ _ Hm3) as R3;
      [rewrite (bind_ok _ _ _ _ _ Hm3) in H
      |rewrite (bind_raise _ _ _ _ _ Hm3) in H; inversion H; subst;
       exists 3%nat; split; [lia|]; split; [|discriminate];
       rewrite R3, R2, R1, <- !app_assoc; cbn; congruence].
    destruct (run_model "gold_dim_users" [] w6) as [[[]|e] w7] eqn:Hm4;
      pose proof (run_model_reads _ _ _ _ _ Hm4) as R4;
      [rewrite (bind_ok _ _ _ _ _ Hm4) in H
      |rewrite (bind_raise _ _ _ _ _ Hm4) in H; inversion H; subst;
       exists 4%nat; split; [lia|]; split; [|discriminate];
       rewrite R4, R3, R2, R1, <- !app_assoc; cbn; congruence].
    do 4 count_step H. inversion H; subst.
    exists 4%nat. split; [lia|]. split; [|reflexivity].
    rewrite Hr6, Hr5, Hr4, Hr3, R4, R3, R2, R1, <- !app_assoc. cbn.
    congruence.
  - intros w r w' H. unfold transform_to_silver in H.
    rewrite (bind_ok _ _ _ _ _
               (on_store_eq (FsRglobJson bronze_path)
                  (fun st => (st, fs_rglob_json bronze_path st))
                  w _ _ eq_refl)) in H.
    destruct (fs_rglob_json bronze_path (w_store w)) as [|f fs] eqn:Hfiles.
    { unfold bind, log, ret in H. inversion H; subst. exists 0%nat.
      split; [lia|]. split; [|split; [reflexivity | congruence]].
      cbn. rewrite reads_app. cbn. now rewrite !app_nil_r. }
    set (w0 := add_call (FsRglobJson bronze_path) (put_store (w_store w) w))
      in H.
    assert (R0 : reads (w_calls w0) = reads (w_calls w)).
    { unfold w0. cbn. rewrite reads_app. cbn. now rewrite app_nil_r. }
    destruct (probe_returns w0) as [wp Hp].
    rewrite (bind_ok _ _ _ _ _ Hp) in H.
    pose proof (probe_reads _ _ _ Hp) as Rp.
    do 2 count_step H.
    destruct (run_model_logged "silver_events" [("bronze_path", bronze_path)]
                w2) as [[[]|e] w4] eqn:Hm1;
      pose proof (run_model_logged_reads _ _ _ _ _ Hm1) as R1;
      [rewrite (bind_ok _ _ _ _ _ Hm1) in H
      |rewrite (bind_raise _ _ _ _ _ Hm1) in H; inversion H; subst;
       exists 1%nat; split; [lia|];
       split; [|split; [discriminate | discriminate]];
       rewrite R1; cbn; congruence].
    destruct (run_model_logged "silver_items" [("bronze_path", bronze_path)]
                w4) as [[[]|e] w5] eqn:Hm2;
      pose proof (run_model_logged_reads _ _ _ _ _ Hm2) as R2;
      [rewrite (bind_ok _ _ _ _ _ Hm2) in H
      |rewrite (bind_raise _ _ _ _ _ Hm2) in H; inversion H; subst;
       exists 2%nat; split; [lia|];
       split; [|split; [discriminate | discriminate]];
       rewrite R2, R1, <- app_assoc; cbn; congruence].
    do 2 count_step H. inversion H; subst.
    exists 2%nat. split; [lia|].
    split; [|split; [discriminate | reflexivity]].
    rewrite Hr2, Hr1, R2, R1, <- app_assoc. cbn. congruence.
Qed.

(* ===================================================================== *)
(** * Raw persistence comes first *)
(* ===================================================================== *)

Import Phases.

Section LaterCalls.
Context {E : Env}.
Variable P : call -> Prop.
Hypothesis P_later : forall c, is_raw_call c = false -> P c.

Lemma later_db (c : call) : is_db_call c = true -> P c.
Proof. intros H. apply P_later. destruct c; (discriminate || reflexivity). Qed.

Lemma emits_later_export_to_parquet table dir col :
  emits P (export_to_parquet table dir col).
Proof.
  unfold export_to_parquet.
  apply emits_bind; [apply emits_db_connect, later_db|]. intros _.
  apply emits_bind.
  { apply emits_bind; [apply emits_on_store, P_later; reflexivity|].
    intros r. apply emits_of_status. }
  intros _. apply emits_bind; [apply emits_read|]. intros stamp.
  destruct col as [col|]; [destruct (nonempty col)|].
  - apply emits_try.
    + apply emits_bind; [apply emits_db_execute_sql, later_db|].
      intros _. apply emits_ret.
    + intros e. apply emits_bind; [apply emits_log|]. intros _.
      apply emits_bind; [apply emits_db_execute_sql, later_db|].
      intros _. apply emits_ret.
  - apply emits_bind; [apply emits_db_execute_sql, later_db|].
    intros _. apply emits_ret.
  - apply emits_bind; [apply emits_db_execute_sql, later_db|].
    intros _. apply emits_ret.
Qed.

Lemma emits_later_transform_to_silver : emits P transform_to_silver.
Proof.
  unfold transform_to_silver.
  apply emits_bind; [apply emits_on_store, P_later; reflexivity|].
  intros [|f fs]; [emits_steps|].
  repeat first
    [ apply emits_ret
    | apply emits_db_probe, later_db
    | apply emits_db_table_count, later_db
    | apply emits_db_run_model_logged;
      [apply later_db | apply P_later; reflexivity]
    | apply emits_bind; [|intros ?] ].
Qed.

Lemma emits_later_transform_to_gold : emits P transform_to_gold.
Proof.
  unfold transform_to_gold.
  repeat first
    [ apply emits_ret
    | apply emits_db_table_count, later_db
    | apply emits_db_run_model;
      [apply later_db | apply P_later; reflexivity]
    | apply emits_bind; [|intros ?] ].
Qed.

Lemma emits_later_delete_all msgs : emits P (delete_all msgs).
Proof.
  induction msgs as [|m msgs IH]; simpl; [apply emits_ret|].
  apply emits_bind; [|intros _; exact IH].
  unfold delete_message.
  apply emits_bind; [apply emits_on_queue, P_later; reflexivity|].
  intros r. emits_steps.
Qed.

(** The stages after raw persistence. *)
Lemma emits_later_stages (st : stats) (target : string) (del : bool)
    (msgs : list message) :
  emits P
    (silver_result <- transform_to_silver ;;
     (if SAVE_PARQUET then export_silver_to_parquet else ret tt) ;;;
     if (target =? "silver")%string
     then ret {| messages_received := messages_received st;
                 bronze_saved := bronze_saved st;
                 silver_events := events_inserted silver_result;
                 silver_items := items_inserted silver_result;
                 gold_events := gold_events st;
                 gold_items := gold_items st;
                 errors := errors st |}
     else
       gold_result <- transform_to_gold ;;
       (if SAVE_PARQUET then export_gold_to_parquet else ret tt) ;;;
       (if del then delete_all msgs else ret tt) ;;;
       ret {| messages_received := messages_received st;
              bronze_saved := bronze_saved st;
              silver_events := events_inserted silver_result;
              silver_items := items_inserted silver_result;
              gold_events := fact_events_inserted gold_result;
              gold_items := fact_items_inserted gold_result;
              errors := errors st |}).
Proof.
  unfold export_silver_to_parquet, export_gold_to_parquet.
  repeat first
    [ apply emits_ret
    | apply emits_later_transform_to_silver
    | apply emits_later_transform_to_gold
    | apply emits_later_export_to_parquet
    | apply emits_later_delete_all
    | apply emits_bind; [|intros ?]
    | match goal with
      | |- emits _ (if ?b then _ else _) => destruct b
      end ].
Qed.

End LaterCalls.

(** X24: raw persistence comes first, and only once.  In every run of
    [process_batch] the calls made are the request to the queue, then the
    calls of raw persistence for the whole batch (naming files and
    writing flagged records), then the calls of the later stages, among
    which there is no call of raw persistence: no statement is sent to
    the database before the last raw file of the batch is written, and
    no raw file is written after it. *)
Theorem X24_raw_persistence_comes_first {E : Env} (target : string)
    (del : bool) (w : world) (r : result stats) (w' : world) :
  process_batch target del w = (r, w') ->
  exists n vt wt raw later,
    w_calls w' = w_calls w ++ SqsReceive n vt wt :: raw ++ later /\
    Forall raw_call raw /\
    Forall later_call later.
Proof.
  intros H. unfold process_batch in H.
  destruct (receive_messages None None None w) as [[msgs|e] w0] eqn:Hr;
    destruct (receive_messages_frame _ _ _ _ _ _ Hr) as (_ & Hc0 & _).
  - rewrite (bind_ok _ _ _ _ _ Hr) in H.
    destruct msgs as [|m msgs].
    { inversion H; subst. eexists _, _, _, [], [].
      split; [exact Hc0|]. split; constructor. }
    assert (Hlayers : exists r1 w1,
               process_layers (m :: msgs) (stats_received (len (m :: msgs)))
                 target del w0 = (r1, w1) /\
               w_calls w' = w_calls w1).
    { unfold try_except in H.
      destruct (process_layers (m :: msgs) (stats_received (len (m :: msgs)))
                  target del w0) as [[st|e] w1].
      - inversion H; subst. eauto.
      - unfold bind, log, raise in H. inversion H; subst. eauto. }
    destruct Hlayers as (r1 & w1 & Hl & Hsame).
    unfold process_layers in Hl.
    destruct (save_batch_returns (m :: msgs) w0)
      as (paths & msgs' & wb & Hs & _ & _).
    rewrite (bind_ok _ _ _ _ _ Hs) in Hl. cbv beta iota in Hl.
    destruct (emits_raw_save_batch_loop (m :: msgs) [] [] _ _ _ Hs)
      as (raw & Craw & Fraw).
    assert (Hlater : exists later,
               w_calls w1 = w_calls wb ++ later /\ Forall later_call later).
    { destruct (target =? "bronze")%string.
      - inversion Hl; subst. exists []. rewrite app_nil_r.
        split; [reflexivity | constructor].
      - cbn [messages_received bronze_saved silver_events silver_items
             gold_events gold_items errors] in Hl.
        match type of Hl with
        | ?c _ = _ =>
            assert (Hem : emits later_call c)
        end.
        { apply (emits_later_stages later_call (fun c Hc => Hc)
                   {| messages_received :=
                        messages_received
                          (stats_received (len (m :: msgs)));
                      bronze_saved := len paths;
                      silver_events := 0; silver_items := 0;
                      gold_events := 0; gold_items := 0;
                      errors := 0 |} target del msgs'). }
        exact (Hem _ _ _ Hl). }
    destruct Hlater as (later & Clater & Flater).
    eexists _, _, _, raw, later. split; [|split; assumption].
    rewrite Hsame, Clater, Craw, Hc0, <- !app_assoc. reflexivity.
  - rewrite (bind_raise _ _ _ _ _ Hr) in H. inversion H; subst.
    eexists _, _, _, [], []. split; [exact Hc0|]. split; constructor.
Qed.

(** X24, witnessed on one message taken through every stage. *)
Lemma X24_raw_persistence_comes_first_witness :
  exists n vt wt raw later,
    w_calls (snd (@process_batch (Sim.env Sim.plain) "gold" true
                    (Sim.start Sim.plain [Sim.entry "m1" "[{a=1}]"])))
    = [] ++ SqsReceive n vt wt :: raw ++ later /\
    Forall raw_call raw /\
    Forall later_call later.
Proof.
  apply (@X24_raw_persistence_comes_first (Sim.env Sim.plain) "gold" true
           (Sim.start Sim.plain [Sim.entry "m1" "[{a=1}]"])
           (fst (@process_batch (Sim.env Sim.plain) "gold" true
                   (Sim.start Sim.plain [Sim.entry "m1" "[{a=1}]"])))).
  apply surjective_pairing.
Defined.
